(** * Gemini browser automation: a shallow embedding of [ask_gemini.py],
      [generate_image.py] and [browser_utils.py]

    The two scripts drive a web page through a browser automation library.
    Everything the scripts learn from the outside (the authentication
    manager, the browser, the page, the file system) is scripted by a
    [Browser] record: one field per call site of the source, indexed by what
    identifies the call (the selector, the element, the poll number).  Since
    the scripts are sequential and deterministic, every run of the real
    program corresponds to one such script.

    Python values are modelled as follows.
    - [str]: [string]; each character stands for one code point below 256,
      [len] is [String.length].
    - [None] or an object: [option].
    - an exception: the [Exc] constructor of [res]; every handler of the
      source is [except Exception] or a bare [except], so the class of the
      exception is not recorded.
    - [time.time()]: an integer number of milliseconds, the [clock] of the
      frame.  [time.sleep] advances it by the time slept, a selector wait
      by the scripted time it takes (at most its timeout), a poll by the
      scripted time its queries take, a download, a [save_as] and a
      screenshot by the scripted time they take; the other calls are
      instantaneous.
    - a run: the outcome (a value or an exception), the frame it ends in,
      and the list of the calls it made, in order.
    - [print]: not modelled (diagnostics only); [found_selectors] of
      [ask_gemini] is used for printing only and is left out with it. *)

From Stdlib Require Import ZArith List String Ascii Bool Lia Arith.
From Stdlib Require Import DecimalString DecimalNat.
Import ListNotations.

Local Open Scope string_scope.
Local Open Scope Z_scope.
Local Open Scope list_scope.

(** ** Python strings *)

Module PyStr.

(** [str.isspace] on the code points below 256. *)
Definition isspace (c : ascii) : bool :=
  let n := nat_of_ascii c in
  (((9 <=? n) && (n <=? 13)) || ((28 <=? n) && (n <=? 32))
   || (n =? 133) || (n =? 160))%nat.

Fixpoint lstrip (s : string) : string :=
  match s with
  | EmptyString => EmptyString
  | String c s' => if isspace c then lstrip s' else s
  end.

Fixpoint rstrip (s : string) : string :=
  match s with
  | EmptyString => EmptyString
  | String c s' =>
      match rstrip s' with
      | EmptyString => if isspace c then EmptyString else String c EmptyString
      | r => String c r
      end
  end.

(** [s.strip()] *)
Definition strip (s : string) : string := rstrip (lstrip s).

(** [needle in hay] *)
Fixpoint contains (needle hay : string) : bool :=
  String.prefix needle hay
  || match hay with
     | EmptyString => false
     | String _ hay' => contains needle hay'
     end.

(** truth value of a [str] *)
Definition truthy (s : string) : bool :=
  match s with EmptyString => false | _ => true end.

(** [str(n)] for a natural number *)
Definition of_nat (n : nat) : string :=
  NilEmpty.string_of_uint (Nat.to_uint n).

(** [str(n)] for an integer *)
Definition of_Z (z : Z) : string := NilZero.string_of_int (Z.to_int z).

End PyStr.

(** ** Handles, events and the effect monad *)

(** An [ElementHandle] of the automation library. *)
Definition Element := nat.

(** The objects bound to the locals [playwright] and [context]. *)
Inductive Driver := PlaywrightDriver.
Inductive Context := BrowserContext.

(** Result of a call that may raise. *)
Inductive res (A : Type) : Type :=
| Val (a : A)
| Exc (msg : string).
Arguments Val {A} a.
Arguments Exc {A} msg.

(** [output_path / name]: the directory and the file name, kept apart. *)
Record SavedPath := {
  sp_dir : string;
  sp_name : string
}.

(** One entry per call that leaves the script, logged when the call is
    made, whether it returns or raises. *)
Inductive Event :=
| AuthCheck
| PlaywrightStart
| ChromiumLaunch (headless : bool) (executable_path : option string)
| StateFileExists
| ReadStateFile
| AddCookies (n : nat)
| NewPage
| Goto (url : string) (timeout : Z)
| Sleep (ms : Z)
| WaitForSelector (selector : string) (timeout : Z)
| QuerySelector (selector : string)
| IsVisible (e : Element)
| Click (e : Element)
| TypeText (e : Element) (text : string) (delay : Z)
| Fill (e : Element) (text : string)
| Evaluate (selector text : string)
| Press (key : string)
| QuerySelectorAll (selector : string)
| InnerText (e : Element)
| GetAttribute (e : Element) (name : string)
| Mkdir (dir : string)
| ChildQuery (container : nat) (selector : string)
| DownloadClick (e : Element)
| SaveAs (path : SavedPath)
| Screenshot (e : Element) (path : SavedPath)
| ContextClose
| PlaywrightStop.

(** The mutable part of a run: the clock and the two locals that the
    [finally] block of both scripts inspects. *)
Record Frame := {
  clock : Z;
  playwright : option Driver;
  context : option Context
}.

Definition M (A : Type) : Type := Frame -> res A * Frame * list Event.

Definition ret {A} (a : A) : M A := fun f => (Val a, f, []).

Definition bind {A B} (m : M A) (k : A -> M B) : M B :=
  fun f =>
    match m f with
    | (Val a, f1, l1) =>
        match k a f1 with
        | (r, f2, l2) => (r, f2, l1 ++ l2)
        end
    | (Exc e, f1, l1) => (Exc e, f1, l1)
    end.

Declare Scope eff_scope.
Delimit Scope eff_scope with eff.
Notation "x <- m ;; k" := (bind m (fun x => k))
  (at level 61, m at next level, right associativity) : eff_scope.
Notation "m ;; k" := (bind m (fun _ => k))
  (at level 61, right associativity) : eff_scope.
Local Open Scope eff_scope.

(** [try: m  except Exception: h] *)
Definition try_except {A} (m : M A) (h : string -> M A) : M A :=
  fun f =>
    match m f with
    | (Val a, f1, l1) => (Val a, f1, l1)
    | (Exc e, f1, l1) =>
        match h e f1 with
        | (r, f2, l2) => (r, f2, l1 ++ l2)
        end
    end.

(** [try: m  finally: c].  The cleanup runs on every outcome of [m]; an
    exception of the cleanup itself replaces the outcome. *)
Definition try_finally {A} (m : M A) (c : M unit) : M A :=
  fun f =>
    match m f with
    | (r, f1, l1) =>
        match c f1 with
        | (Val _, f2, l2) => (r, f2, l1 ++ l2)
        | (Exc e, f2, l2) => (Exc e, f2, l1 ++ l2)
        end
    end.

(** A call into a collaborator: log it and hand back the scripted result. *)
Definition call {A} (ev : Event) (r : res A) : M A :=
  fun f => (r, f, [ev]).

(** [time.sleep(ms / 1000)] *)
Definition sleep (ms : Z) : M unit :=
  fun f => (Val tt,
            {| clock := clock f + ms; playwright := playwright f;
               context := context f |},
            [Sleep ms]).

(** Time that passes inside library calls, never negative. *)
Definition elapse (ms : Z) : M unit :=
  fun f => (Val tt,
            {| clock := clock f + Z.max 0 ms; playwright := playwright f;
               context := context f |},
            []).

(** [time.time()] *)
Definition time_time : M Z := fun f => (Val (clock f), f, []).

Definition set_playwright (d : option Driver) : M unit :=
  fun f => (Val tt,
            {| clock := clock f; playwright := d; context := context f |}, []).

Definition set_context (c : option Context) : M unit :=
  fun f => (Val tt,
            {| clock := clock f; playwright := playwright f; context := c |}, []).

Definition get_playwright : M (option Driver) :=
  fun f => (Val (playwright f), f, []).

Definition get_context : M (option Context) :=
  fun f => (Val (context f), f, []).

(** [if x:] for a local that is [None] or an object *)
Definition is_some {A} (x : option A) : bool :=
  match x with Some _ => true | None => false end.

(** [if cond: m] *)
Definition when (cond : bool) (m : M unit) : M unit :=
  if cond then m else ret tt.

(** Running a computation from time [t0]. *)
Definition start_frame (t0 : Z) : Frame :=
  {| clock := t0; playwright := None; context := None |}.

Definition outcome {A} (r : res A * Frame * list Event) : res A := fst (fst r).
Definition frame_of {A} (r : res A * Frame * list Event) : Frame := snd (fst r).
Definition events {A} (r : res A * Frame * list Event) : list Event := snd r.

(** ** [get_chrome_path] *)

(** What [get_chrome_path] asks of the machine it runs on. *)
Record Host := {
  (** [platform.system()] *)
  platform_system : string;
  (** [os.path.exists(path)] *)
  path_exists : string -> bool;
  (** [shutil.which(cmd)] *)
  which : string -> option string;
  (** [os.path.expandvars(path)] *)
  expandvars : string -> string
}.

Module BrowserUtils.

(** [a or b] on values that are [None] or a [str] *)
Definition py_or (a b : option string) : option string :=
  match a with
  | Some s => if PyStr.truthy s then a else b
  | None => b
  end.

(** [if x:] on a value that is [None] or a [str] *)
Definition truthy_opt (x : option string) : bool :=
  match x with
  | Some s => PyStr.truthy s
  | None => false
  end.

(** [for path in possible_paths: if os.path.exists(path): return path] *)
Fixpoint first_existing (h : Host) (possible_paths : list string)
  : option string :=
  match possible_paths with
  | [] => None
  | path :: rest =>
      if path_exists h path then Some path else first_existing h rest
  end.

Definition MAC_CHROME : string :=
  "/Applications/Google Chrome.app/Contents/MacOS/Google Chrome".

(** Lines 35-39. *)
Definition windows_paths (h : Host) : list string :=
  [ expandvars h "%ProgramFiles%\Google\Chrome\Application\chrome.exe";
    expandvars h "%ProgramFiles(x86)%\Google\Chrome\Application\chrome.exe";
    expandvars h "%LocalAppData%\Google\Chrome\Application\chrome.exe" ].

(** Lines 51-56. *)
Definition linux_paths : list string :=
  [ "/usr/bin/google-chrome";
    "/usr/bin/chrome";
    "/usr/bin/chromium";
    "/usr/bin/chromium-browser" ].

(** Line 46. *)
Definition linux_commands : list string :=
  [ "google-chrome"; "chrome"; "chromium" ].

(** [get_chrome_path()], lines 19-62. *)
Definition get_chrome_path (h : Host) : option string :=
  let system := platform_system h in
  if String.eqb system "Darwin" then
    if path_exists h MAC_CHROME then Some MAC_CHROME else None
  else if String.eqb system "Windows" then
    first_existing h (windows_paths h)
  else if String.eqb system "Linux" then
    let chrome_cmd :=
      py_or (py_or (which h "google-chrome") (which h "chrome"))
            (which h "chromium") in
    if truthy_opt chrome_cmd then chrome_cmd
    else first_existing h linux_paths
  else None.

End BrowserUtils.

(** ** The scripted collaborators *)

(** One [generated-image] element of the result page, with the outcome of
    each call the retrieval loop makes on it. *)
Record Container := {
  (** [gen_img.query_selector('button[data-test-id=...]')] *)
  download_button : res (option Element);
  (** [with page.expect_download(): download_button.click()] and
      [download_info.value]: the suffix of the suggested file name,
      [Path(download.suggested_filename).suffix] *)
  download : res string;
  (** the time that block takes, until the download has started or the
      wait for it has timed out *)
  download_elapsed : Z;
  (** [download.save_as(...)] and the time it takes *)
  save_as : res unit;
  save_as_elapsed : Z;
  (** [gen_img.query_selector('img.image')] when there is no button *)
  img_elem : res (option Element);
  (** [img_elem.screenshot(...)] when there is no button, and the time it
      takes *)
  screenshot : res unit;
  screenshot_elapsed : Z;
  (** the same two calls inside the [except] handler *)
  fallback_img_elem : res (option Element);
  fallback_screenshot : res unit;
  fallback_screenshot_elapsed : Z
}.

Record Browser := {
  (** [AuthManager().is_authenticated()] *)
  is_authenticated : bool;
  (** [config.PAGE_LOAD_TIMEOUT] *)
  PAGE_LOAD_TIMEOUT : Z;
  (** the machine [get_chrome_path()] looks at *)
  host : Host;
  (** [STATE_FILE.exists()] *)
  state_file_exists : res bool;
  (** the outcome of opening and parsing [STATE_FILE], with the length of
      its ['cookies'] entry when it has one *)
  state_file : res (option nat);
  add_cookies : res unit;
  sync_playwright_start : res unit;
  chromium_launch : res unit;
  new_page : res unit;
  goto : res unit;
  (** [page.wait_for_selector(selector, timeout=..., state="visible")] and
      the time it takes *)
  wait_for_selector : string -> res (option Element);
  wait_elapsed : string -> Z;
  (** [page.query_selector(selector)] *)
  query_selector : string -> res (option Element);
  is_visible : Element -> res bool;
  click : Element -> res unit;
  type_text : Element -> string -> res unit;
  fill : Element -> string -> res unit;
  evaluate : string -> string -> res unit;
  keyboard_press : res unit;
  (** the time the queries of poll [i] take *)
  poll_busy : nat -> Z;
  (** [page.query_selector_all(selector)] during poll [i] *)
  query_selector_all : nat -> string -> res (list Element);
  (** [element.inner_text()] during poll [i] *)
  inner_text : nat -> Element -> res string;
  (** [img.get_attribute('src')] during poll [i] *)
  get_attribute_src : nat -> Element -> res (option string);
  (** [output_path.mkdir(parents=True, exist_ok=True)] *)
  mkdir : res unit;
  (** [page.query_selector_all("generated-image")] after the polling *)
  generated_images : res (list Container);
  context_close : res unit;
  playwright_stop : res unit
}.

(** ** [browser_utils.py] *)

Module BrowserFactory.

(** [_inject_cookies(context)]: the existence test of line 108 stands
    before the [try] of line 109. *)
Definition _inject_cookies (b : Browser) : M unit :=
  present <- call StateFileExists (state_file_exists b) ;;
  if (present : bool) then
    try_except
      (state <- call ReadStateFile (state_file b) ;;
       match state with
       | Some n =>
           if (0 <? n)%nat
           then call (AddCookies n) (add_cookies b)
           else ret tt
       | None => ret tt
       end)
      (fun _ => ret tt)
  else ret tt.

(** Lines 79 and 93-94: the [executable_path] entry of the launch
    arguments, present when [get_chrome_path()] is true. *)
Definition executable_path (b : Browser) : option string :=
  let found := BrowserUtils.get_chrome_path (host b) in
  if BrowserUtils.truthy_opt found then found else None.

(** [launch_persistent_context(playwright, headless)] *)
Definition launch_persistent_context (b : Browser) (headless : bool)
  : M Context :=
  call (ChromiumLaunch headless (executable_path b)) (chromium_launch b) ;;
  _inject_cookies b ;;
  ret BrowserContext.

End BrowserFactory.

(** The [finally] block shared by both scripts. *)
Definition cleanup (b : Browser) : M unit :=
  ctx <- get_context ;;
  when (is_some ctx)
       (try_except (call ContextClose (context_close b)) (fun _ => ret tt)) ;;
  pw <- get_playwright ;;
  when (is_some pw)
       (try_except (call PlaywrightStop (playwright_stop b)) (fun _ => ret tt)).

(** [page.wait_for_selector(selector, timeout=timeout, state="visible")]:
    the call returns or raises within [timeout]. *)
Definition page_wait_for_selector (b : Browser) (selector : string)
  (timeout : Z) : M (option Element) :=
  elapse (Z.min timeout (wait_elapsed b selector)) ;;
  call (WaitForSelector selector timeout) (wait_for_selector b selector).

(** The selector loop of [ask_gemini] (lines 95-108) and of
    [generate_image] (lines 115-122): the candidates are tried in list
    order, a wait that raises or returns [None] moves on to the next one,
    and the first element obtained ends the loop. *)
Fixpoint wait_first (b : Browser) (timeout : Z) (selectors : list string)
  : M (option Element) :=
  match selectors with
  | [] => ret None
  | selector :: rest =>
      input_element <-
        try_except (page_wait_for_selector b selector timeout)
                   (fun _ => ret None) ;;
      match input_element with
      | Some e => ret (Some e)
      | None => wait_first b timeout rest
      end
  end.

(** ** [ask_gemini.py] *)

Module AskGemini.

Definition GEMINI_INPUT_SELECTORS : list string :=
  [ "rich-textarea[placeholder*='输入']";
    "rich-textarea[placeholder*='Enter']";
    "rich-textarea";
    ".ql-editor[contenteditable='true']";
    "div[contenteditable='true'][role='textbox']" ].

Definition GEMINI_RESPONSE_SELECTORS : list string :=
  [ ".model-response-text";
    ".response-container .markdown";
    "message-content";
    "[data-test-id*='conversation']";
    ".markdown";
    "[class*='response']";
    "[class*='message']";
    "div[class*='model']" ].

(** Lines 93-108. *)
Definition find_input (b : Browser) : M (option Element) :=
  wait_first b 10000 GEMINI_INPUT_SELECTORS.

(** Lines 126-134: the first selector that has a visible element now. *)
Fixpoint find_working_selector (b : Browser) (selectors : list string)
  : M (option string) :=
  match selectors with
  | [] => ret None
  | selector :: rest =>
      hit <-
        try_except
          (test_elem <- call (QuerySelector selector)
                             (query_selector b selector) ;;
           match test_elem with
           | Some e => call (IsVisible e) (is_visible b e)
           | None => ret false
           end)
          (fun _ => ret false) ;;
      if hit then ret (Some selector) else find_working_selector b rest
  end.

Inductive Delivery := Delivered | DeliveryFailed.

(** Lines 141-167: the three typing methods. *)
Definition deliver (b : Browser) (input_element : Element)
  (working_selector question : string) : M Delivery :=
  try_except
    (call (Click input_element) (click b input_element) ;;
     sleep 500 ;;
     call (TypeText input_element question 50)
          (type_text b input_element question) ;;
     ret Delivered)
    (fun _ =>
       try_except
         (call (Fill input_element question) (fill b input_element question) ;;
          ret Delivered)
         (fun _ =>
            try_except
              (call (Evaluate working_selector question)
                    (evaluate b working_selector question) ;;
               ret Delivered)
              (fun _ => ret DeliveryFailed))).

(** [stable_count] and [last_text] of the polling loop. *)
Record Stability := {
  stable_count : nat;
  last_text : option string
}.

Definition fresh : Stability := {| stable_count := 0; last_text := None |}.

(** Line 196: [text and text != question and len(text) > 10] *)
Definition accepted (question text : string) : bool :=
  PyStr.truthy text && negb (String.eqb text question)
  && (10 <? String.length text)%nat.

(** [text == last_text] *)
Definition same_as_last (text : string) (last : option string) : bool :=
  match last with
  | Some l => String.eqb text l
  | None => false
  end.

(** Lines 196-206: what one sampled text does to the counters; the second
    component is [answer] when the loop breaks. *)
Definition observe (question : string) (st : Stability) (text : string)
  : Stability * option string :=
  if accepted question text then
    if same_as_last text (last_text st) then
      let st' := {| stable_count := S (stable_count st);
                    last_text := last_text st |} in
      if (3 <=? stable_count st')%nat then (st', Some text) else (st', None)
    else ({| stable_count := 0; last_text := Some text |}, None)
  else (st, None).

(** Lines 185-210: the body of the [for] loop for one selector. *)
Definition try_selector (b : Browser) (question : string) (i : nat)
  (selector : string) (st : Stability) : M (Stability * option string) :=
  try_except
    (elements <- call (QuerySelectorAll selector)
                      (query_selector_all b i selector) ;;
     match rev elements with
     | [] => ret (st, None)
     | latest :: _ =>
         raw <- call (InnerText latest) (inner_text b i latest) ;;
         ret (observe question st (PyStr.strip raw))
     end)
    (fun _ => ret (st, None)).

(** Lines 184-210: the [for] loop, left at the first answer. *)
Fixpoint scan_selectors (b : Browser) (question : string) (i : nat)
  (selectors : list string) (st : Stability)
  : M (Stability * option string) :=
  match selectors with
  | [] => ret (st, None)
  | selector :: rest =>
      r <- try_selector b question i selector st ;;
      match snd r with
      | Some answer => ret r
      | None => scan_selectors b question i rest (fst r)
      end
  end.

(** Lines 182-215: the [while] loop.  Every turn sleeps a second, so
    [fuel] turns cover a deadline [fuel] seconds away. *)
Fixpoint poll_loop (b : Browser) (question : string) (deadline : Z)
  (fuel i : nat) (st : Stability) : M (option string) :=
  match fuel with
  | O => ret None
  | S fuel' =>
      t <- time_time ;;
      if t <? deadline then
        elapse (poll_busy b i) ;;
        r <- scan_selectors b question i GEMINI_RESPONSE_SELECTORS st ;;
        match snd r with
        | Some answer => ret (Some answer)
        | None =>
            sleep 1000 ;;
            poll_loop b question deadline fuel' (S i) (fst r)
        end
      else ret None
  end.

(** Lines 176-215. *)
Definition await_answer (b : Browser) (question : string)
  : M (option string) :=
  t <- time_time ;;
  poll_loop b question (t + 120000) 121 0 fresh.

Definition GEMINI_URL : string := "https://gemini.google.com/app".

(** Lines 77-228: what happens on the page once the session is up. *)
Definition ask_on_page (b : Browser) (question : string) (headless : bool)
  : M (option string) :=
  call NewPage (new_page b) ;;
  call (Goto GEMINI_URL (PAGE_LOAD_TIMEOUT b)) (goto b) ;;
  sleep 3000 ;;
  input_element <- find_input b ;;
  match input_element with
  | None =>
      when (negb headless) (sleep 60000) ;;
      ret None
  | Some input_element =>
      working_selector <- find_working_selector b GEMINI_INPUT_SELECTORS ;;
      match working_selector with
      | None => ret None
      | Some working_selector =>
          d <- deliver b input_element working_selector question ;;
          match d with
          | DeliveryFailed => ret None
          | Delivered =>
              call (Press "Enter") (keyboard_press b) ;;
              answer <- await_answer b question ;;
              match answer with
              | None =>
                  when (negb headless) (sleep 30000) ;;
                  ret None
              | Some a => ret (Some a)
              end
          end
      end
  end.

(** Lines 68-228: the body of the [try]. *)
Definition ask_body (b : Browser) (question : string) (headless : bool)
  : M (option string) :=
  call PlaywrightStart (sync_playwright_start b) ;;
  set_playwright (Some PlaywrightDriver) ;;
  ctx <- BrowserFactory.launch_persistent_context b headless ;;
  set_context (Some ctx) ;;
  ask_on_page b question headless.

(** [ask_gemini(question, headless)] *)
Definition ask_gemini (b : Browser) (question : string) (headless : bool)
  : M (option string) :=
  authenticated <- call AuthCheck (Val (is_authenticated b)) ;;
  if negb authenticated then ret None
  else
    set_playwright None ;;
    set_context None ;;
    try_finally
      (try_except
         (ask_body b question headless)
         (fun _ => when (negb headless) (sleep 30000) ;; ret None))
      (cleanup b).

(** [main()] for [--question question] and the flag [--show-browser];
    the value is the exit code handed to [sys.exit]. *)
Definition main (b : Browser) (question : string) (show_browser : bool)
  : M Z :=
  answer <- ask_gemini b question (negb show_browser) ;;
  match answer with
  | Some a => if PyStr.truthy a then ret 0 else ret 1
  | None => ret 1
  end.

End AskGemini.

(** ** [generate_image.py] *)

Module GenerateImage.

(** The double quote inside a selector. *)
Definition dq : string := String (ascii_of_nat 34) EmptyString.

Definition IMAGE_BUTTON_SELECTORS : list string :=
  [ "button[aria-label*='Image']";
    "button[aria-label*='image']";
    "[data-test-id*='image']";
    "button:has-text('Image')" ].

Definition IMAGE_RESULT_SELECTORS : list string :=
  [ "generated-image img.image";
    "single-image img[src*='googleusercontent.com']";
    "generated-image img" ].

Definition input_selectors : list string :=
  [ "rich-textarea"; "textarea"; "div[contenteditable='true']" ].

(** Line 143. *)
Definition actual_input_selectors : list string :=
  [ "rich-textarea textarea";
    ("rich-textarea [contenteditable=" ++ dq ++ "true" ++ dq ++ "]")%string;
    "textarea";
    ("[contenteditable=" ++ dq ++ "true" ++ dq ++ "]")%string ].

Definition DOWNLOAD_BUTTON : string :=
  ("button[data-test-id=" ++ dq ++ "download-generated-image-button"
     ++ dq ++ "]")%string.

Definition GEMINI_URL : string := "https://gemini.google.com/app".

(** Lines 86-100: look for the image button and click it. *)
Fixpoint click_image_button (b : Browser) (selectors : list string)
  : M bool :=
  match selectors with
  | [] => ret false
  | selector :: rest =>
      image_button_found <-
        try_except
          (button <- page_wait_for_selector b selector 5000 ;;
           match button with
           | Some e =>
               call (Click e) (click b e) ;;
               sleep 1000 ;;
               ret true
           | None => ret false
           end)
          (fun _ => ret false) ;;
      if image_button_found then ret true
      else click_image_button b rest
  end.

(** Lines 140-150: the element that really takes the text. *)
Fixpoint find_actual_input (b : Browser) (selectors : list string)
  : M (option Element) :=
  match selectors with
  | [] => ret None
  | selector :: rest =>
      actual_input <-
        try_except (call (QuerySelector selector) (query_selector b selector))
                   (fun _ => ret None) ;;
      match actual_input with
      | Some e => ret (Some e)
      | None => find_actual_input b rest
      end
  end.

(** Lines 132-172: [false] stands for the [return None] of the handler. *)
Definition type_prompt (b : Browser) (input_element : Element)
  (prompt : string) (debug : bool) : M bool :=
  try_except
    (call (Click input_element) (click b input_element) ;;
     sleep 500 ;;
     (if (100 <? String.length prompt)%nat then
        actual_input <- find_actual_input b actual_input_selectors ;;
        match actual_input with
        | Some a =>
            call (Fill a prompt) (fill b a prompt) ;;
            if debug then sleep 10000 else sleep 1000
        | None =>
            call (TypeText input_element prompt 10)
                 (type_text b input_element prompt)
        end
      else
        call (TypeText input_element prompt 20)
             (type_text b input_element prompt)) ;;
     ret true)
    (fun _ => ret false).

(** [stable_count] and [last_image_count] of the image polling loop. *)
Record Stability := {
  stable_count : nat;
  last_image_count : nat
}.

Definition fresh : Stability :=
  {| stable_count := 0; last_image_count := 0 |}.

(** Line 217: [src and 'googleusercontent.com' in src] *)
Definition is_loaded (src : option string) : bool :=
  match src with
  | Some s => PyStr.truthy s && PyStr.contains "googleusercontent.com" s
  | None => false
  end.

(** Lines 213-218: the images that carry a source on the expected host. *)
Fixpoint loaded_of (b : Browser) (attempt : nat) (imgs : list Element)
  : M (list Element) :=
  match imgs with
  | [] => ret []
  | img :: rest =>
      src <- call (GetAttribute img "src") (get_attribute_src b attempt img) ;;
      loaded <- loaded_of b attempt rest ;;
      ret (if is_loaded src then img :: loaded else loaded)
  end.

(** Lines 220-231: the second component is [images_found]. *)
Definition observe (st : Stability) (loaded_images : list Element)
  : Stability * list Element :=
  let loaded_count := List.length loaded_images in
  if (loaded_count =? last_image_count st)%nat && (0 <? loaded_count)%nat
  then
    let st' := {| stable_count := S (stable_count st);
                  last_image_count := last_image_count st |} in
    if (3 <=? stable_count st')%nat then (st', loaded_images) else (st', [])
  else ({| stable_count := 0; last_image_count := loaded_count |}, []).

(** Lines 207-235: the body of the inner [for] loop. *)
Definition try_selector (b : Browser) (attempt : nat) (selector : string)
  (st : Stability) : M (Stability * list Element) :=
  try_except
    (img_elements <- call (QuerySelectorAll selector)
                          (query_selector_all b attempt selector) ;;
     match img_elements with
     | [] => ret (st, [])
     | _ :: _ =>
         loaded_images <- loaded_of b attempt img_elements ;;
         match loaded_images with
         | [] => ret (st, [])
         | _ :: _ => ret (observe st loaded_images)
         end
     end)
    (fun _ => ret (st, [])).

Fixpoint scan_selectors (b : Browser) (attempt : nat)
  (selectors : list string) (st : Stability)
  : M (Stability * list Element) :=
  match selectors with
  | [] => ret (st, [])
  | selector :: rest =>
      r <- try_selector b attempt selector st ;;
      match snd r with
      | _ :: _ => ret r
      | [] => scan_selectors b attempt rest (fst r)
      end
  end.

(** Lines 205-240: [for attempt in range(30)], [remaining] turns left. *)
Fixpoint poll_images (b : Browser) (remaining attempt : nat)
  (st : Stability) : M (list Element) :=
  match remaining with
  | O => ret []
  | S remaining' =>
      r <- scan_selectors b attempt IMAGE_RESULT_SELECTORS st ;;
      match snd r with
      | _ :: _ => ret (snd r)
      | [] =>
          sleep 1000 ;;
          poll_images b remaining' (S attempt) (fst r)
      end
  end.

(** [f"gemini_image_{i+1}_{int(time.time())}{ext}"] under [output_dir] *)
Definition image_path (output_dir : string) (i : nat) (t : Z)
  (ext : string) : SavedPath :=
  {| sp_dir := output_dir;
     sp_name := ("gemini_image_" ++ PyStr.of_nat (i + 1) ++ "_"
                   ++ PyStr.of_Z (t / 1000) ++ ext)%string |}.

(** Lines 263-312: one turn of the retrieval loop, from the list of
    paths saved so far to the list after the turn. *)
Definition retrieve_one (b : Browser) (output_dir : string) (i : nat)
  (gen_img : Container) (saved_paths : list SavedPath)
  : M (list SavedPath) :=
  try_except
    (btn <- call (ChildQuery i DOWNLOAD_BUTTON) (download_button gen_img) ;;
     match btn with
     | None =>
         img <- call (ChildQuery i "img.image") (img_elem gen_img) ;;
         match img with
         | Some e =>
             t <- time_time ;;
             let screenshot_path := image_path output_dir i t ".png" in
             elapse (screenshot_elapsed gen_img) ;;
             call (Screenshot e screenshot_path) (screenshot gen_img) ;;
             ret (saved_paths ++ [screenshot_path])
         | None => ret saved_paths
         end
     | Some button =>
         elapse (download_elapsed gen_img) ;;
         suffix <- call (DownloadClick button) (download gen_img) ;;
         let file_ext := if PyStr.truthy suffix then suffix else ".png" in
         t <- time_time ;;
         let filename := image_path output_dir i t file_ext in
         elapse (save_as_elapsed gen_img) ;;
         call (SaveAs filename) (save_as gen_img) ;;
         ret (saved_paths ++ [filename])
     end)
    (fun _ =>
       try_except
         (img <- call (ChildQuery i "img.image")
                      (fallback_img_elem gen_img) ;;
          match img with
          | Some e =>
              t <- time_time ;;
              let screenshot_path := image_path output_dir i t ".png" in
              elapse (fallback_screenshot_elapsed gen_img) ;;
              call (Screenshot e screenshot_path)
                   (fallback_screenshot gen_img) ;;
              ret (saved_paths ++ [screenshot_path])
          | None => ret saved_paths
          end)
         (fun _ => ret saved_paths)).

(** Lines 262-312: [for i, gen_img in enumerate(generated_images)]. *)
Fixpoint retrieve (b : Browser) (output_dir : string) (i : nat)
  (containers : list Container) (saved_paths : list SavedPath)
  : M (list SavedPath) :=
  match containers with
  | [] => ret saved_paths
  | gen_img :: rest =>
      saved_paths' <- retrieve_one b output_dir i gen_img saved_paths ;;
      retrieve b output_dir (S i) rest saved_paths'
  end.

(** Lines 253-319: download what was found. *)
Definition download_images (b : Browser) (output_dir : string)
  : M (option (list SavedPath)) :=
  call (Mkdir output_dir) (mkdir b) ;;
  containers <- call (QuerySelectorAll "generated-image")
                     (generated_images b) ;;
  saved_paths <- retrieve b output_dir 0 containers [] ;;
  match saved_paths with
  | [] => ret None
  | _ :: _ => ret (Some saved_paths)
  end.

(** Lines 75-319: what happens on the page once the session is up. *)
Definition generate_on_page (b : Browser) (prompt output_dir : string)
  (headless debug : bool) : M (option (list SavedPath)) :=
  call NewPage (new_page b) ;;
  call (Goto GEMINI_URL (PAGE_LOAD_TIMEOUT b)) (goto b) ;;
  sleep 5000 ;;
  click_image_button b IMAGE_BUTTON_SELECTORS ;;
  input_element <- wait_first b 10000 input_selectors ;;
  match input_element with
  | None => ret None
  | Some input_element =>
      typed <- type_prompt b input_element prompt debug ;;
      if negb typed then ret None
      else
        call (Press "Enter") (keyboard_press b) ;;
        appeared <-
          try_except
            (page_wait_for_selector b "generated-image" 300000 ;;
             sleep 2000 ;;
             ret true)
            (fun _ => when (negb headless) (sleep 60000) ;; ret false) ;;
        if negb appeared then ret None
        else
          sleep 5000 ;;
          images_found <- poll_images b 30 0 fresh ;;
          match images_found with
          | [] =>
              when (negb headless) (sleep 60000) ;;
              ret None
          | _ :: _ => download_images b output_dir
          end
  end.

(** Lines 65-319: the body of the [try]. *)
Definition generate_body (b : Browser) (prompt output_dir : string)
  (headless debug : bool) : M (option (list SavedPath)) :=
  call PlaywrightStart (sync_playwright_start b) ;;
  set_playwright (Some PlaywrightDriver) ;;
  ctx <- BrowserFactory.launch_persistent_context b headless ;;
  set_context (Some ctx) ;;
  generate_on_page b prompt output_dir headless debug.

(** [generate_image(prompt, output_dir, headless, debug)] *)
Definition generate_image (b : Browser) (prompt output_dir : string)
  (headless debug : bool) : M (option (list SavedPath)) :=
  authenticated <- call AuthCheck (Val (is_authenticated b)) ;;
  if negb authenticated then ret None
  else
    set_playwright None ;;
    set_context None ;;
    try_finally
      (try_except
         (generate_body b prompt output_dir headless debug)
         (fun _ => when (negb headless) (sleep 30000) ;; ret None))
      (cleanup b).

(** [main()] for [--prompt], [--output], [--headless] and [--debug]. *)
Definition main (b : Browser) (prompt output : string)
  (headless debug : bool) : M Z :=
  saved_paths <- generate_image b prompt output headless debug ;;
  match saved_paths with
  | Some (_ :: _) => ret 0
  | _ => ret 1
  end.

End GenerateImage.

(** ** Reading a script and a run *)

Definition is_val {A} (r : res A) : bool :=
  match r with Val _ => true | Exc _ => false end.

(** The calls that create or release the session. *)
Definition session_event (e : Event) : bool :=
  match e with
  | PlaywrightStart | ChromiumLaunch _ _ | ContextClose | PlaywrightStop => true
  | _ => false
  end.

(** The session calls a run starts with, read off the script. *)
Definition opening (b : Browser) (headless : bool) : list Event :=
  if is_authenticated b then
    PlaywrightStart ::
      (if is_val (sync_playwright_start b)
       then [ChromiumLaunch headless (BrowserFactory.executable_path b)]
       else [])
  else [].

(** The session calls a run has to end with: whatever was brought up is
    taken down, the context before the driver. *)
Definition closing (b : Browser) : list Event :=
  if is_authenticated b && is_val (sync_playwright_start b) then
    (if is_val (chromium_launch b) then [ContextClose] else [])
      ++ [PlaywrightStop]
  else [].

(** A run that returns a value, brings the session up at most once, at its
    start, and ends by releasing what it brought up. *)
Definition released {A} (b : Browser) (headless : bool)
  (r : res A * Frame * list Event) : Prop :=
  (exists v, outcome r = Val v) /\
  exists mid,
    Forall (fun e => session_event e = false) mid /\
    events r = AuthCheck :: opening b headless ++ mid ++ closing b.

(** The session calls a run does end with: the context is closed when
    [launch_persistent_context] returned it, that is when the launch and
    the existence test of the state file both returned. *)
Definition ending (b : Browser) : list Event :=
  if is_authenticated b && is_val (sync_playwright_start b) then
    (if is_val (chromium_launch b) && is_val (state_file_exists b)
     then [ContextClose] else [])
      ++ [PlaywrightStop]
  else [].

(** A run that returns a value, brings the session up at most once, at its
    start, and ends with the session calls of [ending]. *)
Definition wound_down {A} (b : Browser) (headless : bool)
  (r : res A * Frame * list Event) : Prop :=
  (exists v, outcome r = Val v) /\
  exists mid,
    Forall (fun e => session_event e = false) mid /\
    events r = AuthCheck :: opening b headless ++ mid ++ ending b.

(** The lengths of the sleeps of a run, in order. *)
Definition sleeps (l : list Event) : list Z :=
  flat_map (fun e => match e with Sleep ms => [ms] | _ => [] end) l.

(** The element a selector wait hands back, if it hands one back. *)
Definition wait_hit (b : Browser) (selector : string) : option Element :=
  match wait_for_selector b selector with
  | Val (Some e) => Some e
  | _ => None
  end.

(** A button candidate counts when its wait hands back an element and the
    click on it returns. *)
Definition button_hit (b : Browser) (selector : string) : bool :=
  match wait_hit b selector with
  | Some e => is_val (click b e)
  | None => false
  end.

(** The element a plain query hands back, if any. *)
Definition query_hit (b : Browser) (selector : string) : option Element :=
  match query_selector b selector with
  | Val (Some e) => Some e
  | _ => None
  end.

(** The first element found by a list of plain queries. *)
Fixpoint first_found (b : Browser) (selectors : list string)
  : option Element :=
  match selectors with
  | [] => None
  | s :: rest =>
      match query_hit b s with
      | Some e => Some e
      | None => first_found b rest
      end
  end.

(** The selectors a list of plain queries gets to try: up to the first
    one that finds an element. *)
Fixpoint queried (b : Browser) (selectors : list string) : list string :=
  match selectors with
  | [] => []
  | s :: rest =>
      s :: match query_hit b s with
           | Some _ => []
           | None => queried b rest
           end
  end.

(** The text a response selector shows at poll [i]: the stripped inner
    text of the last element it matches. *)
Definition sample_of (b : Browser) (i : nat) (selector : string)
  : option string :=
  match query_selector_all b i selector with
  | Val elements =>
      match rev elements with
      | latest :: _ =>
          match inner_text b i latest with
          | Val raw => Some (PyStr.strip raw)
          | Exc _ => None
          end
      | [] => None
      end
  | Exc _ => None
  end.

(** What a poll makes of the texts its selectors show, in selector
    order, without the calls: the loop is left at the first answer. *)
Fixpoint scan_samples (question : string) (samples : list (option string))
  (st : AskGemini.Stability) : AskGemini.Stability * option string :=
  match samples with
  | [] => (st, None)
  | sample :: rest =>
      let r := match sample with
               | Some t => AskGemini.observe question st t
               | None => (st, None)
               end in
      match snd r with
      | Some _ => r
      | None => scan_samples question rest (fst r)
      end
  end.

Definition PRIMARY : string := ".model-response-text".

(** Only the first response selector ever shows a text. *)
Definition sole_source (b : Browser) : Prop :=
  forall i s, In s (tl AskGemini.GEMINI_RESPONSE_SELECTORS) ->
              sample_of b i s = None.

(** The accepted samples of the polls before poll [k], newest first. *)
Fixpoint accepted_before (b : Browser) (question : string) (k : nat)
  : list string :=
  match k with
  | O => []
  | S j =>
      match sample_of b j PRIMARY with
      | Some t =>
          if AskGemini.accepted question t
          then t :: accepted_before b question j
          else accepted_before b question j
      | None => accepted_before b question j
      end
  end.

(** How many of the samples at the head of [older] are the text [t]. *)
Fixpoint run_of (t : string) (older : list string) : nat :=
  match older with
  | x :: rest => if String.eqb t x then S (run_of t rest) else O
  | [] => O
  end.

(** The newest sample repeats the three before it: the four newest
    samples are the same text. *)
Definition four_same (newest_first : list string) : bool :=
  match newest_first with
  | t :: older => (3 <=? run_of t older)%nat
  | [] => false
  end.

(** The counters of the polling loop follow the accepted samples: the
    last text is the newest sample and the count is the number of times
    it repeats the samples before it, which is below three. *)
Definition tracks (newest_first : list string) (st : AskGemini.Stability)
  : Prop :=
  four_same newest_first = false
  /\ match newest_first with
     | [] => st = AskGemini.fresh
     | t :: older =>
         AskGemini.last_text st = Some t
         /\ AskGemini.stable_count st = run_of t older
     end.

(** The frame [f] with the clock set to [c]. *)
Definition at_clock (f : Frame) (c : Z) : Frame :=
  {| clock := c; playwright := playwright f; context := context f |}.

(** Time from the start of the polling to the deadline test of poll [k]:
    every earlier poll took its queries and a sleep of one second. *)
Fixpoint poll_start (b : Browser) (k : nat) : Z :=
  match k with
  | O => 0
  | S j => poll_start b j + Z.max 0 (poll_busy b j) + 1000
  end.

(** What the handler of a container contributes when it starts at time
    [t], and the time it takes. *)
Definition fallback_of (output_dir : string) (i : nat) (t : Z)
  (c : Container) : list SavedPath :=
  match fallback_img_elem c with
  | Val (Some _) =>
      if is_val (fallback_screenshot c)
      then [GenerateImage.image_path output_dir i t ".png"] else []
  | _ => []
  end.

Definition fallback_time (c : Container) : Z :=
  match fallback_img_elem c with
  | Val (Some _) => Z.max 0 (fallback_screenshot_elapsed c)
  | _ => 0
  end.

(** What one container contributes to the saved paths when the retrieval
    reaches it at time [t] as item [i]: the stamp of a downloaded file is
    read after the download, the stamp of a screenshot before it is
    taken. *)
Definition artifact_of (output_dir : string) (i : nat) (t : Z)
  (c : Container) : list SavedPath :=
  match download_button c with
  | Val (Some _) =>
      let t1 := t + Z.max 0 (download_elapsed c) in
      match download c with
      | Val suffix =>
          if is_val (save_as c)
          then [GenerateImage.image_path output_dir i t1
                  (if PyStr.truthy suffix then suffix else ".png")]
          else fallback_of output_dir i (t1 + Z.max 0 (save_as_elapsed c)) c
      | Exc _ => fallback_of output_dir i t1 c
      end
  | Val None =>
      match img_elem c with
      | Val (Some _) =>
          if is_val (screenshot c)
          then [GenerateImage.image_path output_dir i t ".png"]
          else fallback_of output_dir i (t + Z.max 0 (screenshot_elapsed c)) c
      | Val None => []
      | Exc _ => fallback_of output_dir i t c
      end
  | Exc _ => fallback_of output_dir i t c
  end.

(** The time the retrieval spends on one container. *)
Definition time_on (c : Container) : Z :=
  match download_button c with
  | Val (Some _) =>
      Z.max 0 (download_elapsed c)
      + match download c with
        | Val _ =>
            Z.max 0 (save_as_elapsed c)
            + (if is_val (save_as c) then 0 else fallback_time c)
        | Exc _ => fallback_time c
        end
  | Val None =>
      match img_elem c with
      | Val (Some _) =>
          Z.max 0 (screenshot_elapsed c)
          + (if is_val (screenshot c) then 0 else fallback_time c)
      | Val None => 0
      | Exc _ => fallback_time c
      end
  | Exc _ => fallback_time c
  end.

(** The time the retrieval spends on a list of containers. *)
Definition time_on_all (cs : list Container) : Z :=
  fold_right (fun c total => time_on c + total) 0 cs.

(** The contributions of a list of containers, the first being item [i]
    and reached at time [t]. *)
Fixpoint artifacts_of (output_dir : string) (i : nat) (t : Z)
  (cs : list Container) : list SavedPath :=
  match cs with
  | [] => []
  | c :: rest =>
      artifact_of output_dir i t c
        ++ artifacts_of output_dir (S i) (t + time_on c) rest
  end.

(** A file was written under the path [p]: a [save_as] or a screenshot
    was called with it. *)
Definition written (p : SavedPath) (l : list Event) : Prop :=
  In (SaveAs p) l \/ exists e, In (Screenshot e p) l.

(** The frame after a selector wait: only the clock moved, by at most the
    timeout. *)
Definition after_wait (b : Browser) (timeout : Z) (s : string) (f : Frame)
  : Frame :=
  {| clock := clock f + Z.max 0 (Z.min timeout (wait_elapsed b s));
     playwright := playwright f;
     context := context f |}.

(** A computation that makes no session call and leaves the locals
    [playwright] and [context] as they are. *)
Definition quiet {A} (m : M A) : Prop :=
  forall f,
    Forall (fun e => session_event e = false) (events (m f))
    /\ playwright (frame_of (m f)) = playwright f
    /\ context (frame_of (m f)) = context f.

(** ** Scripts used as examples *)

(** A machine on which [get_chrome_path] finds nothing, so that the
    bundled Chromium is used. *)
Definition plain_host : Host :=
  {| platform_system := "Linux";
     path_exists := fun _ => false;
     which := fun _ => None;
     expandvars := fun s => s |}.

(** A page on which everything before the polling works: the third input
    selector finds element 7. *)
Definition page_with (responses : nat -> string -> res (list Element))
  (texts : nat -> Element -> res string) : Browser :=
  {| is_authenticated := true;
     PAGE_LOAD_TIMEOUT := 30000;
     host := plain_host;
     state_file_exists := Val false;
     state_file := Exc "No such file or directory";
     add_cookies := Val tt;
     sync_playwright_start := Val tt;
     chromium_launch := Val tt;
     new_page := Val tt;
     goto := Val tt;
     wait_for_selector := fun s =>
       if String.eqb s "rich-textarea" then Val (Some 7%nat)
       else Exc "Timeout 10000ms exceeded";
     wait_elapsed := fun s =>
       if String.eqb s "rich-textarea" then 200 else 10000;
     query_selector := fun s =>
       if String.eqb s "rich-textarea" then Val (Some 7%nat) else Val None;
     is_visible := fun _ => Val true;
     click := fun _ => Val tt;
     type_text := fun _ _ => Val tt;
     fill := fun _ _ => Val tt;
     evaluate := fun _ _ => Val tt;
     keyboard_press := Val tt;
     poll_busy := fun _ => 0;
     query_selector_all := responses;
     inner_text := texts;
     get_attribute_src := fun _ _ => Val None;
     mkdir := Val tt;
     generated_images := Val [];
     context_close := Val tt;
     playwright_stop := Val tt |}.

(** Only the first response selector matches: two elements, 1 and 2. *)
Definition primary_only : nat -> string -> res (list Element) :=
  fun _ s => if String.eqb s PRIMARY then Val [1%nat; 2%nat] else Val [].

(** The newest response element shows [raw] at every poll. *)
Definition steady_page (raw : string) : Browser :=
  page_with primary_only
            (fun _ e => Val (if Nat.eqb e 2 then raw else "earlier turn")).

(** The newest response element shows the texts of [samples] poll after
    poll and [final] from then on. *)
Definition streaming_page (samples : list string) (final : string) : Browser :=
  page_with primary_only
            (fun i e => Val (if Nat.eqb e 2 then nth i samples final
                             else "earlier turn")).

(** The newest response element shows the same text at the first three
    polls and a longer text at every poll after them. *)
Definition restless_page : Browser :=
  page_with primary_only
            (fun i e =>
               Val (if Nat.eqb e 2 then
                      if (i <? 3)%nat then "Hello, world!"
                      else ("Hello, world! And then " ++ PyStr.of_nat i)%string
                    else "earlier turn")).

(** Every response selector matches the same element, whose text changes
    from poll to poll. *)
Definition echoing_page : Browser :=
  page_with (fun _ _ => Val [2%nat])
            (fun i _ => Val ("partial answer, poll " ++ PyStr.of_nat i)%string).

(** A container whose download button works and suggests a file name
    with the given suffix. *)
Definition downloadable (button : Element) (suffix : string) : Container :=
  {| download_button := Val (Some button);
     download := Val suffix;
     download_elapsed := 1200;
     save_as := Val tt;
     save_as_elapsed := 300;
     img_elem := Val (Some (button + 100)%nat);
     screenshot := Val tt;
     screenshot_elapsed := 400;
     fallback_img_elem := Val (Some (button + 100)%nat);
     fallback_screenshot := Val tt;
     fallback_screenshot_elapsed := 400 |}.

(** A container whose download never starts: the wait for it times out
    after 30 seconds. *)
Definition stuck_download (button : Element) : Container :=
  {| download_button := Val (Some button);
     download := Exc "Timeout 30000ms exceeded while waiting for download";
     download_elapsed := 30000;
     save_as := Val tt;
     save_as_elapsed := 300;
     img_elem := Val (Some (button + 100)%nat);
     screenshot := Val tt;
     screenshot_elapsed := 400;
     fallback_img_elem := Val (Some (button + 100)%nat);
     fallback_screenshot := Val tt;
     fallback_screenshot_elapsed := 400 |}.

(** A result page with the given containers. *)
Definition gallery_page (containers : list Container) : Browser :=
  {| is_authenticated := true;
     PAGE_LOAD_TIMEOUT := 30000;
     host := plain_host;
     state_file_exists := Val false;
     state_file := Exc "No such file or directory";
     add_cookies := Val tt;
     sync_playwright_start := Val tt;
     chromium_launch := Val tt;
     new_page := Val tt;
     goto := Val tt;
     wait_for_selector := fun s =>
       if String.eqb s "rich-textarea" || String.eqb s "generated-image"
       then Val (Some 7%nat)
       else Exc "Timeout exceeded";
     wait_elapsed := fun s =>
       if String.eqb s "rich-textarea" then 200 else 5000;
     query_selector := fun s =>
       if String.eqb s "textarea" then Val (Some 8%nat) else Val None;
     is_visible := fun _ => Val true;
     click := fun _ => Val tt;
     type_text := fun _ _ => Val tt;
     fill := fun _ _ => Val tt;
     evaluate := fun _ _ => Val tt;
     keyboard_press := Val tt;
     poll_busy := fun _ => 0;
     query_selector_all := fun _ s =>
       if String.eqb s "generated-image img.image"
       then Val (map (fun n => (n + 20)%nat) (seq 0 (List.length containers)))
       else Val [];
     inner_text := fun _ _ => Val "";
     get_attribute_src := fun _ _ =>
       Val (Some "https://lh3.googleusercontent.com/gg/generated");
     mkdir := Val tt;
     generated_images := Val containers;
     context_close := Val tt;
     playwright_stop := Val tt |}.

(** A prompt of 132 characters. *)
Definition long_prompt : string :=
  "A watercolour painting of a lighthouse on a rocky shore at dawn, with seagulls above the waves and a small red boat near the horizon".

(** The same page with nobody signed in. *)
Definition signed_out (b : Browser) : Browser :=
  {| is_authenticated := false;
     PAGE_LOAD_TIMEOUT := PAGE_LOAD_TIMEOUT b;
     host := host b;
     state_file_exists := state_file_exists b;
     state_file := state_file b;
     add_cookies := add_cookies b;
     sync_playwright_start := sync_playwright_start b;
     chromium_launch := chromium_launch b;
     new_page := new_page b;
     goto := goto b;
     wait_for_selector := wait_for_selector b;
     wait_elapsed := wait_elapsed b;
     query_selector := query_selector b;
     is_visible := is_visible b;
     click := click b;
     type_text := type_text b;
     fill := fill b;
     evaluate := evaluate b;
     keyboard_press := keyboard_press b;
     poll_busy := poll_busy b;
     query_selector_all := query_selector_all b;
     inner_text := inner_text b;
     get_attribute_src := get_attribute_src b;
     mkdir := mkdir b;
     generated_images := generated_images b;
     context_close := context_close b;
     playwright_stop := playwright_stop b |}.

(** The same page with another outcome of [STATE_FILE.exists()]. *)
Definition with_state_file_test (b : Browser) (test : res bool) : Browser :=
  {| is_authenticated := is_authenticated b;
     PAGE_LOAD_TIMEOUT := PAGE_LOAD_TIMEOUT b;
     host := host b;
     state_file_exists := test;
     state_file := state_file b;
     add_cookies := add_cookies b;
     sync_playwright_start := sync_playwright_start b;
     chromium_launch := chromium_launch b;
     new_page := new_page b;
     goto := goto b;
     wait_for_selector := wait_for_selector b;
     wait_elapsed := wait_elapsed b;
     query_selector := query_selector b;
     is_visible := is_visible b;
     click := click b;
     type_text := type_text b;
     fill := fill b;
     evaluate := evaluate b;
     keyboard_press := keyboard_press b;
     poll_busy := poll_busy b;
     query_selector_all := query_selector_all b;
     inner_text := inner_text b;
     get_attribute_src := get_attribute_src b;
     mkdir := mkdir b;
     generated_images := generated_images b;
     context_close := context_close b;
     playwright_stop := playwright_stop b |}.

(** A page that would answer, on a machine where the directory of the
    state file cannot be searched: [Path.exists] raises a
    [PermissionError]. *)
Definition locked_state_page : Browser :=
  with_state_file_test (steady_page "The answer is 4.")
    (Exc "[Errno 13] Permission denied").


(** ** Reading more of a run *)

(** A computation that makes no call of the kind [P]. *)
Definition avoids {A} (P : Event -> bool) (m : M A) : Prop :=
  forall f, Forall (fun e => P e = false) (events (m f)).

(** The key presses of a run. *)
Definition is_press (e : Event) : bool :=
  match e with Press _ => true | _ => false end.

Definition presses (l : list Event) : nat := List.length (filter is_press l).

(** The calls that put text into the page or submit it. *)
Definition typing (e : Event) : bool :=
  match e with
  | TypeText _ _ _ | Fill _ _ | Evaluate _ _ | Press _ => true
  | _ => false
  end.

(** The calls that act on the page. *)
Definition interaction (e : Event) : bool :=
  match e with
  | Click _ => true
  | _ => typing e
  end.

(** The calls of a poll: reading the page and sleeping a second. *)
Definition observation (e : Event) : bool :=
  match e with
  | QuerySelectorAll _ | InnerText _ => true
  | Sleep ms => ms =? 1000
  | _ => false
  end.

(** A selector that has a visible element right now, lines 129-130. *)
Definition visible_now (b : Browser) (selector : string) : bool :=
  match query_selector b selector with
  | Val (Some e) =>
      match is_visible b e with
      | Val v => v
      | Exc _ => false
      end
  | _ => false
  end.

(** A machine of the kind the scripts run on: Linux, Chrome on the path. *)
Definition linux_host : Host :=
  {| platform_system := "Linux";
     path_exists := fun p => String.eqb p "/usr/bin/chromium-browser";
     which := fun cmd =>
       if String.eqb cmd "chrome" then Some "/opt/google/chrome/chrome"
       else None;
     expandvars := fun p => p |}.

(** A page whose state file holds three cookies that the context
    refuses. *)
Definition stale_cookies_page : Browser :=
  {| is_authenticated := true;
     PAGE_LOAD_TIMEOUT := 30000;
     host := linux_host;
     state_file_exists := Val true;
     state_file := Val (Some 3%nat);
     add_cookies := Exc "Invalid cookie fields";
     sync_playwright_start := Val tt;
     chromium_launch := Val tt;
     new_page := Val tt;
     goto := Val tt;
     wait_for_selector := fun s =>
       if String.eqb s "rich-textarea" then Val (Some 7%nat)
       else Exc "Timeout 10000ms exceeded";
     wait_elapsed := fun _ => 10000;
     query_selector := fun s =>
       if String.eqb s "rich-textarea" then Exc "Execution context was destroyed"
       else if String.eqb s ".ql-editor[contenteditable='true']"
            then Val (Some 9%nat)
            else Val None;
     is_visible := fun e => Val (Nat.eqb e 9);
     click := fun _ => Exc "Element is not attached to the DOM";
     type_text := fun _ _ => Val tt;
     fill := fun _ _ => Exc "Element is not an <input>";
     evaluate := fun _ _ => Exc "evaluate() takes from 2 to 3 positional arguments";
     keyboard_press := Val tt;
     poll_busy := fun _ => 250;
     query_selector_all := fun _ _ => Val [];
     inner_text := fun _ _ => Val EmptyString;
     get_attribute_src := fun _ _ => Val None;
     mkdir := Val tt;
     generated_images := Val [];
     context_close := Val tt;
     playwright_stop := Val tt |}.

(** The calls [find_working_selector] makes for one candidate: the query,
    and the visibility test when the query found an element. *)
Definition probe_events (b : Browser) (selector : string) : list Event :=
  QuerySelector selector
    :: match query_selector b selector with
       | Val (Some e) => [IsVisible e]
       | _ => []
       end.

(** The calls around the page work: the check, the session, the cookies
    and the pauses. *)
Definition setup_event (e : Event) : bool :=
  match e with
  | AuthCheck | PlaywrightStart | ChromiumLaunch _ _ | StateFileExists
  | ReadStateFile | AddCookies _ | ContextClose | PlaywrightStop
  | Sleep _ => true
  | _ => false
  end.

(** The page [b] with other answers to the selector waits. *)
Definition with_waits (b : Browser)
  (waits : string -> res (option Element)) : Browser :=
  {| is_authenticated := is_authenticated b;
     PAGE_LOAD_TIMEOUT := PAGE_LOAD_TIMEOUT b;
     host := host b;
     state_file_exists := state_file_exists b;
     state_file := state_file b;
     add_cookies := add_cookies b;
     sync_playwright_start := sync_playwright_start b;
     chromium_launch := chromium_launch b;
     new_page := new_page b;
     goto := goto b;
     wait_for_selector := waits;
     wait_elapsed := wait_elapsed b;
     query_selector := query_selector b;
     is_visible := is_visible b;
     click := click b;
     type_text := type_text b;
     fill := fill b;
     evaluate := evaluate b;
     keyboard_press := keyboard_press b;
     poll_busy := poll_busy b;
     query_selector_all := query_selector_all b;
     inner_text := inner_text b;
     get_attribute_src := get_attribute_src b;
     mkdir := mkdir b;
     generated_images := generated_images b;
     context_close := context_close b;
     playwright_stop := playwright_stop b |}.

(** A page that shows a sign-in form: no selector wait ever succeeds. *)
Definition sign_in_page : Browser :=
  with_waits (steady_page "The answer is 4.")
             (fun _ => Exc "Timeout exceeded").

(** ** Reading the image polling loop *)

(** The loaded images among [imgs] at [attempt], when every attribute
    read returns. *)
Fixpoint loaded_now (b : Browser) (attempt : nat) (imgs : list Element)
  : option (list Element) :=
  match imgs with
  | [] => Some []
  | img :: rest =>
      match get_attribute_src b attempt img with
      | Val src =>
          match loaded_now b attempt rest with
          | Some l =>
              Some (if GenerateImage.is_loaded src then img :: l else l)
          | None => None
          end
      | Exc _ => None
      end
  end.

(** What one look through [selector] at [attempt] counts: the loaded
    images, when no call raises and at least one image is loaded. *)
Definition image_sample (b : Browser) (attempt : nat) (selector : string)
  : option (list Element) :=
  match query_selector_all b attempt selector with
  | Val imgs =>
      match loaded_now b attempt imgs with
      | Some (img :: l) => Some (img :: l)
      | _ => None
      end
  | Exc _ => None
  end.

(** The samples of one attempt, in the order of the selector list. *)
Definition samples_at (b : Browser) (attempt : nat)
  (selectors : list string) : list (list Element) :=
  flat_map (fun s => match image_sample b attempt s with
                     | Some l => [l]
                     | None => []
                     end) selectors.

(** The samples of [n] attempts from [attempt] on, oldest first. *)
Fixpoint samples_from (b : Browser) (attempt n : nat)
  : list (list Element) :=
  match n with
  | O => []
  | S n' =>
      samples_at b attempt GenerateImage.IMAGE_RESULT_SELECTORS
        ++ samples_from b (S attempt) n'
  end.

(** How many of the newest earlier counts equal [n], newest first. *)
Fixpoint count_run (n : nat) (older : list nat) : nat :=
  match older with
  | m :: rest => if (n =? m)%nat then S (count_run n rest) else O
  | [] => O
  end.

(** The first sample whose size is the size of the three samples before
    it, [[]] when there is none; [older] holds the sizes seen before. *)
Fixpoint first_stable (older : list nat) (samples : list (list Element))
  : list Element :=
  match samples with
  | [] => []
  | s :: rest =>
      if (3 <=? count_run (List.length s) older)%nat then s
      else first_stable (List.length s :: older) rest
  end.

(** The counters of the image loop follow the sizes seen so far. *)
Definition follows (older : list nat) (st : GenerateImage.Stability)
  : Prop :=
  match older with
  | [] => st = GenerateImage.fresh
  | n :: rest =>
      GenerateImage.last_image_count st = n
      /\ GenerateImage.stable_count st = count_run n rest
  end.

(** [needle] occurs in [hay]. *)
Definition occurs_in (needle hay : string) : Prop :=
  exists before after : string, hay = (before ++ needle ++ after)%string.

(** A result page whose first image selector shows the same two loaded
    images at every attempt. *)
Definition settled_gallery : Browser :=
  let g := gallery_page [] in
  {| is_authenticated := is_authenticated g;
     PAGE_LOAD_TIMEOUT := PAGE_LOAD_TIMEOUT g;
     host := host g;
     state_file_exists := state_file_exists g;
     state_file := state_file g;
     add_cookies := add_cookies g;
     sync_playwright_start := sync_playwright_start g;
     chromium_launch := chromium_launch g;
     new_page := new_page g;
     goto := goto g;
     wait_for_selector := wait_for_selector g;
     wait_elapsed := wait_elapsed g;
     query_selector := query_selector g;
     is_visible := is_visible g;
     click := click g;
     type_text := type_text g;
     fill := fill g;
     evaluate := evaluate g;
     keyboard_press := keyboard_press g;
     poll_busy := poll_busy g;
     query_selector_all := fun _ s =>
       if String.eqb s "generated-image img.image"
       then Val [21%nat; 22%nat] else Val [];
     inner_text := inner_text g;
     get_attribute_src := fun _ _ =>
       Val (Some "https://lh3.googleusercontent.com/gg/abc");
     mkdir := mkdir g;
     generated_images := generated_images g;
     context_close := context_close g;
     playwright_stop := playwright_stop g |}.

(** A pause of the script. *)
Definition is_sleep (e : Event) : bool :=
  match e with Sleep _ => true | _ => false end.

(** [c in s] for one character. *)
Fixpoint has_char (c : ascii) (s : string) : bool :=
  match s with
  | EmptyString => false
  | String d s' => Ascii.eqb c d || has_char c s'
  end.

(** The ordinal and the extension a saved file name was built from:
    [f"gemini_image_{j+1}_{stamp}{ext}"]. *)
Definition named_after (j : nat) (ext : string) (p : SavedPath) : Prop :=
  exists stamp : Z,
    sp_name p = ("gemini_image_" ++ PyStr.of_nat (j + 1) ++ "_"
                   ++ PyStr.of_Z stamp ++ ext)%string.

(** ** [StealthUtils.human_type] *)

Module StealthUtils.

Section HumanType.

(** The type of the numbers [random.uniform] draws; the code only passes
    them on. *)
Variable Float : Type.

(** What [human_type] does to the page, in order. *)
Inductive Gesture :=
| QuerySelector (selector : string)
| WaitForSelector (selector : string) (timeout : Z)
| Click (e : Element)
| TypeChar (e : Element) (char : ascii) (delay : Float)
| Pause (seconds : Float).

(** The page as [human_type] meets it: the outcome of each call. *)
Record Page := {
  (** [page.query_selector(selector)] *)
  query_selector : string -> res (option Element);
  (** [page.wait_for_selector(selector, timeout=2000)] *)
  wait_for_selector : string -> res (option Element);
  (** [element.click()] *)
  click : Element -> res unit;
  (** [element.type(char, delay=...)] for character number [k] *)
  type_char : nat -> Element -> ascii -> res unit
}.

(** The draws of the [random] module around character number [k]. *)
Record Random := {
  (** [random.uniform(25, 75)] *)
  uniform_25_75 : nat -> Float;
  (** [random.random() < 0.05] *)
  random_below_005 : nat -> bool;
  (** [random.uniform(0.15, 0.4)] *)
  uniform_015_04 : nat -> Float
}.

(** Lines 146-149: [for char in text], from character number [k] on. *)
Fixpoint type_chars (p : Page) (r : Random) (element : Element) (k : nat)
  (text : string) : res unit * list Gesture :=
  match text with
  | EmptyString => (Val tt, [])
  | String char rest =>
      let delay := uniform_25_75 r k in
      match type_char p k element char with
      | Exc msg => (Exc msg, [TypeChar element char delay])
      | Val _ =>
          let pause :=
            if random_below_005 r k then [Pause (uniform_015_04 r k)]
            else [] in
          let rest_run := type_chars p r element (S k) rest in
          (fst rest_run,
           TypeChar element char delay :: pause ++ snd rest_run)
      end
  end.

(** Lines 128-149.  [wpm_min] and [wpm_max] are parameters of the
    function; its body does not mention them. *)
Definition human_type (p : Page) (r : Random) (selector text : string)
  (wpm_min wpm_max : Z) : res unit * list Gesture :=
  match query_selector p selector with
  | Exc msg => (Exc msg, [QuerySelector selector])
  | Val first_look =>
      let second_look :=
        match first_look with
        | Some e => (Some e, [])
        | None =>
            (match wait_for_selector p selector with
             | Val found => found
             | Exc _ => None
             end,
             [WaitForSelector selector 2000])
        end in
      match fst second_look with
      | None => (Val tt, QuerySelector selector :: snd second_look)
      | Some element =>
          match click p element with
          | Exc msg =>
              (Exc msg,
               QuerySelector selector :: snd second_look ++ [Click element])
          | Val _ =>
              let typing_run := type_chars p r element 0 text in
              (fst typing_run,
               QuerySelector selector :: snd second_look
                 ++ Click element :: snd typing_run)
          end
      end
  end.

(** The characters sent to the element, in order. *)
Definition keystrokes (l : list Gesture) : list ascii :=
  flat_map (fun g => match g with TypeChar _ c _ => [c] | _ => [] end) l.

(** The elements clicked, in order. *)
Definition clicked (l : list Gesture) : list Element :=
  flat_map (fun g => match g with Click e => [e] | _ => [] end) l.

(** The element [human_type] settles on: the first look, or the wait
    when the first look finds nothing. *)
Definition located (p : Page) (selector : string) : option Element :=
  match query_selector p selector with
  | Val (Some e) => Some e
  | Val None =>
      match wait_for_selector p selector with
      | Val found => found
      | Exc _ => None
      end
  | Exc _ => None
  end.

(** Every keystroke of the text is accepted. *)
Fixpoint all_typed (p : Page) (element : Element) (k : nat) (text : string)
  : bool :=
  match text with
  | EmptyString => true
  | String char rest =>
      is_val (type_char p k element char)
      && all_typed p element (S k) rest
  end.

End HumanType.

Arguments QuerySelector {Float}.
Arguments WaitForSelector {Float}.
Arguments Click {Float}.
Arguments TypeChar {Float}.
Arguments Pause {Float}.
Arguments uniform_25_75 {Float}.
Arguments random_below_005 {Float}.
Arguments uniform_015_04 {Float}.
Arguments type_chars {Float}.
Arguments human_type {Float}.
Arguments keystrokes {Float}.
Arguments clicked {Float}.

End StealthUtils.

(** The page [b] with other answers to the visibility test. *)
Definition with_visibility (b : Browser) (visible : Element -> res bool)
  : Browser :=
  {| is_authenticated := is_authenticated b;
     PAGE_LOAD_TIMEOUT := PAGE_LOAD_TIMEOUT b;
     host := host b;
     state_file_exists := state_file_exists b;
     state_file := state_file b;
     add_cookies := add_cookies b;
     sync_playwright_start := sync_playwright_start b;
     chromium_launch := chromium_launch b;
     new_page := new_page b;
     goto := goto b;
     wait_for_selector := wait_for_selector b;
     wait_elapsed := wait_elapsed b;
     query_selector := query_selector b;
     is_visible := visible;
     click := click b;
     type_text := type_text b;
     fill := fill b;
     evaluate := evaluate b;
     keyboard_press := keyboard_press b;
     poll_busy := poll_busy b;
     query_selector_all := query_selector_all b;
     inner_text := inner_text b;
     get_attribute_src := get_attribute_src b;
     mkdir := mkdir b;
     generated_images := generated_images b;
     context_close := context_close b;
     playwright_stop := playwright_stop b |}.

(** A page whose input field the wait finds, but which reports it
    hidden when it is looked up again. *)
Definition hidden_input_page : Browser :=
  with_visibility (steady_page "The answer is 4.") (fun _ => Val false).

(** * Properties *)

(** ** Running the monad *)

Lemma bind_run {A B} (m : M A) (k : A -> M B) f :
  bind m k f =
    match outcome (m f) with
    | Val a =>
        (outcome (k a (frame_of (m f))), frame_of (k a (frame_of (m f))),
         events (m f) ++ events (k a (frame_of (m f))))
    | Exc e => (Exc e, frame_of (m f), events (m f))
    end.
Proof.
  unfold bind, outcome, frame_of, events.
  destruct (m f) as [[[a | e] f1] l1]; cbn; [ | reflexivity ].
  destruct (k a f1) as [[r f2] l2]; reflexivity.
Qed.

Lemma try_except_run {A} (m : M A) (h : string -> M A) f :
  try_except m h f =
    match outcome (m f) with
    | Val a => (Val a, frame_of (m f), events (m f))
    | Exc e =>
        (outcome (h e (frame_of (m f))), frame_of (h e (frame_of (m f))),
         events (m f) ++ events (h e (frame_of (m f))))
    end.
Proof.
  unfold try_except, outcome, frame_of, events.
  destruct (m f) as [[[a | e] f1] l1]; cbn; [ reflexivity | ].
  destruct (h e f1) as [[r f2] l2]; reflexivity.
Qed.

Lemma outcome_mk {A} (o : res A) (f : Frame) (l : list Event) :
  outcome (o, f, l) = o.
Proof. reflexivity. Qed.

Lemma frame_of_mk {A} (o : res A) (f : Frame) (l : list Event) :
  frame_of (o, f, l) = f.
Proof. reflexivity. Qed.

Lemma events_mk {A} (o : res A) (f : Frame) (l : list Event) :
  events (o, f, l) = l.
Proof. reflexivity. Qed.

Ltac proj_run := rewrite ?outcome_mk, ?frame_of_mk, ?events_mk.

(** ** Not signed in *)

(** C4: when the authentication check says no, [ask_gemini] and
    [generate_image] return [None] at once: the check is the only call
    they make (no browser is launched, no selector is resolved, no input is
    delivered), no time passes, and [main] hands exit code 1 to
    [sys.exit]. *)
Theorem not_authenticated_stops_at_once :
  forall (b : Browser) (f : Frame),
    is_authenticated b = false ->
    (forall question headless,
        AskGemini.ask_gemini b question headless f = (Val None, f, [AuthCheck]))
    /\ (forall question show_browser,
           AskGemini.main b question show_browser f = (Val 1, f, [AuthCheck]))
    /\ (forall prompt output_dir headless debug,
           GenerateImage.generate_image b prompt output_dir headless debug f
           = (Val None, f, [AuthCheck]))
    /\ (forall prompt output headless debug,
           GenerateImage.main b prompt output headless debug f
           = (Val 1, f, [AuthCheck])).
Proof.
  intros b f Hauth.
  assert (Ha : forall question headless,
             AskGemini.ask_gemini b question headless f
             = (Val None, f, [AuthCheck])).
  { intros. unfold AskGemini.ask_gemini, bind, call. rewrite Hauth. reflexivity. }
  assert (Hg : forall prompt output_dir headless debug,
             GenerateImage.generate_image b prompt output_dir headless debug f
             = (Val None, f, [AuthCheck])).
  { intros. unfold GenerateImage.generate_image, bind, call.
    rewrite Hauth. reflexivity. }
  repeat split; intros.
  - apply Ha.
  - unfold AskGemini.main, bind. rewrite Ha. reflexivity.
  - apply Hg.
  - unfold GenerateImage.main, bind. rewrite Hg. reflexivity.
Qed.

Lemma not_authenticated_stops_at_once_witness :
  AskGemini.main (signed_out (steady_page "The answer is 4."))
                 "What is 2+2?" false (start_frame 0)
  = (Val 1, start_frame 0, [AuthCheck]).
Proof.
  apply (not_authenticated_stops_at_once
           (signed_out (steady_page "The answer is 4.")) (start_frame 0)).
  reflexivity.
Defined.

(** ** Input delivery *)

(** C6: [deliver] starts with method 1 (click, then type).  [fill] is
    called exactly when method 1 raised, the scripted assignment exactly
    when [fill] raised as well, so no method follows one that returned;
    and the delivery fails exactly when all three raised. *)
Theorem deliver_falls_back_in_order :
  forall (b : Browser) (e : Element) (ws question : string) (f : Frame),
    let r := AskGemini.deliver b e ws question f in
    let m1 := is_val (click b e) && is_val (type_text b e question) in
    let m2 := is_val (fill b e question) in
    let m3 := is_val (evaluate b ws question) in
    events r =
      (Click e :: (if is_val (click b e)
                   then [Sleep 500; TypeText e question 50] else []))
        ++ (if m1 then []
            else Fill e question
                   :: (if m2 then [] else [Evaluate ws question]))
    /\ (In (Fill e question) (events r) <-> m1 = false)
    /\ (In (Evaluate ws question) (events r) <-> m1 = false /\ m2 = false)
    /\ (outcome r = Val AskGemini.DeliveryFailed
        <-> m1 = false /\ m2 = false /\ m3 = false)
    /\ (outcome r = Val AskGemini.Delivered
        <-> m1 = true \/ m2 = true \/ m3 = true).
Proof.
  intros b e ws question f.
  unfold AskGemini.deliver, try_except, bind, call, sleep, ret,
    outcome, events.
  destruct (click b e) as [[] | ?]; cbn;
    destruct (type_text b e question) as [[] | ?]; cbn;
    destruct (fill b e question) as [[] | ?]; cbn;
    destruct (evaluate b ws question) as [[] | ?]; cbn;
    repeat split; intros;
    repeat match goal with
           | H : _ \/ _ |- _ => destruct H
           | H : _ /\ _ |- _ => destruct H
           | H : False |- _ => destruct H
           end;
    try discriminate; try tauto; auto.
Qed.

(** ** Selector resolution *)

Lemma wait_first_step b timeout s rest f :
  wait_first b timeout (s :: rest) f =
    match wait_hit b s with
    | Some e => (Val (Some e), after_wait b timeout s f,
                 [WaitForSelector s timeout])
    | None =>
        let r := wait_first b timeout rest (after_wait b timeout s f) in
        (outcome r, frame_of r, WaitForSelector s timeout :: events r)
    end.
Proof.
  unfold wait_hit. cbn [wait_first].
  unfold page_wait_for_selector, try_except, bind, elapse, call, ret, after_wait.
  cbn. destruct (wait_for_selector b s) as [[e | ] | msg]; cbn; try reflexivity;
    match goal with
    | |- context [wait_first b timeout rest ?g] =>
        destruct (wait_first b timeout rest g) as [[o g'] l]; reflexivity
    end.
Qed.

Lemma after_wait_clock b timeout s f :
  0 <= timeout ->
  clock f <= clock (after_wait b timeout s f) <= clock f + timeout.
Proof. intros Ht. unfold after_wait. cbn. lia. Qed.

Lemma wait_first_hit b timeout pre :
  0 <= timeout ->
  forall s e post f,
    (forall c, In c pre -> wait_hit b c = None) ->
    wait_hit b s = Some e ->
    let r := wait_first b timeout (pre ++ s :: post) f in
    outcome r = Val (Some e)
    /\ events r = map (fun c => WaitForSelector c timeout) (pre ++ [s])
    /\ clock f <= clock (frame_of r)
       <= clock f + timeout * Z.of_nat (List.length pre + 1).
Proof.
  intros Ht. induction pre as [ | c pre IH]; intros s e post f Hpre Hs.
  - cbn [app]. rewrite wait_first_step, Hs. cbn.
    pose proof (after_wait_clock b timeout s f Ht) as Hc.
    repeat split; try reflexivity; cbn in *; lia.
  - cbn [app]. rewrite wait_first_step, (Hpre c (or_introl eq_refl)).
    destruct (IH s e post (after_wait b timeout c f)
                 (fun c' H => Hpre c' (or_intror H)) Hs) as (Ho & He & Hc).
    pose proof (after_wait_clock b timeout c f Ht) as Hc'.
    cbn zeta. proj_run.
    repeat split.
    + exact Ho.
    + cbn [map app]. f_equal. exact He.
    + lia.
    + change (List.length (c :: pre)) with (S (List.length pre)).
      rewrite !Nat2Z.inj_add, ?Nat2Z.inj_succ in *. nia.
Qed.

Lemma wait_first_miss b timeout sels :
  0 <= timeout ->
  forall f,
    (forall c, In c sels -> wait_hit b c = None) ->
    let r := wait_first b timeout sels f in
    outcome r = Val None
    /\ events r = map (fun c => WaitForSelector c timeout) sels
    /\ clock f <= clock (frame_of r)
       <= clock f + timeout * Z.of_nat (List.length sels).
Proof.
  intros Ht. induction sels as [ | c sels IH]; intros f Hall.
  - cbn. repeat split; lia.
  - rewrite wait_first_step, (Hall c (or_introl eq_refl)).
    destruct (IH (after_wait b timeout c f)
                 (fun c' H => Hall c' (or_intror H))) as (Ho & He & Hc).
    pose proof (after_wait_clock b timeout c f Ht) as Hc'.
    cbn zeta. proj_run.
    repeat split.
    + exact Ho.
    + cbn [map]. f_equal. exact He.
    + lia.
    + change (List.length (c :: sels)) with (S (List.length sels)).
      rewrite Nat2Z.inj_succ. nia.
Qed.

Lemma click_image_button_step b s rest f :
  outcome (GenerateImage.click_image_button b (s :: rest) f) =
    if button_hit b s then Val true
    else outcome (GenerateImage.click_image_button b rest
                    (after_wait b 5000 s f)).
Proof.
  unfold button_hit, wait_hit. cbn [GenerateImage.click_image_button].
  unfold page_wait_for_selector, try_except, bind, elapse, call, sleep, ret,
    after_wait, outcome.
  cbn. destruct (wait_for_selector b s) as [[e | ] | msg]; cbn.
  - destruct (click b e) as [[] | msg]; cbn; [ reflexivity | ].
    match goal with
    | |- context [GenerateImage.click_image_button b rest ?g] =>
        destruct (GenerateImage.click_image_button b rest g) as [[o g'] l]
    end; reflexivity.
  - match goal with
    | |- context [GenerateImage.click_image_button b rest ?g] =>
        destruct (GenerateImage.click_image_button b rest g) as [[o g'] l]
    end; reflexivity.
  - match goal with
    | |- context [GenerateImage.click_image_button b rest ?g] =>
        destruct (GenerateImage.click_image_button b rest g) as [[o g'] l]
    end; reflexivity.
Qed.

Lemma click_image_button_hit b pre :
  forall s post f,
    (forall c, In c pre -> button_hit b c = false) ->
    button_hit b s = true ->
    outcome (GenerateImage.click_image_button b (pre ++ s :: post) f)
    = Val true.
Proof.
  induction pre as [ | c pre IH]; intros s post f Hpre Hs; cbn [app];
    rewrite click_image_button_step.
  - now rewrite Hs.
  - rewrite (Hpre c (or_introl eq_refl)).
    apply IH; [ intros c' H; apply Hpre; now right | exact Hs ].
Qed.

Lemma click_image_button_miss b sels :
  forall f,
    (forall c, In c sels -> button_hit b c = false) ->
    outcome (GenerateImage.click_image_button b sels f) = Val false.
Proof.
  induction sels as [ | c sels IH]; intros f Hall; [ reflexivity | ].
  rewrite click_image_button_step, (Hall c (or_introl eq_refl)).
  apply IH. intros c' H; apply Hall; now right.
Qed.

(** C9: for every list of candidates, the selector loop hands back the
    element of the first candidate, in list order, whose wait finds a
    visible element, whatever the later candidates would find; it waits
    for the candidates up to that one only, each with the same timeout,
    so it takes at most that timeout per candidate tried; a candidate
    whose wait raises (or finds nothing) is passed over, and the loop
    ends with [None] only when every candidate was.  The image button
    loop does the same with a timeout of five seconds, a candidate whose
    click raises being passed over as well. *)
Theorem first_visible_candidate_wins :
  forall (b : Browser) (timeout : Z) (f : Frame),
    0 <= timeout ->
    (forall pre s e post,
        (forall c, In c pre -> wait_hit b c = None) ->
        wait_hit b s = Some e ->
        let r := wait_first b timeout (pre ++ s :: post) f in
        outcome r = Val (Some e)
        /\ events r = map (fun c => WaitForSelector c timeout) (pre ++ [s])
        /\ clock f <= clock (frame_of r)
           <= clock f + timeout * Z.of_nat (List.length pre + 1))
    /\ (forall sels,
           (forall c, In c sels -> wait_hit b c = None) ->
           let r := wait_first b timeout sels f in
           outcome r = Val None
           /\ events r = map (fun c => WaitForSelector c timeout) sels
           /\ clock f <= clock (frame_of r)
              <= clock f + timeout * Z.of_nat (List.length sels))
    /\ (forall pre s post,
           (forall c, In c pre -> button_hit b c = false) ->
           button_hit b s = true ->
           outcome (GenerateImage.click_image_button b (pre ++ s :: post) f)
           = Val true)
    /\ (forall sels,
           (forall c, In c sels -> button_hit b c = false) ->
           outcome (GenerateImage.click_image_button b sels f) = Val false).
Proof.
  intros b timeout f Ht. repeat apply conj.
  - intros pre s e post. apply wait_first_hit; assumption.
  - intros sels. apply wait_first_miss; assumption.
  - intros pre s post. apply click_image_button_hit.
  - intros sels. apply click_image_button_miss.
Qed.

Lemma first_visible_candidate_wins_witness :
  let r := AskGemini.find_input (steady_page "The answer is 4.")
                                (start_frame 0) in
  outcome r = Val (Some 7%nat)
  /\ events r =
       [ WaitForSelector "rich-textarea[placeholder*='输入']" 10000;
         WaitForSelector "rich-textarea[placeholder*='Enter']" 10000;
         WaitForSelector "rich-textarea" 10000 ]
  /\ 0 <= clock (frame_of r) <= 0 + 10000 * Z.of_nat (2 + 1).
Proof.
  refine (proj1 (first_visible_candidate_wins
                   (steady_page "The answer is 4.") 10000 (start_frame 0) _)
                [ "rich-textarea[placeholder*='输入']";
                  "rich-textarea[placeholder*='Enter']" ]
                "rich-textarea" 7%nat
                [ ".ql-editor[contenteditable='true']";
                  "div[contenteditable='true'][role='textbox']" ] _ _).
  - lia.
  - intros c [<- | [<- | []]]; reflexivity.
  - reflexivity.
Defined.

(** ** Teardown *)

Lemma quiet_ret {A} (a : A) : quiet (ret a).
Proof. intros f. cbn. auto. Qed.

Lemma quiet_bind {A B} (m : M A) (k : A -> M B) :
  quiet m -> (forall a, quiet (k a)) -> quiet (bind m k).
Proof.
  intros Hm Hk f. rewrite bind_run.
  destruct (Hm f) as (Hl & Hp & Hc).
  destruct (outcome (m f)) as [a | e]; proj_run.
  - destruct (Hk a (frame_of (m f))) as (Hl' & Hp' & Hc').
    repeat split; [ apply Forall_app; auto | congruence | congruence ].
  - auto.
Qed.

Lemma quiet_try_except {A} (m : M A) (h : string -> M A) :
  quiet m -> (forall e, quiet (h e)) -> quiet (try_except m h).
Proof.
  intros Hm Hh f. rewrite try_except_run.
  destruct (Hm f) as (Hl & Hp & Hc).
  destruct (outcome (m f)) as [a | e]; proj_run.
  - auto.
  - destruct (Hh e (frame_of (m f))) as (Hl' & Hp' & Hc').
    repeat split; [ apply Forall_app; auto | congruence | congruence ].
Qed.

Lemma quiet_call {A} (ev : Event) (r : res A) :
  session_event ev = false -> quiet (call ev r).
Proof. intros H f. cbn. auto. Qed.

Lemma quiet_sleep ms : quiet (sleep ms).
Proof. intros f. cbn. auto. Qed.

Lemma quiet_elapse ms : quiet (elapse ms).
Proof. intros f. cbn. auto. Qed.

Lemma quiet_time : quiet time_time.
Proof. intros f. cbn. auto. Qed.

Lemma quiet_when c (m : M unit) : quiet m -> quiet (when c m).
Proof. intros H. destruct c; [ exact H | apply quiet_ret ]. Qed.

Create HintDb quiet.
#[local] Hint Resolve quiet_ret quiet_sleep quiet_elapse quiet_time
  quiet_when : quiet.

(** Breaks a computation down to its calls; the loops are closed by the
    lemmas of the hint database. *)
Ltac quiet_step :=
  match goal with
  | |- quiet (bind _ _) => apply quiet_bind; [ | intros ? ]
  | |- quiet (try_except _ _) => apply quiet_try_except; [ | intros ? ]
  | |- quiet (call _ _) => apply quiet_call; reflexivity
  | |- quiet (match ?x with _ => _ end) => destruct x
  | |- quiet (if ?x then _ else _) => destruct x
  | |- quiet _ => solve [ auto with quiet ]
  end.

Ltac quiet_tac := repeat quiet_step.

Lemma quiet_inject_cookies b : quiet (BrowserFactory._inject_cookies b).
Proof. unfold BrowserFactory._inject_cookies. quiet_tac. Qed.

Lemma quiet_page_wait b s t : quiet (page_wait_for_selector b s t).
Proof. unfold page_wait_for_selector. quiet_tac. Qed.
#[local] Hint Resolve quiet_inject_cookies quiet_page_wait : quiet.

Lemma quiet_wait_first b t sels : quiet (wait_first b t sels).
Proof. induction sels; cbn [wait_first]; quiet_tac. Qed.
#[local] Hint Resolve quiet_wait_first : quiet.

Lemma quiet_find_working_selector b sels :
  quiet (AskGemini.find_working_selector b sels).
Proof. induction sels; cbn [AskGemini.find_working_selector]; quiet_tac. Qed.

Lemma quiet_deliver b e ws q : quiet (AskGemini.deliver b e ws q).
Proof. unfold AskGemini.deliver. quiet_tac. Qed.

Lemma quiet_try_selector b q i s st : quiet (AskGemini.try_selector b q i s st).
Proof. unfold AskGemini.try_selector. quiet_tac. Qed.
#[local] Hint Resolve quiet_find_working_selector quiet_deliver
  quiet_try_selector : quiet.

Lemma quiet_scan_selectors b q i sels :
  forall st, quiet (AskGemini.scan_selectors b q i sels st).
Proof. induction sels; intros st; cbn [AskGemini.scan_selectors]; quiet_tac. Qed.
#[local] Hint Resolve quiet_scan_selectors : quiet.

Lemma quiet_poll_loop b q deadline fuel :
  forall i st, quiet (AskGemini.poll_loop b q deadline fuel i st).
Proof. induction fuel; intros i st; cbn [AskGemini.poll_loop]; quiet_tac. Qed.
#[local] Hint Resolve quiet_poll_loop : quiet.

Lemma quiet_ask_on_page b q h : quiet (AskGemini.ask_on_page b q h).
Proof.
  unfold AskGemini.ask_on_page, AskGemini.find_input, AskGemini.await_answer.
  quiet_tac.
Qed.

Lemma quiet_click_image_button b sels :
  quiet (GenerateImage.click_image_button b sels).
Proof. induction sels; cbn [GenerateImage.click_image_button]; quiet_tac. Qed.

Lemma quiet_find_actual_input b sels :
  quiet (GenerateImage.find_actual_input b sels).
Proof. induction sels; cbn [GenerateImage.find_actual_input]; quiet_tac. Qed.
#[local] Hint Resolve quiet_click_image_button quiet_find_actual_input : quiet.

Lemma quiet_type_prompt b e p d : quiet (GenerateImage.type_prompt b e p d).
Proof. unfold GenerateImage.type_prompt. quiet_tac. Qed.

Lemma quiet_loaded_of b i imgs : quiet (GenerateImage.loaded_of b i imgs).
Proof. induction imgs; cbn [GenerateImage.loaded_of]; quiet_tac. Qed.
#[local] Hint Resolve quiet_type_prompt quiet_loaded_of : quiet.

Lemma quiet_image_try_selector b i s st :
  quiet (GenerateImage.try_selector b i s st).
Proof. unfold GenerateImage.try_selector. quiet_tac. Qed.
#[local] Hint Resolve quiet_image_try_selector : quiet.

Lemma quiet_image_scan b i sels :
  forall st, quiet (GenerateImage.scan_selectors b i sels st).
Proof.
  induction sels; intros st; cbn [GenerateImage.scan_selectors]; quiet_tac.
Qed.
#[local] Hint Resolve quiet_image_scan : quiet.

Lemma quiet_poll_images b n :
  forall i st, quiet (GenerateImage.poll_images b n i st).
Proof. induction n; intros i st; cbn [GenerateImage.poll_images]; quiet_tac. Qed.

Lemma quiet_retrieve_one b dir i c saved :
  quiet (GenerateImage.retrieve_one b dir i c saved).
Proof. unfold GenerateImage.retrieve_one. quiet_tac. Qed.
#[local] Hint Resolve quiet_poll_images quiet_retrieve_one : quiet.

Lemma quiet_retrieve b dir cs :
  forall i saved, quiet (GenerateImage.retrieve b dir i cs saved).
Proof. induction cs; intros i saved; cbn [GenerateImage.retrieve]; quiet_tac. Qed.
#[local] Hint Resolve quiet_retrieve : quiet.

Lemma quiet_generate_on_page b p dir h d :
  quiet (GenerateImage.generate_on_page b p dir h d).
Proof.
  unfold GenerateImage.generate_on_page, GenerateImage.download_images.
  quiet_tac.
Qed.

(** The failure handler of both scripts, lines 230-240 and 321-331. *)
Lemma quiet_handler {A} (headless : bool) :
  quiet (when (negb headless) (sleep 30000) ;; ret (@None A)).
Proof. quiet_tac. Qed.

Lemma inject_cookies_run b f :
  exists l,
    Forall (fun e => session_event e = false) l
    /\ BrowserFactory._inject_cookies b f
       = (match state_file_exists b with
          | Val _ => Val tt
          | Exc msg => Exc msg
          end, f, l).
Proof.
  unfold BrowserFactory._inject_cookies, try_except, bind, call, ret.
  destruct (state_file_exists b) as [[ | ] | msg]; cbn;
    try (destruct (state_file b) as [[[ | n] | ] | msg]; cbn;
         try destruct (add_cookies b) as [[] | msg]; cbn);
    eexists; (split; [ | reflexivity ]); repeat constructor.
Qed.

Lemma launch_run b headless f :
  exists l,
    Forall (fun e => session_event e = false) l
    /\ BrowserFactory.launch_persistent_context b headless f =
         match chromium_launch b with
         | Val _ =>
             (match state_file_exists b with
              | Val _ => Val BrowserContext
              | Exc msg => Exc msg
              end, f,
              ChromiumLaunch headless (BrowserFactory.executable_path b) :: l)
         | Exc msg =>
             (Exc msg, f,
              [ChromiumLaunch headless (BrowserFactory.executable_path b)])
         end.
Proof.
  destruct (inject_cookies_run b f) as (l & Hl & Hrun).
  exists l. split; [ exact Hl | ].
  unfold BrowserFactory.launch_persistent_context, bind, call, ret.
  destruct (chromium_launch b) as [[] | msg];
    cbn -[BrowserFactory._inject_cookies]; [ | reflexivity ].
  rewrite Hrun.
  destruct (state_file_exists b); cbn; rewrite ?app_nil_r; reflexivity.
Qed.

(** Both scripts have the shape [check; try: start, launch, page work;
    except: handler; finally: cleanup]; this is how a run of that shape
    ends, for any page work that makes no session call. *)
Lemma guarded_run_ends {A} (b : Browser) (headless : bool)
  (page_work : M (option A)) (f : Frame) :
  quiet page_work ->
  wound_down b headless
    ((authenticated <- call AuthCheck (Val (is_authenticated b)) ;;
      if negb authenticated then ret None
      else
        set_playwright None ;;
        set_context None ;;
        try_finally
          (try_except
             (call PlaywrightStart (sync_playwright_start b) ;;
              set_playwright (Some PlaywrightDriver) ;;
              ctx <- BrowserFactory.launch_persistent_context b headless ;;
              set_context (Some ctx) ;;
              page_work)
             (fun _ => when (negb headless) (sleep 30000) ;; ret None))
          (cleanup b)) f).
Proof.
  intros Hq. unfold wound_down, opening, ending.
  destruct (is_authenticated b) eqn:Hauth.
  2:{ unfold bind, call; cbn. split; [ eexists; reflexivity | ].
      exists []. split; [ constructor | reflexivity ]. }
  destruct (sync_playwright_start b) as [[] | msg] eqn:Hstart.
  2:{ unfold bind, call, try_finally, try_except, set_playwright, set_context,
        cleanup, get_context, get_playwright, when, ret, sleep; cbn.
      destruct headless; cbn;
        (split; [ eexists; reflexivity | ]);
        first [ exists (@nil Event); split; [ constructor | reflexivity ]
              | exists [Sleep 30000];
                split; [ repeat constructor | reflexivity ] ]. }
  unfold bind, call, try_finally, try_except, set_playwright, set_context,
    cleanup, get_context, get_playwright, when, ret, sleep, is_some.
  cbn -[BrowserFactory.launch_persistent_context].
  match goal with
  | |- context [BrowserFactory.launch_persistent_context b headless ?g] =>
      destruct (launch_run b headless g) as (l1 & Hl1 & ->)
  end.
  destruct (chromium_launch b) as [[] | msg] eqn:Hlaunch; cbn;
    [ destruct (state_file_exists b) as [present | msg] eqn:Htest; cbn | ].
  - (* the session is up: the page work runs, then everything is released *)
    match goal with
    | |- context [page_work ?g] =>
        destruct (Hq g) as (Hl2 & Hp2 & Hc2);
        destruct (page_work g) as [[[a | e2] g2] l2]
    end; cbn in *.
    + rewrite Hc2; cbn; destruct (context_close b); cbn;
        rewrite Hp2; cbn; destruct (playwright_stop b); cbn;
        (split; [ eexists; reflexivity | ]);
        exists (l1 ++ l2); (split; [ apply Forall_app; auto | ]);
        cbn; rewrite <- ?app_assoc; cbn; rewrite ?app_nil_r; reflexivity.
    + destruct headless; cbn;
        rewrite Hc2; cbn; destruct (context_close b); cbn;
        rewrite Hp2; cbn; destruct (playwright_stop b); cbn;
        (split; [ eexists; reflexivity | ]).
      all: first
        [ exists (l1 ++ l2 ++ [Sleep 30000]);
          split; [ repeat (apply Forall_app; split); auto | ];
          cbn; rewrite <- ?app_assoc; cbn; reflexivity
        | exists (l1 ++ l2); split; [ apply Forall_app; auto | ];
          cbn; rewrite <- ?app_assoc; cbn; rewrite ?app_nil_r; reflexivity ].
  - (* the existence test raised after the launch: [context] was never
       bound, only the driver is stopped *)
    destruct headless; cbn; destruct (playwright_stop b); cbn;
      (split; [ eexists; reflexivity | ]);
      first [ exists l1; split; [ exact Hl1 | ];
              cbn; rewrite ?app_nil_r; reflexivity
            | exists (l1 ++ [Sleep 30000]);
              split; [ apply Forall_app; split; auto | ];
              cbn; rewrite <- ?app_assoc; reflexivity ].
  - (* the launch raised: only the driver is stopped *)
    destruct headless; cbn; destruct (playwright_stop b); cbn;
      (split; [ eexists; reflexivity | ]);
      first [ exists (@nil Event); split; [ constructor | reflexivity ]
            | exists [Sleep 30000];
              split; [ repeat constructor | reflexivity ] ].
Qed.

(** Where the scripts keep the promise of the teardown: every run in
    which the existence test of the state file returns, or in which no
    context was launched, ends with the release of what it brought up. *)
Lemma guarded_run_released {A} (b : Browser) (headless : bool)
  (r : res (option A) * Frame * list Event) :
  ending b = closing b ->
  wound_down b headless r -> released b headless r.
Proof.
  intros He (Hv & mid & Hmid & Hev). split; [ exact Hv | ].
  exists mid. split; [ exact Hmid | ]. now rewrite <- He.
Qed.

Lemma ending_closing b :
  ending b = closing b
  <-> is_authenticated b && is_val (sync_playwright_start b)
      && is_val (chromium_launch b) && negb (is_val (state_file_exists b))
      = false.
Proof.
  unfold ending, closing.
  destruct (is_authenticated b), (is_val (sync_playwright_start b)),
    (is_val (chromium_launch b)), (is_val (state_file_exists b)); cbn;
    split; intros H; try reflexivity; discriminate.
Qed.

Lemma wound_down_no_close {A} (b : Browser) (headless : bool)
  (r : res A * Frame * list Event) :
  wound_down b headless r ->
  is_val (chromium_launch b) && is_val (state_file_exists b) = false ->
  ~ In ContextClose (events r).
Proof.
  intros (_ & mid & Hmid & Hev) Hno Hin. rewrite Hev in Hin.
  unfold opening, ending in Hin. rewrite Hno in Hin.
  destruct Hin as [Hin | Hin]; [ discriminate | ].
  apply in_app_or in Hin. destruct Hin as [Hin | Hin].
  - destruct (is_authenticated b); [ | destruct Hin ].
    destruct Hin as [Hin | Hin]; [ discriminate | ].
    destruct (is_val (sync_playwright_start b)); [ | destruct Hin ].
    destruct Hin as [Hin | []]. discriminate.
  - apply in_app_or in Hin. destruct Hin as [Hin | Hin].
    + rewrite Forall_forall in Hmid. specialize (Hmid _ Hin). discriminate.
    + destruct (is_authenticated b && is_val (sync_playwright_start b));
        [ | destruct Hin ].
      destruct Hin as [Hin | []]. discriminate.
Qed.

(** What holds of the teardown: every run of [ask_gemini] and of
    [generate_image] in which the existence test of the state file
    returns, or in which no context was launched, returns a value and
    ends with the release of what it brought up. *)
Lemma session_released_when_state_file_test_returns :
  forall (b : Browser) (question prompt output_dir : string)
         (headless debug : bool) (f : Frame),
    is_authenticated b && is_val (sync_playwright_start b)
      && is_val (chromium_launch b) && negb (is_val (state_file_exists b))
    = false ->
    released b headless (AskGemini.ask_gemini b question headless f)
    /\ released b headless
         (GenerateImage.generate_image b prompt output_dir headless debug f).
Proof.
  intros b question prompt output_dir headless debug f H.
  apply ending_closing in H. split.
  - apply (guarded_run_released b headless _ H).
    apply (guarded_run_ends b headless
             (AskGemini.ask_on_page b question headless) f).
    apply quiet_ask_on_page.
  - apply (guarded_run_released b headless _ H).
    apply (guarded_run_ends b headless
             (GenerateImage.generate_on_page b prompt output_dir headless
                debug) f).
    apply quiet_generate_on_page.
Qed.

(** C7, where the code falls short of it: [STATE_FILE.exists()] is
    called outside the [try] of [_inject_cookies], so when it raises
    after the browser was launched, [launch_persistent_context] raises
    and the local [context] of the script is never bound.  The handler
    and the [finally] block still run and the function returns [None],
    but the [finally] block finds no context to close: the browser that
    was launched is not closed, only the driver is stopped.  This holds
    for [ask_gemini] and for [generate_image]. *)
Theorem context_is_left_open_when_state_file_test_raises :
  forall (b : Browser) (question prompt output_dir : string)
         (headless debug : bool) (f : Frame) (msg : string),
    is_authenticated b = true ->
    sync_playwright_start b = Val tt ->
    chromium_launch b = Val tt ->
    state_file_exists b = Exc msg ->
    let launched :=
      ChromiumLaunch headless (BrowserFactory.executable_path b) in
    let ra := AskGemini.ask_gemini b question headless f in
    let rg := GenerateImage.generate_image b prompt output_dir headless
                debug f in
    (exists v, outcome ra = Val v)
    /\ In launched (events ra)
    /\ ~ In ContextClose (events ra)
    /\ In PlaywrightStop (events ra)
    /\ ~ released b headless ra
    /\ (exists v, outcome rg = Val v)
    /\ In launched (events rg)
    /\ ~ In ContextClose (events rg)
    /\ In PlaywrightStop (events rg)
    /\ ~ released b headless rg.
Proof.
  intros b question prompt output_dir headless debug f msg
    Hauth Hstart Hlaunch Htest. cbn zeta.
  assert (Hkey : forall A (r : res A * Frame * list Event),
             wound_down b headless r ->
             (exists v, outcome r = Val v)
             /\ In (ChromiumLaunch headless (BrowserFactory.executable_path b))
                   (events r)
             /\ ~ In ContextClose (events r)
             /\ In PlaywrightStop (events r)
             /\ ~ released b headless r).
  { intros A r Hw.
    assert (Hno : ~ In ContextClose (events r)).
    { apply (wound_down_no_close b headless r Hw).
      now rewrite Htest, andb_false_r. }
    destruct Hw as (Hv & mid & Hmid & Hev).
    unfold opening, ending in Hev.
    rewrite Hauth, Hstart, Hlaunch, Htest in Hev. cbn in Hev.
    repeat split; auto.
    - rewrite Hev. right. right. now left.
    - rewrite Hev. right. right. right. apply in_or_app. right. now left.
    - intros (_ & mid' & _ & Hev'). apply Hno. rewrite Hev'.
      right. apply in_or_app. right. apply in_or_app. right.
      unfold closing. rewrite Hauth, Hstart, Hlaunch. now left. }
  destruct (Hkey _ (AskGemini.ask_gemini b question headless f))
    as (H1 & H2 & H3 & H4 & H5).
  { apply (guarded_run_ends b headless
             (AskGemini.ask_on_page b question headless) f).
    apply quiet_ask_on_page. }
  destruct (Hkey _ (GenerateImage.generate_image b prompt output_dir
                      headless debug f)) as (H6 & H7 & H8 & H9 & H10).
  { apply (guarded_run_ends b headless
             (GenerateImage.generate_on_page b prompt output_dir headless
                debug) f).
    apply quiet_generate_on_page. }
  repeat split; assumption.
Qed.

Lemma context_is_left_open_when_state_file_test_raises_witness :
  let b := locked_state_page in
  let ra := AskGemini.ask_gemini b "What is 2+2?" true (start_frame 0) in
  let rg := GenerateImage.generate_image b "a red boat" "out" true false
              (start_frame 0) in
  (exists v, outcome ra = Val v)
  /\ In (ChromiumLaunch true None) (events ra)
  /\ ~ In ContextClose (events ra)
  /\ In PlaywrightStop (events ra)
  /\ ~ released b true ra
  /\ (exists v, outcome rg = Val v)
  /\ In (ChromiumLaunch true None) (events rg)
  /\ ~ In ContextClose (events rg)
  /\ In PlaywrightStop (events rg)
  /\ ~ released b true rg.
Proof.
  exact (context_is_left_open_when_state_file_test_raises
           locked_state_page "What is 2+2?" "a red boat" "out" true false
           (start_frame 0) "[Errno 13] Permission denied"
           eq_refl eq_refl eq_refl eq_refl).
Defined.
(** ** Artifact retrieval *)

(** One turn of the loop: what it adds, what it writes and the time it
    takes.  Only the clock of the frame moves. *)
Lemma retrieve_one_run b dir i c saved f :
  exists l f',
    GenerateImage.retrieve_one b dir i c saved f
    = (Val (saved ++ artifact_of dir i (clock f) c), f', l)
    /\ clock f' = clock f + time_on c
    /\ playwright f' = playwright f
    /\ context f' = context f
    /\ forall p, In p (artifact_of dir i (clock f) c) -> written p l.
Proof.
  unfold GenerateImage.retrieve_one, artifact_of, fallback_of, time_on,
    fallback_time, try_except, bind, call, time_time, elapse, ret, written.
  destruct (download_button c) as [[btn | ] | m1]; cbn;
    [ destruct (download c) as [suffix | m2]; cbn;
      [ destruct (save_as c) as [[] | m3]; cbn | ]
    | destruct (img_elem c) as [[e | ] | m2]; cbn;
      [ destruct (screenshot c) as [[] | m3]; cbn | | ]
    | ];
    try (destruct (fallback_img_elem c) as [[e' | ] | m4]; cbn;
         [ destruct (fallback_screenshot c) as [[] | m5]; cbn | | ]);
    eexists _, _; rewrite ?app_nil_r;
    (split; [ reflexivity | ]); cbn;
    (split; [ lia | ]); (split; [ reflexivity | ]);
    (split; [ reflexivity | ]);
    intros p Hp; cbn in Hp;
    try (destruct Hp as [<- | []]); try destruct Hp;
    cbn; eauto 10.
Qed.

Lemma retrieve_run b dir cs :
  forall i saved f,
    exists l f',
      GenerateImage.retrieve b dir i cs saved f
      = (Val (saved ++ artifacts_of dir i (clock f) cs), f', l)
      /\ clock f' = clock f + time_on_all cs
      /\ forall p, In p (artifacts_of dir i (clock f) cs) -> written p l.
Proof.
  induction cs as [ | c cs IH]; intros i saved f.
  - exists [], f. cbn. rewrite app_nil_r.
    repeat split; [ lia | intros p [] ].
  - cbn [GenerateImage.retrieve artifacts_of time_on_all fold_right].
    unfold bind.
    destruct (retrieve_one_run b dir i c saved f)
      as (l1 & f1 & -> & Hclock1 & _ & _ & Hw1).
    destruct (IH (S i) (saved ++ artifact_of dir i (clock f) c) f1)
      as (l2 & f2 & -> & Hclock2 & Hw2).
    exists (l1 ++ l2), f2. rewrite Hclock1, <- app_assoc.
    split; [ reflexivity | ]. split; [ fold (time_on_all cs); lia | ].
    intros p Hp. apply in_app_or in Hp. unfold written.
    destruct Hp as [Hp | Hp].
    + destruct (Hw1 p Hp) as [H | (e & H)]; [ left | right; exists e ];
        apply in_or_app; now left.
    + rewrite Hclock1 in Hw2.
      destruct (Hw2 p Hp) as [H | (e & H)]; [ left | right; exists e ];
        apply in_or_app; now right.
Qed.

Lemma time_on_all_app before after :
  time_on_all (before ++ after) = time_on_all before + time_on_all after.
Proof.
  induction before as [ | c before IH]; cbn; [ reflexivity | ].
  fold (time_on_all (before ++ after)). fold (time_on_all before). lia.
Qed.

Lemma artifacts_of_app dir before :
  forall i t after,
    artifacts_of dir i t (before ++ after)
    = artifacts_of dir i t before
        ++ artifacts_of dir (i + List.length before)
             (t + time_on_all before) after.
Proof.
  induction before as [ | c before IH]; intros i t after; cbn.
  - now rewrite Nat.add_0_r, Z.add_0_r.
  - fold (time_on_all before).
    rewrite IH, <- app_assoc, Nat.add_succ_r, Z.add_assoc. reflexivity.
Qed.

(** C5: the retrieval loop goes through every container, whatever
    happens on the others: the saved paths are the contributions of the
    containers one by one, in order; what the others do to a container
    is the time they take, which shows in the stamp of its file name
    and nowhere else.  Every path returned is the path that a [save_as]
    or a screenshot of the run was called with.  A container whose
    download raises contributes what the screenshot fallback gives, and
    the fallback takes a screenshot of its image when it finds one,
    stamped after the time the download took; with three containers of
    which the second one's download raises, the files of the first and
    the third are still among the paths returned.  The call returns the
    saved paths when there is at least one and [None] when there is
    none. *)
Theorem retrieval_isolates_failures :
  forall (b : Browser) (output_dir : string) (f : Frame),
    let t := clock f in
    (forall cs i saved,
        let r := GenerateImage.retrieve b output_dir i cs saved f in
        outcome r = Val (saved ++ artifacts_of output_dir i t cs)
        /\ clock (frame_of r) = t + time_on_all cs
        /\ forall p, In p (artifacts_of output_dir i t cs) ->
                     written p (events r))
    /\ (forall before c after,
           artifacts_of output_dir 0 t (before ++ c :: after)
           = artifacts_of output_dir 0 t before
               ++ artifact_of output_dir (List.length before)
                    (t + time_on_all before) c
               ++ artifacts_of output_dir (S (List.length before))
                    (t + time_on_all before + time_on c) after)
    /\ (forall c i saved button msg,
           download_button c = Val (Some button) ->
           download c = Exc msg ->
           let t1 := t + Z.max 0 (download_elapsed c) in
           artifact_of output_dir i t c = fallback_of output_dir i t1 c
           /\ forall e,
               fallback_img_elem c = Val (Some e) ->
               In (Screenshot e (GenerateImage.image_path output_dir i t1 ".png"))
                  (events (GenerateImage.retrieve_one b output_dir i c saved f))
               /\ (fallback_screenshot c = Val tt ->
                   artifact_of output_dir i t c
                   = [GenerateImage.image_path output_dir i t1 ".png"]))
    /\ (forall c1 c2 c3 b1 s1 b2 msg b3 s3,
           generated_images b = Val [c1; c2; c3] ->
           mkdir b = Val tt ->
           download_button c1 = Val (Some b1) ->
           download c1 = Val s1 -> save_as c1 = Val tt ->
           download_button c2 = Val (Some b2) ->
           download c2 = Exc msg ->
           download_button c3 = Val (Some b3) ->
           download c3 = Val s3 -> save_as c3 = Val tt ->
           let t1 := t + Z.max 0 (download_elapsed c1) in
           let t2 := t + time_on c1 + Z.max 0 (download_elapsed c2) in
           let t3 := t + time_on c1 + time_on c2
                     + Z.max 0 (download_elapsed c3) in
           outcome (GenerateImage.download_images b output_dir f)
           = Val (Some
                    (GenerateImage.image_path output_dir 0 t1
                       (if PyStr.truthy s1 then s1 else ".png")
                     :: fallback_of output_dir 1 t2 c2
                     ++ [GenerateImage.image_path output_dir 2 t3
                           (if PyStr.truthy s3 then s3 else ".png")])))
    /\ (forall cs,
           generated_images b = Val cs ->
           mkdir b = Val tt ->
           let r := GenerateImage.download_images b output_dir f in
           outcome r
           = Val (match artifacts_of output_dir 0 t cs with
                  | [] => None
                  | p :: ps => Some (p :: ps)
                  end)
           /\ forall p, In p (artifacts_of output_dir 0 t cs) ->
                        written p (events r)).
Proof.
  intros b output_dir f t.
  assert (Hall : forall cs,
             generated_images b = Val cs ->
             mkdir b = Val tt ->
             outcome (GenerateImage.download_images b output_dir f)
             = Val (match artifacts_of output_dir 0 t cs with
                    | [] => None
                    | p :: ps => Some (p :: ps)
                    end)
             /\ forall p, In p (artifacts_of output_dir 0 t cs) ->
                          written p
                            (events (GenerateImage.download_images b
                                       output_dir f))).
  { intros cs Hcs Hmk.
    unfold GenerateImage.download_images, bind, call. rewrite Hmk, Hcs.
    destruct (retrieve_run b output_dir cs 0%nat [] f)
      as (l & f' & -> & _ & Hw).
    cbn [app]. fold t in Hw |- *.
    destruct (artifacts_of output_dir 0 t cs) as [ | p0 ps] eqn:E;
      (split; [ reflexivity | ]); intros p Hp; [ destruct Hp | ].
    unfold ret, events. cbn [snd app]. rewrite app_nil_r.
    destruct (Hw p Hp) as [H | (e & H)]; [ left | right; exists e ];
      right; right; exact H. }
  repeat apply conj.
  - intros cs i saved.
    destruct (retrieve_run b output_dir cs i saved f)
      as (l & f' & -> & Hclock & Hw).
    cbn zeta. proj_run. auto.
  - intros before c after.
    rewrite artifacts_of_app. cbn [artifacts_of Nat.add]. now rewrite app_assoc.
  - intros c i saved button msg Hb Hd. cbn zeta.
    split; [ unfold artifact_of; now rewrite Hb, Hd | ].
    intros e He. split.
    + unfold GenerateImage.retrieve_one, try_except, bind, call, time_time,
        elapse, ret, events.
      rewrite Hb, Hd, He. cbn.
      destruct (fallback_screenshot c) as [[] | ?]; cbn; auto.
    + intros Hs. unfold artifact_of, fallback_of.
      now rewrite Hb, Hd, He, Hs.
  - intros c1 c2 c3 b1 s1 b2 msg b3 s3 Hcs Hmk H1 H2 H3 H4 H5 H6 H7 H8.
    cbn zeta.
    rewrite (proj1 (Hall _ Hcs Hmk)). cbn [artifacts_of]. unfold artifact_of.
    rewrite H1, H2, H3, H4, H5, H6, H7, H8. cbn. rewrite ?app_nil_r.
    reflexivity.
  - exact Hall.
Qed.

Lemma retrieval_isolates_failures_witness :
  let r := GenerateImage.download_images
             (gallery_page [downloadable 1%nat ".jpg"; stuck_download 2%nat;
                            downloadable 3%nat ""])
             "out" (start_frame 1700000000000) in
  let paths :=
    [ {| sp_dir := "out"; sp_name := "gemini_image_1_1700000001.jpg" |};
      {| sp_dir := "out"; sp_name := "gemini_image_2_1700000031.png" |};
      {| sp_dir := "out"; sp_name := "gemini_image_3_1700000033.png" |} ] in
  outcome r = Val (Some paths)
  /\ forall p, In p paths -> written p (events r).
Proof.
  exact (proj2 (proj2 (proj2 (proj2
           (retrieval_isolates_failures
              (gallery_page [downloadable 1%nat ".jpg"; stuck_download 2%nat;
                             downloadable 3%nat ""])
              "out" (start_frame 1700000000000)))))
           [downloadable 1%nat ".jpg"; stuck_download 2%nat;
            downloadable 3%nat ""]
           eq_refl eq_refl).
Defined.

(** ** The response polling loop *)

Lemma bind_val_inv {A B} (m : M A) (k : A -> M B) f x :
  outcome (bind m k f) = Val x ->
  exists a, outcome (m f) = Val a /\ outcome (k a (frame_of (m f))) = Val x.
Proof.
  rewrite bind_run. destruct (outcome (m f)) as [a | e]; proj_run.
  - intros H. exists a. auto.
  - discriminate.
Qed.

Lemma try_except_val_inv {A} (m : M A) (h : string -> M A) f x :
  outcome (try_except m h f) = Val x ->
  outcome (m f) = Val x
  \/ exists e, outcome (m f) = Exc e /\ outcome (h e (frame_of (m f))) = Val x.
Proof.
  rewrite try_except_run. destruct (outcome (m f)) as [a | e]; proj_run.
  - auto.
  - intros H. right. exists e. auto.
Qed.

Lemma try_finally_val_inv {A} (m : M A) (c : M unit) f x :
  outcome (try_finally m c f) = Val x -> outcome (m f) = Val x.
Proof.
  unfold try_finally, outcome.
  destruct (m f) as [[r f1] l1]. destruct (c f1) as [[[[] | e] f2] l2]; cbn;
    [ auto | discriminate ].
Qed.

Lemma accepted_differs question text :
  AskGemini.accepted question text = true -> text <> question.
Proof.
  unfold AskGemini.accepted. intros H Heq. subst.
  rewrite String.eqb_refl in H. cbn in H.
  rewrite andb_false_r in H. discriminate.
Qed.

Lemma observe_answer question st text a :
  snd (AskGemini.observe question st text) = Some a ->
  a = text /\ AskGemini.accepted question text = true.
Proof.
  unfold AskGemini.observe.
  destruct (AskGemini.accepted question text); [ | discriminate ].
  destruct (AskGemini.same_as_last text (AskGemini.last_text st));
    [ | discriminate ].
  cbn. destruct (AskGemini.stable_count st) as [ | [ | n]]; cbn;
    intros H; inversion H; auto.
Qed.

(** One selector of one poll: its sample, if it shows one, goes through
    [observe]; nothing sleeps and the frame stays. *)
Lemma try_selector_run b question i s st f :
  exists l,
    sleeps l = []
    /\ AskGemini.try_selector b question i s st f
       = (Val (match sample_of b i s with
               | Some t => AskGemini.observe question st t
               | None => (st, None)
               end), f, l).
Proof.
  unfold AskGemini.try_selector, sample_of, try_except, bind, call, ret.
  destruct (query_selector_all b i s) as [elements | msg]; cbn.
  - destruct (rev elements) as [ | latest older]; cbn.
    + exists [QuerySelectorAll s]. auto.
    + destruct (inner_text b i latest) as [raw | msg]; cbn.
      * exists [QuerySelectorAll s; InnerText latest]. auto.
      * exists [QuerySelectorAll s; InnerText latest]. auto.
  - exists [QuerySelectorAll s]. auto.
Qed.

Lemma sleeps_app l1 l2 : sleeps (l1 ++ l2) = sleeps l1 ++ sleeps l2.
Proof. unfold sleeps. apply flat_map_app. Qed.

Lemma scan_selectors_answer b question i sels :
  forall st f st' a,
    outcome (AskGemini.scan_selectors b question i sels st f)
    = Val (st', Some a) ->
    AskGemini.accepted question a = true.
Proof.
  induction sels as [ | s sels IH]; intros st f st' a; cbn [AskGemini.scan_selectors].
  - cbn. discriminate.
  - unfold bind.
    destruct (try_selector_run b question i s st f) as (l & _ & ->).
    destruct (sample_of b i s) as [t | ].
    + destruct (snd (AskGemini.observe question st t)) as [a' | ] eqn:Hobs.
      * cbn. rewrite (surjective_pairing (AskGemini.observe question st t)), Hobs.
        intros H. inversion H; subst.
        now destruct (observe_answer question st t a Hobs) as [-> Hacc].
      * match goal with
        | |- context [AskGemini.scan_selectors b question i sels ?s0 f] =>
            specialize (IH s0 f st' a);
            destruct (AskGemini.scan_selectors b question i sels s0 f)
              as [[o g] l']
        end.
        exact IH.
    + cbn [snd fst].
      specialize (IH st f st' a).
      destruct (AskGemini.scan_selectors b question i sels st f) as [[o g] l'].
      exact IH.
Qed.

Lemma poll_loop_answer b question deadline fuel :
  forall i st f a,
    outcome (AskGemini.poll_loop b question deadline fuel i st f)
    = Val (Some a) ->
    AskGemini.accepted question a = true.
Proof.
  induction fuel as [ | fuel IH]; intros i st f a; cbn [AskGemini.poll_loop].
  - cbn. discriminate.
  - intros H.
    apply bind_val_inv in H. destruct H as (t & _ & H). revert H.
    destruct (t <? deadline); [ | cbn; discriminate ].
    intros H. apply bind_val_inv in H. destruct H as ([] & _ & H).
    apply bind_val_inv in H. destruct H as ([st' ans] & Hscan & H).
    cbn [snd fst] in H. destruct ans as [a' | ].
    + cbn in H. inversion H; subst.
      eapply scan_selectors_answer. exact Hscan.
    + apply bind_val_inv in H. destruct H as ([] & _ & H).
      eapply IH. exact H.
Qed.

Lemma ask_on_page_answer b question headless f a :
  outcome (AskGemini.ask_on_page b question headless f) = Val (Some a) ->
  AskGemini.accepted question a = true.
Proof.
  unfold AskGemini.ask_on_page. intros H.
  do 4 (apply bind_val_inv in H; destruct H as (? & _ & H)).
  match type of H with
  | context [match ?x with Some _ => _ | None => _ end] => destruct x
  end.
  2:{ apply bind_val_inv in H. destruct H as (? & _ & H). discriminate. }
  apply bind_val_inv in H; destruct H as (ws & _ & H).
  destruct ws as [ws | ]; [ | discriminate ].
  apply bind_val_inv in H; destruct H as (d & _ & H).
  destruct d; [ | discriminate ].
  apply bind_val_inv in H; destruct H as (? & _ & H).
  apply bind_val_inv in H; destruct H as (ans & Hans & H).
  destruct ans as [a' | ].
  - cbn in H. inversion H; subst.
    unfold AskGemini.await_answer in Hans.
    apply bind_val_inv in Hans. destruct Hans as (t & _ & Hans).
    eapply poll_loop_answer. exact Hans.
  - apply bind_val_inv in H. destruct H as (? & _ & H). discriminate.
Qed.

(** C8: the answer of [ask_gemini] is never the question: a sample whose
    text is the question leaves the counters as they are and ends no
    poll, and whatever the page shows, an answer that is returned passed
    the test of line 196, so it differs from the question. *)
Theorem question_is_never_the_answer :
  forall (b : Browser) (question : string) (headless : bool) (f : Frame)
         (a : string),
    outcome (AskGemini.ask_gemini b question headless f) = Val (Some a) ->
    a <> question
    /\ AskGemini.accepted question a = true
    /\ forall st, AskGemini.observe question st question = (st, None).
Proof.
  intros b question headless f a H.
  assert (Hacc : AskGemini.accepted question a = true).
  { unfold AskGemini.ask_gemini in H.
    apply bind_val_inv in H. destruct H as (auth & _ & H).
    destruct (negb auth); [ discriminate | ].
    apply bind_val_inv in H. destruct H as (? & _ & H).
    apply bind_val_inv in H. destruct H as (? & _ & H).
    apply try_finally_val_inv in H.
    apply try_except_val_inv in H. destruct H as [H | (e & _ & H)].
    - unfold AskGemini.ask_body in H.
      do 4 (apply bind_val_inv in H; destruct H as (? & _ & H)).
      eapply ask_on_page_answer. exact H.
    - apply bind_val_inv in H. destruct H as (? & _ & H). discriminate. }
  repeat split.
  - apply (accepted_differs _ _ Hacc).
  - exact Hacc.
  - intros st. unfold AskGemini.observe, AskGemini.accepted.
    rewrite String.eqb_refl. cbn. now rewrite andb_false_r.
Qed.

Lemma question_is_never_the_answer_witness :
  "The answer is 4." <> "What is 2+2?"
  /\ AskGemini.accepted "What is 2+2?" "The answer is 4." = true
  /\ forall st, AskGemini.observe "What is 2+2?" st "What is 2+2?" = (st, None).
Proof.
  apply (question_is_never_the_answer
           (steady_page " The answer is 4. ") "What is 2+2?" true
           (start_frame 0) "The answer is 4.").
  vm_compute. reflexivity.
Defined.

(** ** Stability of the sampled text *)

Lemma poll_start_step b k : poll_start b k + 1000 <= poll_start b (S k).
Proof. cbn [poll_start]. lia. Qed.

Lemma poll_start_le b n : forall i, poll_start b i <= poll_start b (i + n).
Proof.
  induction n as [ | n IH]; intros i.
  - rewrite Nat.add_0_r. lia.
  - rewrite Nat.add_succ_r. pose proof (poll_start_step b (i + n)).
    specialize (IH i). lia.
Qed.

Lemma poll_start_lower b k : 1000 * Z.of_nat k <= poll_start b k.
Proof.
  induction k as [ | k IH]; [ cbn; lia | ].
  pose proof (poll_start_step b k). rewrite Nat2Z.inj_succ. lia.
Qed.

Lemma observe_rejected question st text :
  AskGemini.accepted question text = false ->
  AskGemini.observe question st text = (st, None).
Proof. unfold AskGemini.observe. now intros ->. Qed.

(** The counters keep following the accepted samples, and the loop
    breaks exactly when the newest four are the same. *)
Lemma observe_tracks question hist st t :
  tracks hist st ->
  AskGemini.accepted question t = true ->
  exists st',
    AskGemini.observe question st t
    = (st', if four_same (t :: hist) then Some t else None)
    /\ (four_same (t :: hist) = false -> tracks (t :: hist) st').
Proof.
  intros [Hfs Hst] Hacc. unfold AskGemini.observe. rewrite Hacc.
  destruct hist as [ | x older].
  - subst st. cbn. eexists. split; [ reflexivity | ].
    intros _. split; [ reflexivity | cbn; auto ].
  - destruct Hst as [Hl Hc]. rewrite Hl. cbn [AskGemini.same_as_last].
    cbn [four_same run_of].
    destruct (String.eqb t x) eqn:E.
    + apply String.eqb_eq in E. subst x.
      cbn [AskGemini.stable_count]. rewrite Hc.
      eexists. split; [ destruct (3 <=? S (run_of t older))%nat; reflexivity | ].
      intros Hno. split.
      * cbn [four_same run_of]. now rewrite String.eqb_refl.
      * cbn [AskGemini.last_text AskGemini.stable_count run_of].
        rewrite String.eqb_refl. auto.
    + cbn. eexists. split; [ reflexivity | ].
      intros _. split.
      * cbn [four_same run_of]. now rewrite E.
      * cbn [AskGemini.last_text AskGemini.stable_count run_of].
        rewrite E. auto.
Qed.

Lemma scan_selectors_run b question i sels :
  forall st f,
    exists r l,
      sleeps l = []
      /\ AskGemini.scan_selectors b question i sels st f = (Val r, f, l).
Proof.
  induction sels as [ | s sels IH]; intros st f; cbn [AskGemini.scan_selectors].
  - exists (st, None), []. auto.
  - unfold bind.
    destruct (try_selector_run b question i s st f) as (l1 & Hl1 & ->).
    match goal with
    | |- context [snd ?v] => set (r1 := v)
    end.
    destruct (snd r1) as [a | ].
    + cbn. exists r1, (l1 ++ []). rewrite sleeps_app, Hl1. auto.
    + destruct (IH (fst r1) f) as (r2 & l2 & Hl2 & ->).
      exists r2, (l1 ++ l2). rewrite sleeps_app, Hl1, Hl2. auto.
Qed.

Lemma scan_selectors_pure b question i sels :
  forall st f,
    exists l,
      sleeps l = []
      /\ AskGemini.scan_selectors b question i sels st f
         = (Val (scan_samples question (map (sample_of b i) sels) st), f, l).
Proof.
  induction sels as [ | s sels IH]; intros st f;
    cbn [AskGemini.scan_selectors map scan_samples].
  - exists []. auto.
  - unfold bind.
    destruct (try_selector_run b question i s st f) as (l1 & Hl1 & ->).
    match goal with
    | |- context [snd ?v] => set (r1 := v)
    end.
    destruct (snd r1) as [a | ].
    + cbn. exists (l1 ++ []). rewrite sleeps_app, Hl1. auto.
    + destruct (IH (fst r1) f) as (l2 & Hl2 & ->).
      exists (l1 ++ l2). rewrite sleeps_app, Hl1, Hl2. auto.
Qed.

Lemma scan_no_sample b question i sels :
  (forall s, In s sels -> sample_of b i s = None) ->
  forall st f,
    exists l,
      sleeps l = []
      /\ AskGemini.scan_selectors b question i sels st f
         = (Val (st, None), f, l).
Proof.
  induction sels as [ | s sels IH]; intros Hnone st f;
    cbn [AskGemini.scan_selectors].
  - exists []. auto.
  - unfold bind.
    destruct (try_selector_run b question i s st f) as (l1 & Hl1 & ->).
    rewrite (Hnone s (or_introl eq_refl)). cbn [snd fst].
    destruct (IH (fun s' H => Hnone s' (or_intror H)) st f) as (l2 & Hl2 & ->).
    exists (l1 ++ l2). rewrite sleeps_app, Hl1, Hl2. auto.
Qed.

Lemma scan_sole_source b question i st f :
  sole_source b ->
  exists l,
    sleeps l = []
    /\ AskGemini.scan_selectors b question i
         AskGemini.GEMINI_RESPONSE_SELECTORS st f
       = (Val (match sample_of b i PRIMARY with
               | Some t => AskGemini.observe question st t
               | None => (st, None)
               end), f, l).
Proof.
  intros Hsole.
  change AskGemini.GEMINI_RESPONSE_SELECTORS
    with (PRIMARY :: tl AskGemini.GEMINI_RESPONSE_SELECTORS).
  cbn [AskGemini.scan_selectors]. unfold bind.
  destruct (try_selector_run b question i PRIMARY st f) as (l1 & Hl1 & ->).
  match goal with
  | |- context [snd ?v] => set (r1 := v)
  end.
  destruct (snd r1) as [a | ] eqn:Hsnd.
  - cbn. exists (l1 ++ []). rewrite sleeps_app, Hl1. auto.
  - destruct (scan_no_sample b question i
                (tl AskGemini.GEMINI_RESPONSE_SELECTORS)
                (Hsole i) (fst r1) f) as (l2 & Hl2 & ->).
    exists (l1 ++ l2). rewrite sleeps_app, Hl1, Hl2.
    split; [ reflexivity | ].
    rewrite (surjective_pairing r1) at 2. rewrite Hsnd. reflexivity.
Qed.

(** One poll on a page with a single source of samples. *)
Lemma poll_sole_source b question k st f :
  sole_source b ->
  tracks (accepted_before b question k) st ->
  exists st' l,
    sleeps l = []
    /\ AskGemini.scan_selectors b question k
         AskGemini.GEMINI_RESPONSE_SELECTORS st f
       = (Val (st',
               if four_same (accepted_before b question (S k))
               then hd_error (accepted_before b question (S k))
               else None), f, l)
    /\ (four_same (accepted_before b question (S k)) = false ->
        tracks (accepted_before b question (S k)) st').
Proof.
  intros Hsole Htr.
  destruct (scan_sole_source b question k st f Hsole) as (l & Hl & ->).
  cbn [accepted_before].
  destruct (sample_of b k PRIMARY) as [t | ].
  - destruct (AskGemini.accepted question t) eqn:Hacc.
    + destruct (observe_tracks question _ st t Htr Hacc) as (st' & -> & Hnext).
      exists st', l. split; [ exact Hl | ]. split; [ | exact Hnext ].
      destruct (four_same (t :: accepted_before b question k)); reflexivity.
    + rewrite (observe_rejected _ _ _ Hacc).
      exists st, l. rewrite (proj1 Htr).
      split; [ exact Hl | ]. split; [ reflexivity | intros _; exact Htr ].
  - exists st, l. rewrite (proj1 Htr).
    split; [ exact Hl | ]. split; [ reflexivity | intros _; exact Htr ].
Qed.

(** The loop returns at the first poll that completes four equal accepted
    samples, provided that poll starts before the deadline. *)
Lemma poll_loop_returns b question c0 T :
  sole_source b ->
  forall n i st f fuel,
    tracks (accepted_before b question i) st ->
    clock f = c0 + poll_start b i ->
    poll_start b (i + n) < 120000 ->
    (forall j, (i <= j < i + n)%nat ->
               four_same (accepted_before b question (S j)) = false) ->
    four_same (accepted_before b question (S (i + n))) = true ->
    hd_error (accepted_before b question (S (i + n))) = Some T ->
    (n < fuel)%nat ->
    exists l,
      AskGemini.poll_loop b question (c0 + 120000) fuel i st f
      = (Val (Some T),
         at_clock f (c0 + poll_start b (i + n)
                     + Z.max 0 (poll_busy b (i + n))), l)
      /\ sleeps l = repeat 1000 n.
Proof.
  intros Hsole. induction n as [ | n IH];
    intros i st f fuel Htr Hclk Hdl Hbefore Hnow Hhd Hfuel;
    (destruct fuel as [ | fuel]; [ lia | ]);
    cbn [AskGemini.poll_loop]; unfold bind at 1, time_time at 1.
  - rewrite Nat.add_0_r in *.
    assert (Hlt : (clock f <? c0 + 120000) = true) by (apply Z.ltb_lt; lia).
    rewrite Hlt. unfold bind, elapse.
    match goal with
    | |- context [AskGemini.scan_selectors b question i _ st ?g] =>
        destruct (poll_sole_source b question i st g Hsole Htr)
          as (st' & l & Hl & -> & _)
    end.
    rewrite Hnow, Hhd. cbn. exists l. rewrite app_nil_r.
    split; [ | exact Hl ].
    unfold at_clock. rewrite Hclk. reflexivity.
  - assert (Hi : poll_start b i <= poll_start b (i + S n))
      by apply poll_start_le.
    replace (i + S n)%nat with (S i + n)%nat in Hdl, Hnow, Hhd, Hi |- *
      by lia.
    assert (Hlt : (clock f <? c0 + 120000) = true) by (apply Z.ltb_lt; lia).
    rewrite Hlt. unfold bind at 1, elapse at 1. unfold bind at 1.
    match goal with
    | |- context [AskGemini.scan_selectors b question i _ st ?g] =>
        destruct (poll_sole_source b question i st g Hsole Htr)
          as (st' & l & Hl & -> & Hnext)
    end.
    assert (Hno : four_same (accepted_before b question (S i)) = false)
      by (apply Hbefore; lia).
    rewrite Hno. cbn [snd fst]. unfold bind at 1, sleep at 1.
    match goal with
    | |- context [AskGemini.poll_loop b question _ fuel (S i) st' ?g] =>
        destruct (IH (S i) st' g fuel (Hnext Hno)) as (l' & -> & Hl')
    end.
    + cbn [clock poll_start]. lia.
    + exact Hdl.
    + intros j Hj. apply Hbefore. lia.
    + exact Hnow.
    + exact Hhd.
    + lia.
    + exists (l ++ Sleep 1000 :: l'). split.
      * reflexivity.
      * rewrite sleeps_app, Hl.
        change (sleeps (Sleep 1000 :: l')) with (1000 :: sleeps l').
        now rewrite Hl'.
Qed.

(** The loop gives up when no poll before the deadline completes four
    equal accepted samples. *)
Lemma poll_loop_gives_up b question c0 :
  sole_source b ->
  (forall j, poll_start b j < 120000 ->
             four_same (accepted_before b question (S j)) = false) ->
  forall fuel i st f,
    tracks (accepted_before b question i) st ->
    clock f = c0 + poll_start b i ->
    outcome (AskGemini.poll_loop b question (c0 + 120000) fuel i st f)
    = Val None.
Proof.
  intros Hsole Hnever. induction fuel as [ | fuel IH];
    intros i st f Htr Hclk; cbn [AskGemini.poll_loop]; [ reflexivity | ].
  unfold bind at 1, time_time at 1.
  destruct (clock f <? c0 + 120000) eqn:Hlt; [ | reflexivity ].
  apply Z.ltb_lt in Hlt.
  unfold bind at 1, elapse at 1. unfold bind at 1.
  match goal with
  | |- context [AskGemini.scan_selectors b question i _ st ?g] =>
      destruct (poll_sole_source b question i st g Hsole Htr)
        as (st' & l & Hl & -> & Hnext)
  end.
  assert (Hno : four_same (accepted_before b question (S i)) = false)
    by (apply Hnever; lia).
  rewrite Hno. cbn [snd fst]. unfold bind at 1, sleep at 1.
  match goal with
  | |- context [AskGemini.poll_loop b question _ fuel (S i) st' ?g] =>
      specialize (IH (S i) st' g (Hnext Hno));
      destruct (AskGemini.poll_loop b question (c0 + 120000) fuel (S i) st' g)
        as [[o g'] l']
  end.
  cbn in *. apply IH. lia.
Qed.

(** One turn of the [while] loop. *)
Lemma poll_loop_unfold b question deadline fuel i st f :
  AskGemini.poll_loop b question deadline (S fuel) i st f =
    if clock f <? deadline then
      let s := AskGemini.scan_selectors b question i
                 AskGemini.GEMINI_RESPONSE_SELECTORS st
                 (at_clock f (clock f + Z.max 0 (poll_busy b i))) in
      match outcome s with
      | Val r =>
          match snd r with
          | Some a => (Val (Some a), frame_of s, events s)
          | None =>
              let p := AskGemini.poll_loop b question deadline fuel (S i)
                         (fst r)
                         (at_clock (frame_of s) (clock (frame_of s) + 1000)) in
              (outcome p, frame_of p, events s ++ Sleep 1000 :: events p)
          end
      | Exc e => (Exc e, frame_of s, events s)
      end
    else (Val None, f, []).
Proof.
  cbn [AskGemini.poll_loop]. unfold bind at 1, time_time at 1.
  destruct (clock f <? deadline); [ | reflexivity ].
  unfold bind at 1, elapse at 1. unfold bind at 1.
  fold (at_clock f (clock f + Z.max 0 (poll_busy b i))).
  cbn zeta.
  destruct (AskGemini.scan_selectors b question i
              AskGemini.GEMINI_RESPONSE_SELECTORS st
              (at_clock f (clock f + Z.max 0 (poll_busy b i))))
    as [[[r | e] g] l]; proj_run; [ | reflexivity ].
  destruct (snd r) as [a | ].
  - cbn. now rewrite app_nil_r.
  - unfold bind at 1, sleep at 1.
    fold (at_clock g (clock g + 1000)).
    destruct (AskGemini.poll_loop b question deadline fuel (S i) (fst r)
                (at_clock g (clock g + 1000))) as [[o g'] l'].
    reflexivity.
Qed.

(** The 121 turns of [await_answer] are enough: the deadline ends the
    loop before they run out, so more turns change nothing. *)
Lemma poll_loop_fuel_adequate b question c0 :
  forall fuel1 fuel2 i st f,
    clock f = c0 + poll_start b i ->
    (120 < i + fuel1)%nat -> (120 < i + fuel2)%nat ->
    AskGemini.poll_loop b question (c0 + 120000) fuel1 i st f
    = AskGemini.poll_loop b question (c0 + 120000) fuel2 i st f.
Proof.
  assert (Hlate : forall fuel i st f,
             clock f = c0 + poll_start b i -> (120 < i)%nat ->
             AskGemini.poll_loop b question (c0 + 120000) fuel i st f
             = (Val None, f, [])).
  { intros [ | fuel] i st f Hclk Hi; [ reflexivity | ].
    rewrite poll_loop_unfold.
    pose proof (poll_start_lower b i) as Hlow.
    assert (Hge : (clock f <? c0 + 120000) = false) by (apply Z.ltb_ge; lia).
    now rewrite Hge. }
  induction fuel1 as [ | fuel1 IH]; intros fuel2 i st f Hclk H1 H2.
  - rewrite !Hlate by (auto; lia). reflexivity.
  - destruct fuel2 as [ | fuel2].
    + rewrite !Hlate by (auto; lia). reflexivity.
    + rewrite !poll_loop_unfold.
      destruct (clock f <? c0 + 120000) eqn:Hlt; [ | reflexivity ].
      apply Z.ltb_lt in Hlt. cbn zeta.
      destruct (scan_selectors_run b question i
                  AskGemini.GEMINI_RESPONSE_SELECTORS st
                  (at_clock f (clock f + Z.max 0 (poll_busy b i))))
        as (r & l & _ & ->).
      proj_run. destruct (snd r) as [a | ]; [ reflexivity | ].
      rewrite (IH fuel2 (S i) (fst r)); [ reflexivity | | lia | lia ].
      cbn [at_clock clock poll_start]. lia.
Qed.

Lemma await_answer_unfold b question f :
  AskGemini.await_answer b question f
  = AskGemini.poll_loop b question (clock f + 120000) 121 0 AskGemini.fresh f.
Proof.
  unfold AskGemini.await_answer, bind, time_time.
  destruct (AskGemini.poll_loop b question (clock f + 120000) 121 0
              AskGemini.fresh f) as [[o g] l].
  reflexivity.
Qed.

Lemma await_answer_returns b question f k T :
  sole_source b ->
  poll_start b k < 120000 ->
  (forall j, (j < k)%nat ->
             four_same (accepted_before b question (S j)) = false) ->
  four_same (accepted_before b question (S k)) = true ->
  hd_error (accepted_before b question (S k)) = Some T ->
  exists l,
    AskGemini.await_answer b question f
    = (Val (Some T),
       at_clock f (clock f + poll_start b k + Z.max 0 (poll_busy b k)), l)
    /\ sleeps l = repeat 1000 k.
Proof.
  intros Hsole Hdl Hbefore Hnow Hhd.
  unfold AskGemini.await_answer, bind, time_time.
  pose proof (poll_start_lower b k) as Hlow.
  destruct (poll_loop_returns b question (clock f) T Hsole k 0%nat
              AskGemini.fresh f 121%nat) as (l & -> & Hl); cbn [Nat.add]; auto.
  - split; reflexivity.
  - cbn. lia.
  - intros j Hj. apply Hbefore. lia.
  - lia.
  - exists l. auto.
Qed.

Lemma no_repeat_no_four (hist : list string) :
  (forall t t' older, hist = t :: t' :: older -> t <> t') ->
  four_same hist = false.
Proof.
  intros Hdiff. destruct hist as [ | t [ | t' older]]; try reflexivity.
  cbn [four_same run_of].
  destruct (String.eqb t t') eqn:E; [ | reflexivity ].
  apply String.eqb_eq in E. now destruct (Hdiff t t' older eq_refl).
Qed.

(** C2, as the code has it: on a page where only the first response
    selector shows a text, the polling loop returns a text exactly at the
    first poll that makes the four newest accepted samples equal (a
    sample is accepted when it is not empty, is not the question and is
    longer than 10 characters; the others are skipped), after one sleep
    of a second per earlier poll, provided that poll starts before the
    deadline of 120 seconds; and it returns [None] when no poll before
    the deadline does so, in particular when every accepted sample
    differs from the accepted sample before it. *)
Theorem stable_after_four_equal_samples :
  forall (b : Browser) (question : string) (f : Frame),
    sole_source b ->
    (forall k T,
        poll_start b k < 120000 ->
        (forall j, (j < k)%nat ->
                   four_same (accepted_before b question (S j)) = false) ->
        four_same (accepted_before b question (S k)) = true ->
        hd_error (accepted_before b question (S k)) = Some T ->
        let r := AskGemini.await_answer b question f in
        outcome r = Val (Some T)
        /\ sleeps (events r) = repeat 1000 k
        /\ clock (frame_of r)
           = clock f + poll_start b k + Z.max 0 (poll_busy b k))
    /\ ((forall k, poll_start b k < 120000 ->
                   four_same (accepted_before b question (S k)) = false) ->
        outcome (AskGemini.await_answer b question f) = Val None)
    /\ ((forall k t t' older,
            accepted_before b question k = t :: t' :: older -> t <> t') ->
        outcome (AskGemini.await_answer b question f) = Val None).
Proof.
  intros b question f Hsole.
  assert (Hnone : (forall k, poll_start b k < 120000 ->
                     four_same (accepted_before b question (S k)) = false) ->
                  outcome (AskGemini.await_answer b question f) = Val None).
  { intros Hnever. unfold AskGemini.await_answer. rewrite bind_run.
    cbn [time_time outcome frame_of events fst snd]. proj_run.
    apply (poll_loop_gives_up b question (clock f) Hsole Hnever).
    - split; reflexivity.
    - cbn. lia. }
  repeat apply conj.
  - intros k T Hdl Hbefore Hnow Hhd.
    destruct (await_answer_returns b question f k T Hsole Hdl Hbefore Hnow Hhd)
      as (l & Hrun & Hl).
    cbn zeta. rewrite Hrun. proj_run. auto.
  - exact Hnone.
  - intros Hdiff. apply Hnone. intros k _.
    apply no_repeat_no_four. apply Hdiff.
Qed.

Lemma primary_only_sole texts : sole_source (page_with primary_only texts).
Proof.
  intros i s Hs. cbn in Hs.
  repeat destruct Hs as [<- | Hs]; try reflexivity. destruct Hs.
Qed.

Lemma stable_after_four_equal_samples_witness :
  let b := streaming_page [""; "Hello, wor"] "Hello, world!" in
  let r := AskGemini.await_answer b "Say hello" (start_frame 0) in
  outcome r = Val (Some "Hello, world!")
  /\ sleeps (events r) = repeat 1000 5
  /\ clock (frame_of r) = 0 + poll_start b 5 + Z.max 0 (poll_busy b 5).
Proof.
  refine (proj1 (stable_after_four_equal_samples
                   (streaming_page [""; "Hello, wor"] "Hello, world!")
                   "Say hello" (start_frame 0) (primary_only_sole _))
                5%nat "Hello, world!" _ _ _ _).
  - reflexivity.
  - intros j Hj.
    destruct j as [ | [ | [ | [ | [ | j]]]]]; try reflexivity. lia.
  - reflexivity.
  - reflexivity.
Defined.

(** C2 as the specification words it does not hold: texts of at most 10
    characters are never accepted, so the samples of the example never
    become stable; three equal accepted samples are not enough; and when
    several selectors show the text, a text that changes at every poll is
    returned all the same. *)
Lemma three_equal_samples_are_not_enough :
  outcome (AskGemini.await_answer (streaming_page [""; "Hel"] "Hello")
             "Say hello" (start_frame 0)) = Val None
  /\ outcome (AskGemini.await_answer restless_page "Say hello"
                (start_frame 0)) = Val None
  /\ outcome (AskGemini.await_answer echoing_page "Say hello"
                (start_frame 0)) = Val (Some "partial answer, poll 0").
Proof. repeat split; vm_compute; reflexivity. Qed.

(** ** The end-to-end text flow *)

Lemma run_of_repeat t k : run_of t (repeat t k) = k.
Proof. induction k; cbn; [ reflexivity | ]. now rewrite String.eqb_refl, IHk. Qed.

Lemma steady_page_samples raw question k :
  AskGemini.accepted question (PyStr.strip raw) = true ->
  accepted_before (steady_page raw) question k = repeat (PyStr.strip raw) k.
Proof.
  intros Hacc. induction k as [ | k IH]; [ reflexivity | ].
  assert (Hs : sample_of (steady_page raw) k PRIMARY = Some (PyStr.strip raw))
    by reflexivity.
  cbn [accepted_before]. now rewrite Hs, Hacc, IH.
Qed.

Lemma steady_page_answer raw question f :
  AskGemini.accepted question (PyStr.strip raw) = true ->
  exists l,
    AskGemini.await_answer (steady_page raw) question f
    = (Val (Some (PyStr.strip raw)), at_clock f (clock f + 3000), l)
    /\ sleeps l = [1000; 1000; 1000].
Proof.
  intros Hacc.
  destruct (await_answer_returns (steady_page raw) question f 3
              (PyStr.strip raw) (primary_only_sole _)) as (l & Hrun & Hl).
  - reflexivity.
  - intros j Hj. rewrite (steady_page_samples _ _ _ Hacc).
    cbn [repeat four_same]. rewrite run_of_repeat.
    apply Nat.leb_gt. lia.
  - rewrite (steady_page_samples _ _ _ Hacc).
    cbn [repeat four_same run_of]. now rewrite !String.eqb_refl.
  - now rewrite (steady_page_samples _ _ _ Hacc).
  - exists l. split; [ | exact Hl ].
    rewrite Hrun. do 2 f_equal. unfold at_clock. f_equal. cbn. lia.
Qed.

Lemma accepted_truthy question text :
  AskGemini.accepted question text = true -> PyStr.truthy text = true.
Proof.
  unfold AskGemini.accepted. intros H.
  apply andb_prop in H. destruct H as [H _].
  apply andb_prop in H. tauto.
Qed.

(** C1, as the code has it: when the newest response element shows, at
    every poll, a text that is accepted (not empty once stripped, not the
    question, longer than 10 characters), [ask_gemini] returns that text
    at the fourth poll, that is after three sleeps of one second that
    follow the page-load and focus sleeps, and [main] exits with code
    0. *)
Theorem steady_answer_comes_back_after_three_seconds :
  forall (raw question : string) (show_browser : bool) (t0 : Z),
    AskGemini.accepted question (PyStr.strip raw) = true ->
    let r := AskGemini.ask_gemini (steady_page raw) question
               (negb show_browser) (start_frame t0) in
    outcome r = Val (Some (PyStr.strip raw))
    /\ sleeps (events r) = [3000; 500; 1000; 1000; 1000]
    /\ outcome (AskGemini.main (steady_page raw) question show_browser
                  (start_frame t0)) = Val 0.
Proof.
  intros raw question show_browser t0 Hacc.
  assert (Hrun : exists l g,
             AskGemini.ask_gemini (steady_page raw) question
               (negb show_browser) (start_frame t0)
             = (Val (Some (PyStr.strip raw)), g, l)
             /\ sleeps l = [3000; 500; 1000; 1000; 1000]).
  { unfold AskGemini.ask_gemini, AskGemini.ask_body, AskGemini.ask_on_page,
      AskGemini.find_input, AskGemini.deliver,
      BrowserFactory.launch_persistent_context,
      BrowserFactory._inject_cookies, cleanup.
    unfold bind, try_finally, try_except, call, sleep, ret, when,
      set_playwright, set_context, get_playwright, get_context, is_some.
    cbn -[AskGemini.await_answer].
    match goal with
    | |- context [AskGemini.await_answer _ question ?g] =>
        destruct (steady_page_answer raw question g Hacc) as (l & -> & Hl)
    end.
    cbn. do 2 eexists. split; [ reflexivity | ].
    cbn. rewrite !sleeps_app, Hl. reflexivity. }
  destruct Hrun as (l & g & Hrun & Hl).
  cbn zeta. rewrite Hrun. proj_run. repeat split; auto.
  unfold AskGemini.main, bind. rewrite Hrun.
  now rewrite (accepted_truthy _ _ Hacc).
Qed.

Lemma steady_answer_comes_back_after_three_seconds_witness :
  let r := AskGemini.ask_gemini (steady_page "The answer is 4.")
             "What is 2+2?" (negb false) (start_frame 0) in
  outcome r = Val (Some (PyStr.strip "The answer is 4."))
  /\ sleeps (events r) = [3000; 500; 1000; 1000; 1000]
  /\ outcome (AskGemini.main (steady_page "The answer is 4.") "What is 2+2?"
                false (start_frame 0)) = Val 0.
Proof.
  apply (steady_answer_comes_back_after_three_seconds
           "The answer is 4." "What is 2+2?" false 0).
  reflexivity.
Defined.

(** C1 as the specification words it does not hold: the text ["4"] has
    one character, line 196 asks for more than 10, so the sample is
    shown at every poll and never accepted; the loop runs into the
    deadline and the exit code is 1.  Nor are three polls enough for a
    longer text: one that is shown at three polls and changes afterwards
    is not returned. *)
Lemma one_character_answer_times_out :
  outcome (AskGemini.ask_gemini (steady_page "4") "What is 2+2?" true
             (start_frame 0)) = Val None
  /\ outcome (AskGemini.main (steady_page "4") "What is 2+2?" false
                (start_frame 0)) = Val 1
  /\ sleeps (events (AskGemini.await_answer (steady_page "4") "What is 2+2?"
                       (start_frame 0))) = repeat 1000 120
  /\ sample_of (steady_page "4") 0 PRIMARY = Some "4"
  /\ sample_of (steady_page "4") 1 PRIMARY = Some "4"
  /\ sample_of (steady_page "4") 2 PRIMARY = Some "4"
  /\ outcome (AskGemini.ask_gemini restless_page "Say hello" true
                (start_frame 0)) = Val None.
Proof. repeat split; vm_compute; reflexivity. Qed.

(** ** Several selectors on one text *)

Lemma sample_of_last b i s els latest raw :
  query_selector_all b i s = Val (els ++ [latest]) ->
  inner_text b i latest = Val raw ->
  sample_of b i s = Some (PyStr.strip raw).
Proof.
  intros Hq Ht. unfold sample_of. rewrite Hq, rev_unit, Ht. reflexivity.
Qed.

Lemma observe_repeat question st t :
  AskGemini.accepted question t = true ->
  AskGemini.last_text st = Some t ->
  AskGemini.observe question st t
  = ({| AskGemini.stable_count := S (AskGemini.stable_count st);
        AskGemini.last_text := Some t |},
     if (3 <=? S (AskGemini.stable_count st))%nat then Some t else None).
Proof.
  intros Hacc Hl. unfold AskGemini.observe. rewrite Hacc, Hl.
  cbn [AskGemini.same_as_last]. rewrite String.eqb_refl.
  cbn [AskGemini.stable_count].
  destruct (3 <=? S (AskGemini.stable_count st))%nat; reflexivity.
Qed.

Lemma observe_first question st t :
  AskGemini.accepted question t = true ->
  AskGemini.last_text st = None ->
  AskGemini.observe question st t
  = ({| AskGemini.stable_count := 0; AskGemini.last_text := Some t |}, None).
Proof.
  intros Hacc Hl. unfold AskGemini.observe. now rewrite Hacc, Hl.
Qed.

(** C10: the counters of the polling loop are handed from one response
    selector to the next inside a poll, and every selector whose newest
    element shows the accepted text already held in [last_text] adds one
    to the count; so when the first four response selectors show the
    same accepted text at the first poll, the count reaches 3 inside
    that poll and the text is returned without a single sleep. *)
Theorem one_poll_can_reach_the_threshold :
  forall (b : Browser) (question raw : string) (f : Frame),
    AskGemini.accepted question (PyStr.strip raw) = true ->
    (forall i s st els latest,
        query_selector_all b i s = Val (els ++ [latest]) ->
        inner_text b i latest = Val raw ->
        AskGemini.last_text st = Some (PyStr.strip raw) ->
        exists st' answer,
          outcome (AskGemini.try_selector b question i s st f)
          = Val (st', answer)
          /\ AskGemini.stable_count st' = S (AskGemini.stable_count st)
          /\ AskGemini.last_text st' = AskGemini.last_text st)
    /\ ((forall s, In s (firstn 4 AskGemini.GEMINI_RESPONSE_SELECTORS) ->
                   exists els latest,
                     query_selector_all b 0 s = Val (els ++ [latest])
                     /\ inner_text b 0 latest = Val raw) ->
        let r := AskGemini.await_answer b question f in
        outcome r = Val (Some (PyStr.strip raw))
        /\ sleeps (events r) = []
        /\ clock (frame_of r) = clock f + Z.max 0 (poll_busy b 0)).
Proof.
  intros b question raw f Hacc. split.
  - intros i s st els latest Hq Ht Hlast.
    destruct (try_selector_run b question i s st f) as (l & _ & ->).
    rewrite (sample_of_last _ _ _ _ _ _ Hq Ht).
    rewrite (observe_repeat _ _ _ Hacc Hlast). proj_run.
    do 2 eexists. split; [ reflexivity | ]. cbn. auto.
  - intros Hfour.
    assert (Hs : forall s,
               In s (firstn 4 AskGemini.GEMINI_RESPONSE_SELECTORS) ->
               sample_of b 0 s = Some (PyStr.strip raw)).
    { intros s Hin. destruct (Hfour s Hin) as (els & latest & Hq & Ht).
      eapply sample_of_last; eassumption. }
    cbn in Hs.
    assert (Hscan : forall rest,
               scan_samples question
                 (Some (PyStr.strip raw) :: Some (PyStr.strip raw)
                    :: Some (PyStr.strip raw) :: Some (PyStr.strip raw)
                    :: rest) AskGemini.fresh
               = ({| AskGemini.stable_count := 3;
                     AskGemini.last_text := Some (PyStr.strip raw) |},
                  Some (PyStr.strip raw))).
    { intros rest. cbn [scan_samples].
      rewrite (observe_first question AskGemini.fresh _ Hacc eq_refl).
      cbn [snd fst].
      rewrite (observe_repeat question _ _ Hacc) by reflexivity.
      cbn [snd fst AskGemini.stable_count Nat.leb].
      rewrite (observe_repeat question _ _ Hacc) by reflexivity.
      cbn [snd fst AskGemini.stable_count Nat.leb].
      rewrite (observe_repeat question _ _ Hacc) by reflexivity.
      reflexivity. }
    rewrite await_answer_unfold, poll_loop_unfold.
    assert (Hlt : (clock f <? clock f + 120000) = true)
      by (apply Z.ltb_lt; lia).
    rewrite Hlt. cbn zeta.
    destruct (scan_selectors_pure b question 0
                AskGemini.GEMINI_RESPONSE_SELECTORS AskGemini.fresh
                (at_clock f (clock f + Z.max 0 (poll_busy b 0))))
      as (l & Hl & ->).
    proj_run. unfold AskGemini.GEMINI_RESPONSE_SELECTORS. cbn [map].
    rewrite !Hs by tauto. rewrite Hscan. cbn [snd]. proj_run.
    repeat split. exact Hl.
Qed.

Lemma one_poll_can_reach_the_threshold_witness :
  let r := AskGemini.await_answer echoing_page "Say hello" (start_frame 0) in
  outcome r = Val (Some (PyStr.strip "partial answer, poll 0"))
  /\ sleeps (events r) = []
  /\ clock (frame_of r) = 0 + Z.max 0 (poll_busy echoing_page 0).
Proof.
  refine (proj2 (one_poll_can_reach_the_threshold
                   echoing_page "Say hello" "partial answer, poll 0"
                   (start_frame 0) _) _).
  - reflexivity.
  - intros s _. exists [], 2%nat. split; reflexivity.
Defined.

(** ** Long prompts *)

Lemma find_actual_input_run b sels :
  forall f,
    GenerateImage.find_actual_input b sels f
    = (Val (first_found b sels), f, map QuerySelector (queried b sels)).
Proof.
  induction sels as [ | s sels IH]; intros f; [ reflexivity | ].
  cbn [GenerateImage.find_actual_input first_found queried].
  unfold query_hit, try_except, bind, call, ret.
  destruct (query_selector b s) as [[a | ] | msg]; cbn; try reflexivity;
    rewrite IH; reflexivity.
Qed.

(** C3, as the code has it: [generate_image] checks the length of the
    prompt after it clicked the input element.  A prompt longer than 100
    characters is handed to [fill], on the first element that the four
    inner selectors find, without any typing; it is typed (10 ms per
    key) only when none of them finds an element.  A prompt of at most
    100 characters is typed (20 ms per key).  [ask_gemini] has no such
    test: whatever the length of the question, it types it first. *)
Theorem long_prompt_is_filled_by_generate_image :
  forall (b : Browser) (e : Element) (prompt : string) (debug : bool)
         (f : Frame),
    click b e = Val tt ->
    let r := GenerateImage.type_prompt b e prompt debug f in
    let tried :=
      map QuerySelector (queried b GenerateImage.actual_input_selectors) in
    ((100 < String.length prompt)%nat ->
     match first_found b GenerateImage.actual_input_selectors with
     | Some a =>
         events r =
           [Click e; Sleep 500] ++ tried
             ++ Fill a prompt
                  :: (if is_val (fill b a prompt)
                      then [Sleep (if debug then 10000 else 1000)] else [])
     | None =>
         events r = [Click e; Sleep 500] ++ tried ++ [TypeText e prompt 10]
     end)
    /\ ((String.length prompt <= 100)%nat ->
        events r = [Click e; Sleep 500; TypeText e prompt 20])
    /\ (forall ws,
           firstn 3 (events (AskGemini.deliver b e ws prompt f))
           = [Click e; Sleep 500; TypeText e prompt 50]).
Proof.
  intros b e prompt debug f Hclick. cbn zeta. repeat apply conj.
  - intros Hlong. apply Nat.ltb_lt in Hlong.
    assert (Hrun : forall g,
               GenerateImage.type_prompt b e prompt debug g
               = try_except
                   (call (Click e) (Val tt) ;;
                    sleep 500 ;;
                    (actual_input <-
                       GenerateImage.find_actual_input b
                         GenerateImage.actual_input_selectors ;;
                     match actual_input with
                     | Some a =>
                         call (Fill a prompt) (fill b a prompt) ;;
                         if debug then sleep 10000 else sleep 1000
                     | None =>
                         call (TypeText e prompt 10) (type_text b e prompt)
                     end) ;;
                    ret true)
                   (fun _ => ret false) g).
    { intros g. unfold GenerateImage.type_prompt. now rewrite Hclick, Hlong. }
    rewrite Hrun. clear Hrun.
    unfold try_except, bind, call, sleep, ret, events.
    cbn -[GenerateImage.find_actual_input queried first_found].
    rewrite find_actual_input_run.
    destruct (first_found b GenerateImage.actual_input_selectors) as [a | ].
    + destruct (fill b a prompt) as [[] | msg]; [ destruct debug | ];
        cbn -[queried]; rewrite ?app_nil_r, <- ?app_assoc; reflexivity.
    + destruct (type_text b e prompt) as [[] | msg];
        cbn -[queried]; rewrite ?app_nil_r, <- ?app_assoc; reflexivity.
  - intros Hshort. apply Nat.ltb_ge in Hshort.
    unfold GenerateImage.type_prompt, try_except, bind, call, sleep, ret,
      events.
    rewrite Hclick, Hshort. cbn.
    destruct (type_text b e prompt) as [[] | msg]; reflexivity.
  - intros ws.
    unfold AskGemini.deliver, try_except, bind, call, sleep, ret, events.
    rewrite Hclick. cbn.
    destruct (type_text b e prompt) as [[] | msg]; cbn; [ reflexivity | ].
    destruct (fill b e prompt) as [[] | msg']; cbn; [ reflexivity | ].
    destruct (evaluate b ws prompt) as [[] | msg'']; reflexivity.
Qed.

Lemma long_prompt_is_filled_by_generate_image_witness :
  events (GenerateImage.type_prompt (gallery_page []) 7%nat long_prompt false
            (start_frame 0))
  = [Click 7%nat; Sleep 500]
      ++ map QuerySelector
           (queried (gallery_page []) GenerateImage.actual_input_selectors)
      ++ Fill 8%nat long_prompt
           :: (if is_val (fill (gallery_page []) 8%nat long_prompt)
               then [Sleep (if false then 10000 else 1000)] else []).
Proof.
  refine (proj1 (long_prompt_is_filled_by_generate_image
                   (gallery_page []) 7%nat long_prompt false (start_frame 0) _)
                _).
  - reflexivity.
  - apply Nat.ltb_lt. vm_compute. reflexivity.
Defined.

(** C3 as the specification words it does not hold: [ask_gemini] types a
    question of 132 characters key by key and never calls [fill], and
    [generate_image] types a prompt of that length when no inner input
    element is found. *)
Lemma long_text_is_typed_all_the_same :
  (100 <? String.length long_prompt)%nat = true
  /\ events (AskGemini.deliver (steady_page "The answer is 4.") 7%nat
               "rich-textarea" long_prompt (start_frame 0))
     = [Click 7%nat; Sleep 500; TypeText 7%nat long_prompt 50]
  /\ events (GenerateImage.type_prompt (steady_page "The answer is 4.") 7%nat
               long_prompt false (start_frame 0))
     = [Click 7%nat; Sleep 500]
         ++ map QuerySelector GenerateImage.actual_input_selectors
         ++ [TypeText 7%nat long_prompt 10].
Proof. repeat split; vm_compute; reflexivity. Qed.

(** ** A run of the image flow *)

(** Three containers, the second with a download that never starts: the
    images are found at the fourth attempt, the second container is
    saved as a screenshot stamped half a minute after the first file,
    and the exit code is 0. *)
Example generate_image_on_gallery :
  let b := gallery_page [downloadable 1%nat ".jpg"; stuck_download 2%nat;
                         downloadable 3%nat ".webp"] in
  let r := GenerateImage.generate_image b long_prompt "out" true false
             (start_frame 1700000000000) in
  outcome r
  = Val (Some [ {| sp_dir := "out"; sp_name := "gemini_image_1_1700000042.jpg" |};
                {| sp_dir := "out"; sp_name := "gemini_image_2_1700000073.png" |};
                {| sp_dir := "out"; sp_name := "gemini_image_3_1700000074.webp" |} ])
  /\ sleeps (events r)
     = [5000; 500; 1000; 2000; 5000; 1000; 1000; 1000]
  /\ outcome (GenerateImage.main b long_prompt "out" true false
                (start_frame 1700000000000)) = Val 0.
Proof. repeat split; vm_compute; reflexivity. Qed.

(** * More of the code *)

(** ** [browser_utils.py] *)

(** X1: [_inject_cookies] raises exactly when [STATE_FILE.exists()]
    raises, and then with that exception: the test stands outside the
    [try].  Whatever goes wrong after it (opening or parsing the file,
    [add_cookies]) is swallowed.  It leaves the frame alone, reads the
    file exactly when the test says it exists, and calls [add_cookies]
    exactly when the file exists, parses and has a non-empty
    ['cookies'] entry, and then with that entry. *)
Theorem inject_cookies_raises_only_at_the_existence_test :
  forall (b : Browser) (f : Frame),
    let r := BrowserFactory._inject_cookies b f in
    outcome r = match state_file_exists b with
                | Val _ => Val tt
                | Exc msg => Exc msg
                end
    /\ frame_of r = f
    /\ (forall n, In (AddCookies n) (events r)
                  <-> state_file_exists b = Val true
                      /\ state_file b = Val (Some n) /\ (0 < n)%nat)
    /\ (In ReadStateFile (events r) <-> state_file_exists b = Val true)
    /\ (is_val (state_file_exists b) = false ->
        events r = [StateFileExists]).
Proof.
  intros b f. unfold BrowserFactory._inject_cookies, try_except, bind, call, ret.
  destruct (state_file_exists b) as [[ | ] | msg0]; cbn;
    try (destruct (state_file b) as [[[ | n] | ] | msg]; cbn;
         try destruct (add_cookies b) as [[] | msg']; cbn);
    repeat split; intros;
    repeat match goal with
           | H : _ \/ _ |- _ => destruct H
           | H : _ /\ _ |- _ => destruct H
           | H : False |- _ => destruct H
           | H : AddCookies _ = AddCookies _ |- _ => inversion H; clear H; subst
           | H : Val _ = Val _ |- _ => inversion H; clear H; subst
           end;
    try discriminate; try lia; auto.
Qed.

(** X2: [launch_persistent_context] launches first, with the
    [executable_path] entry set to what [get_chrome_path] found when
    that is a non-empty string and left out otherwise.  It returns the
    context exactly when the launch and the existence test of the state
    file both returned; a state file that cannot be read or cookies that
    are refused do not make it fail.  When the launch raised, the state
    file is not looked at. *)
Theorem launch_fails_with_the_launch_or_the_existence_test :
  forall (b : Browser) (headless : bool) (f : Frame),
    let r := BrowserFactory.launch_persistent_context b headless f in
    let found := BrowserUtils.get_chrome_path (host b) in
    (exists path l,
        events r = ChromiumLaunch headless path :: l
        /\ (forall p, path = Some p <-> found = Some p /\ p <> "")
        /\ (is_val (chromium_launch b) = false -> l = [])
        /\ Forall (fun e => e = StateFileExists \/ e = ReadStateFile
                            \/ exists n, e = AddCookies n) l)
    /\ (outcome r = Val BrowserContext
        <-> is_val (chromium_launch b) = true
            /\ is_val (state_file_exists b) = true)
    /\ frame_of r = f.
Proof.
  intros b headless f. cbn zeta.
  assert (Hpath : forall p,
             BrowserFactory.executable_path b = Some p
             <-> BrowserUtils.get_chrome_path (host b) = Some p /\ p <> "").
  { intros p. unfold BrowserFactory.executable_path.
    destruct (BrowserUtils.get_chrome_path (host b)) as [[ | c q] | ]; cbn.
    - split; [ discriminate | ].
      intros [H Hne]. inversion H. subst. congruence.
    - split; [ | tauto ].
      intros H. inversion H. subst. split; [ reflexivity | discriminate ].
    - split; [ discriminate | intros [H _]; discriminate ]. }
  unfold BrowserFactory.launch_persistent_context,
    BrowserFactory._inject_cookies, try_except, bind, call, ret.
  destruct (chromium_launch b) as [[] | msg]; cbn.
  - destruct (state_file_exists b) as [[ | ] | msg0]; cbn;
      try (destruct (state_file b) as [[[ | n] | ] | msg]; cbn;
           try destruct (add_cookies b) as [[] | msg']; cbn);
      (split; [ eexists _, _;
                split; [ reflexivity
                       | split; [ exact Hpath | split; [ discriminate | ] ] ]
              | split; [ split; [ intros H; try discriminate; split; reflexivity
                                | intros [H1 H2]; try discriminate; reflexivity ]
                       | reflexivity ] ]);
      repeat (constructor; [ solve [ auto | right; right; eauto ] | ]);
      constructor.
  - split; [ exists (BrowserFactory.executable_path b), [];
             split; [ reflexivity
                    | split; [ exact Hpath
                             | split; [ reflexivity | constructor ] ] ] | ].
    split; [ split; [ discriminate | intros [H _]; discriminate ]
           | reflexivity ].
Qed.

Lemma first_existing_sound h paths p :
  BrowserUtils.first_existing h paths = Some p ->
  In p paths /\ path_exists h p = true.
Proof.
  induction paths as [ | q paths IH]; cbn; [ discriminate | ].
  destruct (path_exists h q) eqn:E.
  - intros H. inversion H; subst. auto.
  - intros H. destruct (IH H). auto.
Qed.

Lemma first_existing_none h paths :
  BrowserUtils.first_existing h paths = None <->
  forall p, In p paths -> path_exists h p = false.
Proof.
  induction paths as [ | q paths IH]; cbn.
  - split; [ intros _ p [] | reflexivity ].
  - destruct (path_exists h q) eqn:E.
    + split; [ discriminate | ]. intros H.
      rewrite (H q (or_introl eq_refl)) in E. discriminate.
    + rewrite IH. split.
      * intros H p [<- | Hp]; auto.
      * intros H p Hp. apply H. now right.
Qed.

Lemma py_or_choice a b' :
  BrowserUtils.py_or a b' = a \/ BrowserUtils.py_or a b' = b'.
Proof. destruct a as [s | ]; cbn; [ destruct (PyStr.truthy s) | ]; auto. Qed.

Lemma py_or_falsy a b' :
  BrowserUtils.truthy_opt (BrowserUtils.py_or a b') = false <->
  BrowserUtils.truthy_opt a = false /\ BrowserUtils.truthy_opt b' = false.
Proof.
  destruct a as [s | ]; cbn.
  - destruct (PyStr.truthy s) eqn:E; cbn; rewrite ?E; intuition discriminate.
  - intuition.
Qed.

(** X3: a path that [get_chrome_path] returns was found: it exists on
    the disk, or, on Linux, [shutil.which] returned it (as a non-empty
    string) for one of the three command names. *)
Theorem chrome_path_was_found :
  forall (h : Host) (p : string),
    BrowserUtils.get_chrome_path h = Some p ->
    path_exists h p = true
    \/ (platform_system h = "Linux"
        /\ PyStr.truthy p = true
        /\ exists cmd, In cmd BrowserUtils.linux_commands
                       /\ which h cmd = Some p).
Proof.
  intros h p. unfold BrowserUtils.get_chrome_path. cbn zeta.
  destruct (String.eqb (platform_system h) "Darwin") eqn:Ed.
  { destruct (path_exists h BrowserUtils.MAC_CHROME) eqn:E; [ | discriminate ].
    intros H. inversion H; subst. auto. }
  destruct (String.eqb (platform_system h) "Windows") eqn:Ew.
  { intros H. left. apply (first_existing_sound _ _ _ H). }
  destruct (String.eqb (platform_system h) "Linux") eqn:El; [ | discriminate ].
  apply String.eqb_eq in El.
  match goal with
  | |- context [BrowserUtils.truthy_opt ?c] =>
      set (cmd := c); destruct (BrowserUtils.truthy_opt cmd) eqn:Et
  end.
  - intros Hc. right. rewrite Hc in Et. cbn in Et.
    split; [ exact El | ]. split; [ exact Et | ].
    subst cmd. unfold BrowserUtils.linux_commands.
    destruct (py_or_choice
                (BrowserUtils.py_or (which h "google-chrome") (which h "chrome"))
                (which h "chromium")) as [E | E]; rewrite E in Hc.
    + destruct (py_or_choice (which h "google-chrome") (which h "chrome"))
        as [E' | E']; rewrite E' in Hc.
      * exists "google-chrome". cbn. auto.
      * exists "chrome". cbn. auto.
    + exists "chromium". cbn. auto.
  - intros H. left. apply (first_existing_sound _ _ _ H).
Qed.

Lemma chrome_path_was_found_witness :
  path_exists linux_host "/opt/google/chrome/chrome" = true
  \/ (platform_system linux_host = "Linux"
      /\ PyStr.truthy "/opt/google/chrome/chrome" = true
      /\ exists cmd, In cmd BrowserUtils.linux_commands
                     /\ which linux_host cmd = Some "/opt/google/chrome/chrome").
Proof.
  apply (chrome_path_was_found linux_host "/opt/google/chrome/chrome").
  reflexivity.
Defined.

(** X4: [get_chrome_path] returns [None], so that the bundled Chromium
    is used, exactly when nothing was found: on a system other than
    Darwin, Windows and Linux always; on Darwin when the application is
    missing; on Windows when none of the three expanded paths exists; on
    Linux when [shutil.which] finds none of the three commands and none
    of the four fixed paths exists. *)
Theorem chrome_path_none_iff_nothing_found :
  forall (h : Host),
    BrowserUtils.get_chrome_path h = None <->
    if String.eqb (platform_system h) "Darwin" then
      path_exists h BrowserUtils.MAC_CHROME = false
    else if String.eqb (platform_system h) "Windows" then
      forall p, In p (BrowserUtils.windows_paths h) -> path_exists h p = false
    else if String.eqb (platform_system h) "Linux" then
      (forall cmd, In cmd BrowserUtils.linux_commands ->
                   BrowserUtils.truthy_opt (which h cmd) = false)
      /\ (forall p, In p BrowserUtils.linux_paths -> path_exists h p = false)
    else True.
Proof.
  intros h. unfold BrowserUtils.get_chrome_path. cbn zeta.
  destruct (String.eqb (platform_system h) "Darwin").
  { destruct (path_exists h BrowserUtils.MAC_CHROME);
      split; intros; congruence. }
  destruct (String.eqb (platform_system h) "Windows").
  { apply first_existing_none. }
  destruct (String.eqb (platform_system h) "Linux"); [ | tauto ].
  match goal with
  | |- context [BrowserUtils.truthy_opt ?c] =>
      set (cmd := c); destruct (BrowserUtils.truthy_opt cmd) eqn:Et
  end.
  - split.
    + intros Hc. rewrite Hc in Et. discriminate.
    + intros [Hw _]. exfalso. subst cmd.
      assert (BrowserUtils.truthy_opt
                (BrowserUtils.py_or
                   (BrowserUtils.py_or (which h "google-chrome")
                      (which h "chrome")) (which h "chromium")) = false).
      { apply py_or_falsy. split; [ apply py_or_falsy; split | ];
          apply Hw; cbn; auto. }
      congruence.
  - subst cmd. apply py_or_falsy in Et. destruct Et as [Et E3].
    apply py_or_falsy in Et. destruct Et as [E1 E2].
    rewrite first_existing_none. split.
    + intros H. split; [ | exact H ].
      intros c [<- | [<- | [<- | []]]]; assumption.
    + tauto.
Qed.

(** ** Calls a computation never makes *)

Lemma avoids_ret {A} P (a : A) : avoids P (ret a).
Proof. intros f. constructor. Qed.

Lemma avoids_bind {A B} P (m : M A) (k : A -> M B) :
  avoids P m -> (forall a, avoids P (k a)) -> avoids P (bind m k).
Proof.
  intros Hm Hk f. rewrite bind_run. specialize (Hm f).
  destruct (outcome (m f)) as [a | e]; proj_run; [ | exact Hm ].
  apply Forall_app. split; [ exact Hm | apply Hk ].
Qed.

Lemma avoids_try_except {A} P (m : M A) (h : string -> M A) :
  avoids P m -> (forall e, avoids P (h e)) -> avoids P (try_except m h).
Proof.
  intros Hm Hh f. rewrite try_except_run. specialize (Hm f).
  destruct (outcome (m f)) as [a | e]; proj_run; [ exact Hm | ].
  apply Forall_app. split; [ exact Hm | apply Hh ].
Qed.

Lemma avoids_try_finally {A} P (m : M A) (c : M unit) :
  avoids P m -> avoids P c -> avoids P (try_finally m c).
Proof.
  intros Hm Hc f. unfold try_finally. specialize (Hm f).
  destruct (m f) as [[r f1] l1]. specialize (Hc f1).
  destruct (c f1) as [[[[] | e] f2] l2]; proj_run;
    apply Forall_app; split; assumption.
Qed.

Lemma avoids_call {A} P (ev : Event) (r : res A) :
  P ev = false -> avoids P (call ev r).
Proof. intros H f. cbn. auto. Qed.

Lemma avoids_sleep P ms : P (Sleep ms) = false -> avoids P (sleep ms).
Proof. intros H f. cbn. auto. Qed.

Lemma avoids_elapse P ms : avoids P (elapse ms).
Proof. intros f. constructor. Qed.

Lemma avoids_time P : avoids P time_time.
Proof. intros f. constructor. Qed.

Lemma avoids_set_playwright P d : avoids P (set_playwright d).
Proof. intros f. constructor. Qed.

Lemma avoids_set_context P c : avoids P (set_context c).
Proof. intros f. constructor. Qed.

Lemma avoids_get_playwright P : avoids P get_playwright.
Proof. intros f. constructor. Qed.

Lemma avoids_get_context P : avoids P get_context.
Proof. intros f. constructor. Qed.

Lemma avoids_when {P c} {m : M unit} : avoids P m -> avoids P (when c m).
Proof. intros H. destruct c; [ exact H | apply avoids_ret ]. Qed.

Create HintDb avoids.
#[local] Hint Resolve avoids_ret avoids_elapse avoids_time avoids_set_playwright
  avoids_set_context avoids_get_playwright avoids_get_context : avoids.

(** Breaks a computation down to its calls; what is left is a loop, for
    the lemmas of the hint database, or a call of the kind to avoid. *)
Ltac avoids_step :=
  match goal with
  | |- avoids _ (bind _ _) => apply avoids_bind; [ | intros ? ]
  | |- avoids _ (try_except _ _) => apply avoids_try_except; [ | intros ? ]
  | |- avoids _ (try_finally _ _) => apply avoids_try_finally
  | |- avoids _ (when _ _) => apply avoids_when
  | |- avoids _ (call _ _) => apply avoids_call; solve [ reflexivity | auto ]
  | |- avoids _ (sleep _) => apply avoids_sleep; solve [ reflexivity | auto ]
  | |- avoids _ (match ?x with _ => _ end) => destruct x
  | |- avoids _ (if ?x then _ else _) => destruct x
  | |- avoids _ _ => solve [ auto with avoids ]
  end.

Ltac avoids_tac := repeat avoids_step.

Lemma avoids_page_wait P b s t :
  P (WaitForSelector s t) = false -> avoids P (page_wait_for_selector b s t).
Proof. intros H. unfold page_wait_for_selector. avoids_tac. Qed.

Lemma avoids_wait_first P b t sels :
  (forall s, P (WaitForSelector s t) = false) ->
  avoids P (wait_first b t sels).
Proof.
  intros H. induction sels; cbn [wait_first]; avoids_tac.
  apply avoids_page_wait, H.
Qed.

Lemma avoids_find_working_selector P b sels :
  (forall s, P (QuerySelector s) = false) ->
  (forall e, P (IsVisible e) = false) ->
  avoids P (AskGemini.find_working_selector b sels).
Proof.
  intros H1 H2.
  induction sels; cbn [AskGemini.find_working_selector]; avoids_tac.
Qed.

Lemma avoids_try_selector P b q i s st :
  (forall s, P (QuerySelectorAll s) = false) ->
  (forall e, P (InnerText e) = false) ->
  avoids P (AskGemini.try_selector b q i s st).
Proof.
  intros H1 H2. unfold AskGemini.try_selector. avoids_tac.
Qed.

Lemma avoids_scan_selectors P b q i sels :
  (forall s, P (QuerySelectorAll s) = false) ->
  (forall e, P (InnerText e) = false) ->
  forall st, avoids P (AskGemini.scan_selectors b q i sels st).
Proof.
  intros H1 H2.
  induction sels; intros st; cbn [AskGemini.scan_selectors]; avoids_tac.
  now apply avoids_try_selector.
Qed.

Lemma avoids_poll_loop P b q deadline fuel :
  (forall s, P (QuerySelectorAll s) = false) ->
  (forall e, P (InnerText e) = false) ->
  P (Sleep 1000) = false ->
  forall i st, avoids P (AskGemini.poll_loop b q deadline fuel i st).
Proof.
  intros H1 H2 H3.
  induction fuel; intros i st; cbn [AskGemini.poll_loop]; avoids_tac.
  now apply avoids_scan_selectors.
Qed.

Lemma avoids_await_answer P b q :
  (forall s, P (QuerySelectorAll s) = false) ->
  (forall e, P (InnerText e) = false) ->
  P (Sleep 1000) = false ->
  avoids P (AskGemini.await_answer b q).
Proof.
  intros H1 H2 H3. unfold AskGemini.await_answer. avoids_tac.
  now apply avoids_poll_loop.
Qed.

(** ** The working selector *)

Lemma find_working_selector_step b s rest f :
  AskGemini.find_working_selector b (s :: rest) f =
    if visible_now b s then (Val (Some s), f, probe_events b s)
    else
      let r := AskGemini.find_working_selector b rest f in
      (outcome r, frame_of r, probe_events b s ++ events r).
Proof.
  unfold visible_now, probe_events. cbn [AskGemini.find_working_selector].
  unfold try_except, bind, call, ret.
  destruct (query_selector b s) as [[e | ] | msg]; cbn;
    [ destruct (is_visible b e) as [[ | ] | msg]; cbn | | ];
    try reflexivity;
    destruct (AskGemini.find_working_selector b rest f) as [[o g] l];
    reflexivity.
Qed.

Lemma find_working_selector_frame b sels :
  forall f, frame_of (AskGemini.find_working_selector b sels f) = f.
Proof.
  induction sels as [ | s sels IH]; intros f; [ reflexivity | ].
  rewrite find_working_selector_step.
  destruct (visible_now b s); [ reflexivity | ]. cbn zeta. proj_run. apply IH.
Qed.

(** X5: the working selector of [ask_gemini] is the first candidate, in
    list order, whose query finds an element that [is_visible] reports
    visible; a candidate whose query or visibility test raises, finds
    nothing or finds a hidden element is passed over; the visibility is
    tested only on elements that were found; no later candidate is
    queried; and the result is [None] when every candidate is passed
    over.  No time passes. *)
Theorem working_selector_is_first_visible :
  forall (b : Browser) (f : Frame),
    (forall pre s post,
        (forall c, In c pre -> visible_now b c = false) ->
        visible_now b s = true ->
        AskGemini.find_working_selector b (pre ++ s :: post) f
        = (Val (Some s), f, flat_map (probe_events b) (pre ++ [s])))
    /\ (forall sels,
           (forall c, In c sels -> visible_now b c = false) ->
           AskGemini.find_working_selector b sels f
           = (Val None, f, flat_map (probe_events b) sels)).
Proof.
  intros b f. split.
  - intros pre. induction pre as [ | c pre IH]; intros s post Hpre Hs.
    + cbn [app]. rewrite find_working_selector_step, Hs.
      cbn. now rewrite app_nil_r.
    + cbn [app]. rewrite find_working_selector_step.
      rewrite (Hpre c (or_introl eq_refl)).
      rewrite (IH s post (fun c' H => Hpre c' (or_intror H)) Hs).
      reflexivity.
  - intros sels. induction sels as [ | c sels IH]; intros Hall.
    + reflexivity.
    + rewrite find_working_selector_step, (Hall c (or_introl eq_refl)).
      rewrite (IH (fun c' H => Hall c' (or_intror H))). reflexivity.
Qed.

(** ** The polling loop on any page *)

(** X6: whatever the page does, waiting for the answer only observes:
    every call it makes is [query_selector_all], [inner_text] or a sleep
    of one second; it sleeps at most 120 times; and it returns a value,
    no exception of the page leaves it. *)
Theorem polling_only_observes :
  forall (b : Browser) (question : string) (f : Frame),
    let r := AskGemini.await_answer b question f in
    Forall (fun e => observation e = true) (events r)
    /\ (exists k, sleeps (events r) = repeat 1000 k /\ (k <= 120)%nat)
    /\ exists v, outcome r = Val v.
Proof.
  intros b question f. cbn zeta. split; [ | split ].
  - assert (H : avoids (fun e => negb (observation e))
                  (AskGemini.await_answer b question)).
    { apply avoids_await_answer; reflexivity. }
    specialize (H f). eapply Forall_impl; [ | exact H ].
    cbn. intros e He. now apply negb_false_iff.
  - rewrite await_answer_unfold.
    assert (H : forall fuel i st g,
               clock g = clock f + poll_start b i ->
               exists k,
                 sleeps (events (AskGemini.poll_loop b question
                                   (clock f + 120000) fuel i st g))
                 = repeat 1000 k /\ (k <= 120 - i)%nat).
    { induction fuel as [ | fuel IH]; intros i st g Hclk.
      - exists 0%nat. split; [ reflexivity | lia ].
      - rewrite poll_loop_unfold.
        destruct (clock g <? clock f + 120000) eqn:Hlt;
          [ | exists 0%nat; split; [ reflexivity | lia ] ].
        apply Z.ltb_lt in Hlt. cbn zeta.
        pose proof (poll_start_lower b i) as Hlow.
        destruct (scan_selectors_pure b question i
                    AskGemini.GEMINI_RESPONSE_SELECTORS st
                    (at_clock g (clock g + Z.max 0 (poll_busy b i))))
          as (l & Hl & ->).
        proj_run.
        destruct (snd (scan_samples question
                         (map (sample_of b i)
                            AskGemini.GEMINI_RESPONSE_SELECTORS) st)).
        + proj_run. exists 0%nat. split; [ exact Hl | lia ].
        + match goal with
          | |- context [AskGemini.poll_loop b question _ fuel (S i) ?s ?g'] =>
              destruct (IH (S i) s g') as (k & Hk & Hle)
          end.
          { cbn [at_clock clock poll_start]. lia. }
          proj_run. exists (S k). split; [ | lia ].
          rewrite sleeps_app, Hl.
          change (sleeps (Sleep 1000 :: ?l')) with (1000 :: sleeps l').
          cbn [app repeat]. now rewrite Hk. }
    destruct (H 121%nat 0%nat AskGemini.fresh f) as (k & Hk & Hle).
    { cbn. lia. }
    exists k. split; [ exact Hk | lia ].
  - rewrite await_answer_unfold.
    assert (H : forall fuel i st g,
               exists v, outcome (AskGemini.poll_loop b question
                                    (clock f + 120000) fuel i st g) = Val v).
    { induction fuel as [ | fuel IH]; intros i st g.
      - eexists. reflexivity.
      - rewrite poll_loop_unfold.
        destruct (clock g <? clock f + 120000); [ | eexists; reflexivity ].
        cbn zeta.
        destruct (scan_selectors_pure b question i
                    AskGemini.GEMINI_RESPONSE_SELECTORS st
                    (at_clock g (clock g + Z.max 0 (poll_busy b i))))
          as (l & Hl & ->).
        proj_run.
        destruct (snd (scan_samples question
                         (map (sample_of b i)
                            AskGemini.GEMINI_RESPONSE_SELECTORS) st)).
        + eexists. reflexivity.
        + proj_run. apply IH. }
    apply H.
Qed.

Lemma working_selector_is_first_visible_witness :
  AskGemini.find_working_selector stale_cookies_page
    AskGemini.GEMINI_INPUT_SELECTORS (start_frame 0)
  = (Val (Some ".ql-editor[contenteditable='true']"), start_frame 0,
     [ QuerySelector "rich-textarea[placeholder*='输入']";
       QuerySelector "rich-textarea[placeholder*='Enter']";
       QuerySelector "rich-textarea";
       QuerySelector ".ql-editor[contenteditable='true']";
       IsVisible 9%nat ]).
Proof.
  refine (proj1 (working_selector_is_first_visible stale_cookies_page
                   (start_frame 0))
            [ "rich-textarea[placeholder*='输入']";
              "rich-textarea[placeholder*='Enter']";
              "rich-textarea" ]
            ".ql-editor[contenteditable='true']"
            [ "div[contenteditable='true'][role='textbox']" ] _ _).
  - intros c [<- | [<- | [<- | []]]]; reflexivity.
  - reflexivity.
Defined.

Lemma poll_loop_timing b question c0 :
  forall fuel i st g,
    clock g = c0 + poll_start b i ->
    (120 < i + fuel)%nat ->
    let r := AskGemini.poll_loop b question (c0 + 120000) fuel i st g in
    exists k,
      sleeps (events r) = repeat 1000 k
      /\ match outcome r with
         | Val (Some _) =>
             poll_start b (i + k) < 120000
             /\ clock (frame_of r)
                = c0 + poll_start b (i + k) + Z.max 0 (poll_busy b (i + k))
         | Val None =>
             120000 <= poll_start b (i + k)
             /\ (forall j, (i <= j < i + k)%nat -> poll_start b j < 120000)
             /\ clock (frame_of r) = c0 + poll_start b (i + k)
         | Exc _ => False
         end.
Proof.
  induction fuel as [ | fuel IH]; intros i st g Hclk Hfuel; cbn zeta.
  - exists 0%nat. cbn. rewrite Nat.add_0_r.
    pose proof (poll_start_lower b i).
    repeat split; [ lia | intros j Hj; lia | exact Hclk ].
  - rewrite poll_loop_unfold.
    destruct (clock g <? c0 + 120000) eqn:Hlt.
    2:{ apply Z.ltb_ge in Hlt. exists 0%nat. proj_run. rewrite Nat.add_0_r.
        repeat split; [ lia | intros j Hj; lia | exact Hclk ]. }
    apply Z.ltb_lt in Hlt. cbn zeta.
    destruct (scan_selectors_pure b question i
                AskGemini.GEMINI_RESPONSE_SELECTORS st
                (at_clock g (clock g + Z.max 0 (poll_busy b i))))
      as (l & Hl & ->).
    proj_run.
    destruct (snd (scan_samples question
                     (map (sample_of b i)
                        AskGemini.GEMINI_RESPONSE_SELECTORS) st)).
    + exists 0%nat. proj_run. rewrite Nat.add_0_r.
      repeat split; [ exact Hl | lia | cbn; lia ].
    + match goal with
      | |- context [AskGemini.poll_loop b question _ fuel (S i) ?s ?g'] =>
          destruct (IH (S i) s g') as (k & Hk & Hout); [ | lia | ]
      end.
      { cbn [at_clock clock poll_start]. lia. }
      exists (S k). proj_run. split.
      * rewrite sleeps_app, Hl.
        change (sleeps (Sleep 1000 :: ?l')) with (1000 :: sleeps l').
        cbn [app repeat]. now rewrite Hk.
      * replace (i + S k)%nat with (S i + k)%nat by lia.
        match goal with
        | |- match ?o with _ => _ end => destruct o as [[a | ] | e]
        end; [ exact Hout | | exact Hout ].
        destruct Hout as (H1 & H2 & H3). repeat split; auto.
        intros j Hj. destruct (Nat.eq_dec j i) as [-> | Hne]; [ lia | ].
        apply H2. lia.
Qed.

(** X7: on any page, the wait for the answer gives up only at a deadline
    test that comes 120 seconds or more after the wait began, every
    earlier poll having started before the deadline, and it returns at
    that test; an answer comes from a poll that started before the
    deadline.  One second is slept per earlier poll, a poll taking the
    time of its queries besides. *)
Theorem polling_gives_up_at_the_deadline :
  forall (b : Browser) (question : string) (f : Frame),
    let r := AskGemini.await_answer b question f in
    exists k,
      sleeps (events r) = repeat 1000 k
      /\ match outcome r with
         | Val (Some _) =>
             poll_start b k < 120000
             /\ clock (frame_of r)
                = clock f + poll_start b k + Z.max 0 (poll_busy b k)
         | Val None =>
             120000 <= poll_start b k
             /\ (forall j, (j < k)%nat -> poll_start b j < 120000)
             /\ clock (frame_of r) = clock f + poll_start b k
         | Exc _ => False
         end.
Proof.
  intros b question f. cbn zeta. rewrite await_answer_unfold.
  destruct (poll_loop_timing b question (clock f) 121 0 AskGemini.fresh f)
    as (k & Hk & Hout); [ cbn; lia | lia | ].
  exists k. split; [ exact Hk | ].
  cbn [Nat.add] in Hout.
  destruct (outcome (AskGemini.poll_loop b question (clock f + 120000) 121 0
                       AskGemini.fresh f)) as [[a | ] | e]; auto.
  destruct Hout as (H1 & H2 & H3). repeat split; auto.
  intros j Hj. apply H2. lia.
Qed.

(** ** Submitting *)

Lemma presses_app l1 l2 : presses (l1 ++ l2) = (presses l1 + presses l2)%nat.
Proof. unfold presses. now rewrite filter_app, length_app. Qed.

Lemma avoids_presses {A} (m : M A) f :
  avoids is_press m -> presses (events (m f)) = 0%nat.
Proof.
  intros H. specialize (H f). unfold presses.
  induction H as [ | e l He _ IH]; [ reflexivity | ].
  cbn. now rewrite He.
Qed.

(** A computation that presses a key at most once. *)
Lemma once_of_avoids {A} (m : M A) :
  avoids is_press m -> forall f, (presses (events (m f)) <= 1)%nat.
Proof. intros H f. rewrite (avoids_presses m f H). lia. Qed.

Lemma once_bind_l {A B} (m : M A) (k : A -> M B) :
  avoids is_press m ->
  (forall a f, (presses (events (k a f)) <= 1)%nat) ->
  forall f, (presses (events (bind m k f)) <= 1)%nat.
Proof.
  intros Hm Hk f. rewrite bind_run. pose proof (avoids_presses m f Hm) as H0.
  destruct (outcome (m f)) as [a | e]; proj_run; [ | lia ].
  rewrite presses_app, H0. apply Hk.
Qed.

Lemma once_bind_r {A B} (m : M A) (k : A -> M B) :
  (forall f, (presses (events (m f)) <= 1)%nat) ->
  (forall a, avoids is_press (k a)) ->
  forall f, (presses (events (bind m k f)) <= 1)%nat.
Proof.
  intros Hm Hk f. rewrite bind_run. specialize (Hm f).
  destruct (outcome (m f)) as [a | e]; proj_run; [ | lia ].
  rewrite presses_app, (avoids_presses (k a) _ (Hk a)). lia.
Qed.

Lemma once_try_except {A} (m : M A) (h : string -> M A) :
  (forall f, (presses (events (m f)) <= 1)%nat) ->
  (forall e, avoids is_press (h e)) ->
  forall f, (presses (events (try_except m h f)) <= 1)%nat.
Proof.
  intros Hm Hh f. rewrite try_except_run. specialize (Hm f).
  destruct (outcome (m f)) as [a | e]; proj_run; [ lia | ].
  rewrite presses_app, (avoids_presses (h e) _ (Hh e)). lia.
Qed.

Lemma once_try_finally {A} (m : M A) (c : M unit) :
  (forall f, (presses (events (m f)) <= 1)%nat) ->
  avoids is_press c ->
  forall f, (presses (events (try_finally m c f)) <= 1)%nat.
Proof.
  intros Hm Hc f. unfold try_finally. specialize (Hm f).
  destruct (m f) as [[r f1] l1].
  pose proof (avoids_presses c f1 Hc) as H0.
  destruct (c f1) as [[[[] | e] f2] l2];
    rewrite !events_mk in *; rewrite presses_app; lia.
Qed.

Lemma np_inject_cookies b : avoids is_press (BrowserFactory._inject_cookies b).
Proof. unfold BrowserFactory._inject_cookies. avoids_tac. Qed.

Lemma np_launch b h :
  avoids is_press (BrowserFactory.launch_persistent_context b h).
Proof.
  unfold BrowserFactory.launch_persistent_context. avoids_tac.
  apply np_inject_cookies.
Qed.

Lemma np_cleanup b : avoids is_press (cleanup b).
Proof. unfold cleanup. avoids_tac. Qed.

Lemma np_wait_first b t sels : avoids is_press (wait_first b t sels).
Proof. apply avoids_wait_first. reflexivity. Qed.

Lemma np_find_working_selector b sels :
  avoids is_press (AskGemini.find_working_selector b sels).
Proof. apply avoids_find_working_selector; reflexivity. Qed.

Lemma np_deliver b e ws q : avoids is_press (AskGemini.deliver b e ws q).
Proof. unfold AskGemini.deliver. avoids_tac. Qed.

Lemma np_await_answer b q : avoids is_press (AskGemini.await_answer b q).
Proof. apply avoids_await_answer; reflexivity. Qed.

Lemma np_click_image_button b sels :
  avoids is_press (GenerateImage.click_image_button b sels).
Proof.
  induction sels; cbn [GenerateImage.click_image_button]; avoids_tac.
  apply avoids_page_wait. reflexivity.
Qed.

Lemma np_find_actual_input b sels :
  avoids is_press (GenerateImage.find_actual_input b sels).
Proof. induction sels; cbn [GenerateImage.find_actual_input]; avoids_tac. Qed.

Lemma np_type_prompt b e p d :
  avoids is_press (GenerateImage.type_prompt b e p d).
Proof.
  unfold GenerateImage.type_prompt. avoids_tac. apply np_find_actual_input.
Qed.

Lemma np_loaded_of b i imgs : avoids is_press (GenerateImage.loaded_of b i imgs).
Proof. induction imgs; cbn [GenerateImage.loaded_of]; avoids_tac. Qed.

Lemma np_image_try_selector b i s st :
  avoids is_press (GenerateImage.try_selector b i s st).
Proof.
  unfold GenerateImage.try_selector. avoids_tac; apply np_loaded_of.
Qed.

Lemma np_image_scan b i sels :
  forall st, avoids is_press (GenerateImage.scan_selectors b i sels st).
Proof.
  induction sels; intros st; cbn [GenerateImage.scan_selectors]; avoids_tac.
  apply np_image_try_selector.
Qed.

Lemma np_poll_images b n :
  forall i st, avoids is_press (GenerateImage.poll_images b n i st).
Proof.
  induction n; intros i st; cbn [GenerateImage.poll_images]; avoids_tac.
  apply np_image_scan.
Qed.

Lemma np_retrieve_one b dir i c saved :
  avoids is_press (GenerateImage.retrieve_one b dir i c saved).
Proof. unfold GenerateImage.retrieve_one. avoids_tac. Qed.

Lemma np_retrieve b dir cs :
  forall i saved, avoids is_press (GenerateImage.retrieve b dir i cs saved).
Proof.
  induction cs; intros i saved; cbn [GenerateImage.retrieve]; avoids_tac.
  apply np_retrieve_one.
Qed.

Lemma np_download_images b dir :
  avoids is_press (GenerateImage.download_images b dir).
Proof.
  unfold GenerateImage.download_images. avoids_tac. apply np_retrieve.
Qed.

#[local] Hint Resolve np_inject_cookies np_launch np_cleanup np_wait_first
  np_find_working_selector np_deliver np_await_answer np_click_image_button
  np_find_actual_input np_type_prompt np_poll_images np_download_images
  : avoids.

Lemma once_ask_on_page b q h :
  forall f, (presses (events (AskGemini.ask_on_page b q h f)) <= 1)%nat.
Proof.
  unfold AskGemini.ask_on_page, AskGemini.find_input.
  do 4 (apply once_bind_l; [ solve [ avoids_tac ] | intros ? ]).
  destruct a2 as [input_element | ];
    [ | apply once_of_avoids; solve [ avoids_tac ] ].
  apply once_bind_l; [ solve [ avoids_tac ] | intros [ws | ] ];
    [ | apply once_of_avoids; solve [ avoids_tac ] ].
  apply once_bind_l; [ solve [ avoids_tac ] | intros [ | ] ];
    [ | apply once_of_avoids; solve [ avoids_tac ] ].
  apply once_bind_r; [ intros f; cbn; lia | intros ?; solve [ avoids_tac ] ].
Qed.

Lemma once_generate_on_page b p dir h d :
  forall f,
    (presses (events (GenerateImage.generate_on_page b p dir h d f)) <= 1)%nat.
Proof.
  unfold GenerateImage.generate_on_page.
  do 5 (apply once_bind_l; [ solve [ avoids_tac ] | intros ? ]).
  destruct a3 as [input_element | ];
    [ | apply once_of_avoids; solve [ avoids_tac ] ].
  apply once_bind_l; [ solve [ avoids_tac ] | intros typed ].
  destruct (negb typed); [ apply once_of_avoids; solve [ avoids_tac ] | ].
  apply once_bind_r; [ intros f; cbn; lia | intros ? ].
  avoids_tac. apply avoids_page_wait. reflexivity.
Qed.

Lemma once_guarded {A} (b : Browser) (headless : bool)
  (page_work : M (option A)) :
  (forall f, (presses (events (page_work f)) <= 1)%nat) ->
  forall f,
    (presses
       (events
          ((authenticated <- call AuthCheck (Val (is_authenticated b)) ;;
            if negb authenticated then ret None
            else
              set_playwright None ;;
              set_context None ;;
              try_finally
                (try_except
                   (call PlaywrightStart (sync_playwright_start b) ;;
                    set_playwright (Some PlaywrightDriver) ;;
                    ctx <- BrowserFactory.launch_persistent_context b headless ;;
                    set_context (Some ctx) ;;
                    page_work)
                   (fun _ => when (negb headless) (sleep 30000) ;; ret None))
                (cleanup b)) f)) <= 1)%nat.
Proof.
  intros Hwork.
  apply once_bind_l; [ solve [ avoids_tac ] | intros authenticated ].
  destruct (negb authenticated); [ apply once_of_avoids; solve [ avoids_tac ] | ].
  do 2 (apply once_bind_l; [ solve [ avoids_tac ] | intros ? ]).
  apply once_try_finally; [ | solve [ avoids_tac ] ].
  apply once_try_except; [ | intros ?; solve [ avoids_tac ] ].
  do 4 (apply once_bind_l; [ solve [ avoids_tac ] | intros ? ]).
  exact Hwork.
Qed.

(** X8: no run of [ask_gemini] or of [generate_image] submits twice:
    whatever the page does and however the run ends, [keyboard.press] is
    called at most once. *)
Theorem prompt_is_submitted_at_most_once :
  forall (b : Browser) (question prompt output_dir : string)
         (headless debug : bool) (f : Frame),
    (presses (events (AskGemini.ask_gemini b question headless f)) <= 1)%nat
    /\ (presses
          (events (GenerateImage.generate_image b prompt output_dir headless
                     debug f)) <= 1)%nat.
Proof.
  intros. split.
  - apply (once_guarded b headless (AskGemini.ask_on_page b question headless)).
    apply once_ask_on_page.
  - apply (once_guarded b headless
             (GenerateImage.generate_on_page b prompt output_dir headless debug)).
    apply once_generate_on_page.
Qed.

(** ** Failures before the prompt is submitted *)

Lemma avoids_bind_known {A B} P (m : M A) (k : A -> M B) :
  avoids P m ->
  (forall a, (exists f, outcome (m f) = Val a) -> avoids P (k a)) ->
  avoids P (bind m k).
Proof.
  intros Hm Hk f. rewrite bind_run. specialize (Hm f).
  destruct (outcome (m f)) as [a | e] eqn:E; proj_run; [ | exact Hm ].
  apply Forall_app. split; [ exact Hm | ].
  apply Hk. exists f. exact E.
Qed.

Lemma avoids_inject_cookies P b :
  (forall e, setup_event e = true -> P e = false) ->
  avoids P (BrowserFactory._inject_cookies b).
Proof. intros H. unfold BrowserFactory._inject_cookies. avoids_tac. Qed.

Lemma avoids_cleanup P b :
  (forall e, setup_event e = true -> P e = false) ->
  avoids P (cleanup b).
Proof. intros H. unfold cleanup. avoids_tac. Qed.

Lemma avoids_guarded {A} P (b : Browser) (headless : bool)
  (page_work : M (option A)) :
  (forall e, setup_event e = true -> P e = false) ->
  avoids P page_work ->
  avoids P
    (authenticated <- call AuthCheck (Val (is_authenticated b)) ;;
     if negb authenticated then ret None
     else
       set_playwright None ;;
       set_context None ;;
       try_finally
         (try_except
            (call PlaywrightStart (sync_playwright_start b) ;;
             set_playwright (Some PlaywrightDriver) ;;
             ctx <- BrowserFactory.launch_persistent_context b headless ;;
             set_context (Some ctx) ;;
             page_work)
            (fun _ => when (negb headless) (sleep 30000) ;; ret None))
         (cleanup b)).
Proof.
  intros H Hwork.
  pose proof (avoids_inject_cookies P b H) as Hcook.
  pose proof (avoids_cleanup P b H) as Hclean.
  unfold BrowserFactory.launch_persistent_context. avoids_tac.
Qed.

(** What the guarded run returns comes from the page work. *)
Lemma guarded_some {A} (b : Browser) (headless : bool)
  (page_work : M (option A)) f a :
  outcome
    ((authenticated <- call AuthCheck (Val (is_authenticated b)) ;;
      if negb authenticated then ret None
      else
        set_playwright None ;;
        set_context None ;;
        try_finally
          (try_except
             (call PlaywrightStart (sync_playwright_start b) ;;
              set_playwright (Some PlaywrightDriver) ;;
              ctx <- BrowserFactory.launch_persistent_context b headless ;;
              set_context (Some ctx) ;;
              page_work)
             (fun _ => when (negb headless) (sleep 30000) ;; ret None))
          (cleanup b)) f) = Val (Some a) ->
  exists g, outcome (page_work g) = Val (Some a).
Proof.
  intros H.
  apply bind_val_inv in H. destruct H as (auth & _ & H).
  destruct (negb auth); [ discriminate | ].
  apply bind_val_inv in H. destruct H as (? & _ & H).
  apply bind_val_inv in H. destruct H as (? & _ & H).
  apply try_finally_val_inv in H.
  apply try_except_val_inv in H. destruct H as [H | (e & _ & H)].
  - do 4 (apply bind_val_inv in H; destruct H as (? & _ & H)).
    eexists. exact H.
  - apply bind_val_inv in H. destruct H as (? & _ & H). discriminate.
Qed.

Lemma guarded_none {A} (b : Browser) (headless : bool)
  (page_work : M (option A)) f :
  quiet page_work ->
  (forall g a, outcome (page_work g) <> Val (Some a)) ->
  outcome
    ((authenticated <- call AuthCheck (Val (is_authenticated b)) ;;
      if negb authenticated then ret None
      else
        set_playwright None ;;
        set_context None ;;
        try_finally
          (try_except
             (call PlaywrightStart (sync_playwright_start b) ;;
              set_playwright (Some PlaywrightDriver) ;;
              ctx <- BrowserFactory.launch_persistent_context b headless ;;
              set_context (Some ctx) ;;
              page_work)
             (fun _ => when (negb headless) (sleep 30000) ;; ret None))
          (cleanup b)) f) = Val None.
Proof.
  intros Hq Hno.
  destruct (guarded_run_ends b headless page_work f Hq)
    as [[[a | ] Hv] _]; [ | exact Hv ].
  apply guarded_some in Hv. destruct Hv as (g & Hg).
  now destruct (Hno g a).
Qed.

Lemma deliver_fails b question :
  (forall e, is_val (click b e) && is_val (type_text b e question) = false) ->
  (forall e, is_val (fill b e question) = false) ->
  (forall ws, is_val (evaluate b ws question) = false) ->
  forall e ws g,
    outcome (AskGemini.deliver b e ws question g)
    = Val AskGemini.DeliveryFailed.
Proof.
  intros H1 H2 H3 e ws g. specialize (H1 e). specialize (H2 e).
  specialize (H3 ws).
  unfold AskGemini.deliver, try_except, bind, call, sleep, ret, outcome.
  destruct (click b e) as [[] | ?]; cbn;
    destruct (type_text b e question) as [[] | ?]; cbn;
    destruct (fill b e question) as [[] | ?]; cbn;
    destruct (evaluate b ws question) as [[] | ?]; cbn;
    cbn in *; try discriminate; reflexivity.
Qed.

(** X9: when every typing method raises (the click or the typing,
    [fill], and the scripted assignment), [ask_gemini] returns [None]
    and no key is pressed: a prompt that could not be delivered is never
    submitted. *)
Theorem failed_delivery_is_not_submitted :
  forall (b : Browser) (question : string) (headless : bool) (f : Frame),
    (forall e, is_val (click b e) && is_val (type_text b e question) = false) ->
    (forall e, is_val (fill b e question) = false) ->
    (forall ws, is_val (evaluate b ws question) = false) ->
    let r := AskGemini.ask_gemini b question headless f in
    outcome r = Val None /\ presses (events r) = 0%nat.
Proof.
  intros b question headless f H1 H2 H3. cbn zeta.
  pose proof (deliver_fails b question H1 H2 H3) as Hfail.
  split.
  - apply (guarded_none b headless (AskGemini.ask_on_page b question headless)).
    + apply quiet_ask_on_page.
    + intros g a H. unfold AskGemini.ask_on_page in H.
      do 4 (apply bind_val_inv in H; destruct H as (? & _ & H)).
      match type of H with
      | context [match ?x with Some _ => _ | None => _ end] => destruct x
      end.
      2:{ apply bind_val_inv in H. destruct H as (? & _ & H). discriminate. }
      apply bind_val_inv in H; destruct H as (ws & _ & H).
      destruct ws as [ws | ]; [ | discriminate ].
      apply bind_val_inv in H; destruct H as (d & Hd & H).
      rewrite Hfail in Hd. inversion Hd; subst. discriminate.
  - apply (avoids_presses (AskGemini.ask_gemini b question headless)).
    apply (avoids_guarded is_press b headless
             (AskGemini.ask_on_page b question headless)).
    + intros e He. destruct e; try reflexivity; discriminate.
    + unfold AskGemini.ask_on_page, AskGemini.find_input.
      do 4 (apply avoids_bind; [ solve [ avoids_tac ] | intros ? ]).
      destruct a2 as [input_element | ]; [ | solve [ avoids_tac ] ].
      apply avoids_bind; [ solve [ avoids_tac ] | intros [ws | ] ];
        [ | solve [ avoids_tac ] ].
      apply avoids_bind_known; [ solve [ avoids_tac ] | ].
      intros d (g & Hd). rewrite Hfail in Hd. inversion Hd; subst.
      avoids_tac.
Qed.

Lemma failed_delivery_is_not_submitted_witness :
  let r := AskGemini.ask_gemini stale_cookies_page "What is 2+2?" true
             (start_frame 0) in
  outcome r = Val None /\ presses (events r) = 0%nat.
Proof.
  apply (failed_delivery_is_not_submitted stale_cookies_page "What is 2+2?"
           true (start_frame 0)); intros; reflexivity.
Defined.

(** X10: when none of the input selectors turns up an element,
    [ask_gemini] returns [None] without a click, a keystroke, a [fill],
    a scripted assignment or a key press: nothing was done to the
    page. *)
Theorem ask_gemini_without_input_field :
  forall (b : Browser) (question : string) (headless : bool) (f : Frame),
    (forall c, In c AskGemini.GEMINI_INPUT_SELECTORS -> wait_hit b c = None) ->
    let r := AskGemini.ask_gemini b question headless f in
    outcome r = Val None
    /\ Forall (fun e => interaction e = false) (events r).
Proof.
  intros b question headless f Hmiss. cbn zeta.
  assert (Hnone : forall g, outcome (AskGemini.find_input b g) = Val None).
  { intros g. unfold AskGemini.find_input.
    apply (wait_first_miss b 10000 AskGemini.GEMINI_INPUT_SELECTORS);
      [ lia | exact Hmiss ]. }
  split.
  - apply (guarded_none b headless (AskGemini.ask_on_page b question headless)).
    + apply quiet_ask_on_page.
    + intros g a H. unfold AskGemini.ask_on_page in H.
      do 3 (apply bind_val_inv in H; destruct H as (? & _ & H)).
      apply bind_val_inv in H; destruct H as (inp & Hinp & H).
      rewrite Hnone in Hinp. inversion Hinp; subst.
      apply bind_val_inv in H. destruct H as (? & _ & H). discriminate.
  - apply (avoids_guarded interaction b headless
             (AskGemini.ask_on_page b question headless)).
    + intros e He. destruct e; try reflexivity; discriminate.
    + unfold AskGemini.ask_on_page.
      do 3 (apply avoids_bind; [ solve [ avoids_tac ] | intros ? ]).
      apply avoids_bind_known.
      * unfold AskGemini.find_input. apply avoids_wait_first. reflexivity.
      * intros x (g & Hx). rewrite Hnone in Hx. inversion Hx; subst.
        avoids_tac.
Qed.

Lemma ask_gemini_without_input_field_witness :
  let r := AskGemini.ask_gemini sign_in_page "What is 2+2?" false
             (start_frame 0) in
  outcome r = Val None
  /\ Forall (fun e => interaction e = false) (events r).
Proof.
  apply (ask_gemini_without_input_field sign_in_page "What is 2+2?" false
           (start_frame 0)).
  intros c _. reflexivity.
Defined.

Lemma avoids_click_image_button P b sels :
  (forall s t, P (WaitForSelector s t) = false) ->
  (forall e, P (Click e) = false) ->
  (forall ms, P (Sleep ms) = false) ->
  avoids P (GenerateImage.click_image_button b sels).
Proof.
  intros H1 H2 H3.
  induction sels; cbn [GenerateImage.click_image_button]; avoids_tac.
  apply avoids_page_wait, H1.
Qed.

(** X11: when none of the three input selectors of [generate_image]
    turns up an element, it returns [None] and the prompt is neither
    typed nor filled in nor submitted (the image button may have been
    clicked before). *)
Theorem generate_image_without_input_field :
  forall (b : Browser) (prompt output_dir : string) (headless debug : bool)
         (f : Frame),
    (forall c, In c GenerateImage.input_selectors -> wait_hit b c = None) ->
    let r := GenerateImage.generate_image b prompt output_dir headless debug f
    in
    outcome r = Val None
    /\ Forall (fun e => typing e = false) (events r).
Proof.
  intros b prompt output_dir headless debug f Hmiss. cbn zeta.
  assert (Hnone : forall g,
             outcome (wait_first b 10000 GenerateImage.input_selectors g)
             = Val None).
  { intros g.
    apply (wait_first_miss b 10000 GenerateImage.input_selectors);
      [ lia | exact Hmiss ]. }
  split.
  - apply (guarded_none b headless
             (GenerateImage.generate_on_page b prompt output_dir headless debug)).
    + apply quiet_generate_on_page.
    + intros g a H. unfold GenerateImage.generate_on_page in H.
      do 4 (apply bind_val_inv in H; destruct H as (? & _ & H)).
      apply bind_val_inv in H; destruct H as (inp & Hinp & H).
      rewrite Hnone in Hinp. inversion Hinp; subst. discriminate.
  - apply (avoids_guarded typing b headless
             (GenerateImage.generate_on_page b prompt output_dir headless debug)).
    + intros e He. destruct e; try reflexivity; discriminate.
    + unfold GenerateImage.generate_on_page.
      do 3 (apply avoids_bind; [ solve [ avoids_tac ] | intros ? ]).
      apply avoids_bind;
        [ apply avoids_click_image_button; reflexivity | intros ? ].
      apply avoids_bind_known.
      * apply avoids_wait_first. reflexivity.
      * intros x (g & Hx). rewrite Hnone in Hx. inversion Hx; subst.
        avoids_tac.
Qed.

Lemma generate_image_without_input_field_witness :
  let r := GenerateImage.generate_image sign_in_page long_prompt "out" true
             false (start_frame 0) in
  outcome r = Val None
  /\ Forall (fun e => typing e = false) (events r).
Proof.
  apply (generate_image_without_input_field sign_in_page long_prompt "out"
           true false (start_frame 0)).
  intros c _. reflexivity.
Defined.

(** ** Exit codes *)

Lemma download_images_nonempty b dir g ps :
  outcome (GenerateImage.download_images b dir g) = Val (Some ps) -> ps <> [].
Proof.
  unfold GenerateImage.download_images. intros H.
  do 3 (apply bind_val_inv in H; destruct H as (? & _ & H)).
  match type of H with
  | context [match ?l with [] => _ | _ :: _ => _ end] => destruct l
  end; [ discriminate | ].
  cbn in H. inversion H. discriminate.
Qed.

Lemma generate_on_page_nonempty b p dir h d g ps :
  outcome (GenerateImage.generate_on_page b p dir h d g) = Val (Some ps) ->
  ps <> [].
Proof.
  unfold GenerateImage.generate_on_page. intros H.
  do 4 (apply bind_val_inv in H; destruct H as (? & _ & H)).
  apply bind_val_inv in H; destruct H as (inp & _ & H).
  destruct inp as [input_element | ]; [ | discriminate ].
  apply bind_val_inv in H; destruct H as (typed & _ & H).
  destruct (negb typed); [ discriminate | ].
  apply bind_val_inv in H; destruct H as (? & _ & H).
  apply bind_val_inv in H; destruct H as (appeared & _ & H).
  destruct (negb appeared); [ discriminate | ].
  apply bind_val_inv in H; destruct H as (? & _ & H).
  apply bind_val_inv in H; destruct H as (found & _ & H).
  destruct found as [ | img imgs].
  - apply bind_val_inv in H. destruct H as (? & _ & H). discriminate.
  - eapply download_images_nonempty. exact H.
Qed.

(** X12: the exit code tells whether the task produced something:
    [main] of [ask_gemini.py] exits with 0 exactly when [ask_gemini]
    returned an answer and with 1 otherwise, and an answer is never the
    empty string, so the truth test of [main] rejects no answer;
    [main] of [generate_image.py] exits with 0 exactly when
    [generate_image] returned paths and with 1 otherwise, and the list
    it returns is never empty.  Neither function raises. *)
Theorem exit_code_tells_success :
  forall (b : Browser) (question prompt output : string)
         (show_browser headless debug : bool) (f : Frame),
    let ra := AskGemini.ask_gemini b question (negb show_browser) f in
    let rg := GenerateImage.generate_image b prompt output headless debug f in
    outcome (AskGemini.main b question show_browser f)
    = Val (match outcome ra with Val (Some _) => 0 | _ => 1 end)
    /\ outcome (GenerateImage.main b prompt output headless debug f)
       = Val (match outcome rg with Val (Some _) => 0 | _ => 1 end)
    /\ (exists v, outcome ra = Val v)
    /\ (exists v, outcome rg = Val v)
    /\ (forall a, outcome ra = Val (Some a) -> PyStr.truthy a = true)
    /\ (forall ps, outcome rg = Val (Some ps) -> ps <> []).
Proof.
  intros b question prompt output show_browser headless debug f. cbn zeta.
  assert (Hva : exists v,
             outcome (AskGemini.ask_gemini b question (negb show_browser) f)
             = Val v).
  { apply (guarded_run_ends b (negb show_browser)
             (AskGemini.ask_on_page b question (negb show_browser)) f).
    apply quiet_ask_on_page. }
  assert (Hvg : exists v,
             outcome (GenerateImage.generate_image b prompt output headless
                        debug f) = Val v).
  { apply (guarded_run_ends b headless
             (GenerateImage.generate_on_page b prompt output headless debug) f).
    apply quiet_generate_on_page. }
  assert (Hta : forall a,
             outcome (AskGemini.ask_gemini b question (negb show_browser) f)
             = Val (Some a) -> PyStr.truthy a = true).
  { intros a H.
    destruct (guarded_some b (negb show_browser)
                (AskGemini.ask_on_page b question (negb show_browser)) f a H)
      as (g & Hg).
    eapply accepted_truthy, ask_on_page_answer. exact Hg. }
  assert (Hng : forall ps,
             outcome (GenerateImage.generate_image b prompt output headless
                        debug f) = Val (Some ps) -> ps <> []).
  { intros ps H.
    destruct (guarded_some b headless
                (GenerateImage.generate_on_page b prompt output headless debug)
                f ps H) as (g & Hg).
    eapply generate_on_page_nonempty. exact Hg. }
  repeat apply conj; auto.
  - unfold AskGemini.main. rewrite bind_run.
    destruct Hva as (v & Hv). rewrite Hv. proj_run.
    destruct v as [a | ]; [ | reflexivity ].
    now rewrite (Hta a Hv).
  - unfold GenerateImage.main. rewrite bind_run.
    destruct Hvg as (v & Hv). rewrite Hv. proj_run.
    destruct v as [[ | p ps] | ]; try reflexivity.
    now destruct (Hng [] Hv).
Qed.

(** ** Typing the image prompt *)

(** X13: [type_prompt] of [generate_image] never raises, and it gives up
    at the first call that raises: it reports success exactly when the
    click returned and the one delivery call it chose returned ([fill]
    on the inner element for a prompt longer than 100 characters when
    one is found, typing otherwise).  A raising inner query is passed
    over, and a [fill] that raises is not followed by typing. *)
Theorem type_prompt_gives_up_at_first_failure :
  forall (b : Browser) (e : Element) (prompt : string) (debug : bool)
         (f : Frame),
    let r := GenerateImage.type_prompt b e prompt debug f in
    let long := (100 <? String.length prompt)%nat in
    let inner := first_found b GenerateImage.actual_input_selectors in
    outcome r
    = Val (is_val (click b e)
           && match (if long then inner else None) with
              | Some a => is_val (fill b a prompt)
              | None => is_val (type_text b e prompt)
              end)
    /\ (forall a, long = true -> inner = Some a ->
                  forall x t d, ~ In (TypeText x t d) (events r))
    /\ (is_val (click b e) = false -> events r = [Click e]).
Proof.
  intros b e prompt debug f. cbn zeta.
  unfold GenerateImage.type_prompt, try_except, bind, call, sleep, ret.
  destruct (click b e) as [[] | msg];
    cbn -[GenerateImage.find_actual_input first_found Nat.ltb];
    [ | split; [ reflexivity | split; [ | reflexivity ] ];
        intros a _ _ x t d [Hin | []]; discriminate ].
  destruct (100 <? String.length prompt)%nat.
  - rewrite find_actual_input_run.
    destruct (first_found b GenerateImage.actual_input_selectors) as [a | ].
    + destruct (fill b a prompt) as [[] | msg]; [ destruct debug | ];
        cbn -[queried];
        (split; [ reflexivity | split; [ | discriminate ] ]);
        intros a' _ _ x t d Hin;
        repeat (destruct Hin as [Hin | Hin]; [ discriminate | ]);
        rewrite ?app_nil_r in Hin;
        apply in_app_or in Hin; destruct Hin as [Hin | Hin];
        try (apply in_map_iff in Hin; destruct Hin as (? & ? & _);
             discriminate);
        repeat (destruct Hin as [Hin | Hin]; [ discriminate | ]);
        destruct Hin.
    + destruct (type_text b e prompt) as [[] | msg]; cbn -[queried];
        (split; [ reflexivity | split; [ | discriminate ] ]);
        intros a' _ Ha'; discriminate.
  - destruct (type_text b e prompt) as [[] | msg]; cbn;
      (split; [ reflexivity | split; [ | discriminate ] ]);
      intros a' Hl; discriminate.
Qed.

(** ** The image polling loop *)

Lemma loaded_of_pure b attempt imgs :
  forall f,
    match loaded_now b attempt imgs with
    | Some l => outcome (GenerateImage.loaded_of b attempt imgs f) = Val l
    | None => exists e,
        outcome (GenerateImage.loaded_of b attempt imgs f) = Exc e
    end.
Proof.
  induction imgs as [ | img rest IH]; intros f; [ reflexivity | ].
  cbn [GenerateImage.loaded_of loaded_now]. rewrite bind_run.
  unfold call. proj_run.
  destruct (get_attribute_src b attempt img) as [src | e]; proj_run;
    [ | now exists e ].
  rewrite bind_run.
  match goal with
  | |- context [GenerateImage.loaded_of b attempt rest ?g] =>
      specialize (IH g)
  end.
  destruct (loaded_now b attempt rest) as [l | ].
  - rewrite IH. proj_run. reflexivity.
  - destruct IH as (e & IH). rewrite IH. proj_run. now exists e.
Qed.

Lemma image_try_selector_pure b attempt selector st f :
  outcome (GenerateImage.try_selector b attempt selector st f)
  = Val (match image_sample b attempt selector with
         | Some l => GenerateImage.observe st l
         | None => (st, [])
         end).
Proof.
  unfold GenerateImage.try_selector, image_sample.
  rewrite try_except_run, bind_run. unfold call. proj_run.
  destruct (query_selector_all b attempt selector) as [[ | img imgs] | e];
    proj_run; try reflexivity.
  rewrite bind_run.
  match goal with
  | |- context [GenerateImage.loaded_of b attempt ?l ?g] =>
      pose proof (loaded_of_pure b attempt l g) as H
  end.
  destruct (loaded_now b attempt (img :: imgs)) as [[ | x l] | ].
  - rewrite H. proj_run. reflexivity.
  - rewrite H. proj_run. reflexivity.
  - destruct H as (e & H). rewrite H. proj_run. reflexivity.
Qed.

Lemma observe_follows older st l :
  follows older st -> l <> [] ->
  exists st',
    GenerateImage.observe st l
    = (st', if (3 <=? count_run (List.length l) older)%nat then l else [])
    /\ follows (List.length l :: older) st'.
Proof.
  intros Hf Hl. unfold GenerateImage.observe.
  assert (Hpos : (0 <? List.length l)%nat = true).
  { destruct l; [ congruence | reflexivity ]. }
  rewrite Hpos, andb_true_r.
  destruct older as [ | n rest]; cbn [follows count_run] in *.
  - subst st. cbn [GenerateImage.last_image_count GenerateImage.fresh].
    destruct (Nat.eqb_spec (List.length l) 0) as [E | E].
    + rewrite E in Hpos. discriminate.
    + eexists. split; [ reflexivity | ]. split; reflexivity.
  - destruct Hf as [Hlast Hcount]. rewrite Hlast.
    destruct (Nat.eqb_spec (List.length l) n) as [E | E].
    + cbn [GenerateImage.stable_count]. rewrite Hcount, E.
      destruct (3 <=? S (count_run n rest))%nat;
        (eexists; split; [ reflexivity | ]);
        cbn [GenerateImage.stable_count GenerateImage.last_image_count];
        auto.
    + eexists. split; [ reflexivity | ].
      cbn [GenerateImage.stable_count GenerateImage.last_image_count].
      auto.
Qed.

Lemma image_sample_nonempty b attempt selector l :
  image_sample b attempt selector = Some l -> l <> [].
Proof.
  unfold image_sample.
  destruct (query_selector_all b attempt selector) as [imgs | ];
    [ | discriminate ].
  destruct (loaded_now b attempt imgs) as [[ | x l'] | ]; try discriminate.
  intros H. inversion H. discriminate.
Qed.

Lemma first_stable_nonempty samples :
  Forall (fun s => s <> []) samples ->
  forall older, first_stable older samples = [] \/
                In (first_stable older samples) samples.
Proof.
  induction 1 as [ | s rest Hs _ IH]; intros older; cbn [first_stable];
    [ now left | ].
  destruct (3 <=? count_run (List.length s) older)%nat.
  - right. now left.
  - destruct (IH (List.length s :: older)) as [H | H]; [ now left | ].
    right. now right.
Qed.

Lemma samples_at_nonempty b attempt sels :
  Forall (fun s => s <> []) (samples_at b attempt sels).
Proof.
  apply Forall_forall. intros s Hin. unfold samples_at in Hin.
  apply in_flat_map in Hin. destruct Hin as (sel & _ & Hin).
  destruct (image_sample b attempt sel) as [l | ] eqn:E; [ | destruct Hin ].
  destruct Hin as [<- | []]. eapply image_sample_nonempty. exact E.
Qed.

Lemma samples_from_nonempty b n :
  forall attempt, Forall (fun s => s <> []) (samples_from b attempt n).
Proof.
  induction n as [ | n IH]; intros attempt; cbn [samples_from];
    [ constructor | ].
  apply Forall_app. split; [ apply samples_at_nonempty | apply IH ].
Qed.

(** One pass over the selectors either stops at the first stable sample
    or leaves the counters following the sizes seen. *)
Lemma image_scan_pure b attempt sels :
  forall older st f,
    follows older st ->
    exists st' found,
      outcome (GenerateImage.scan_selectors b attempt sels st f)
      = Val (st', found)
      /\ ((found <> []
           /\ forall more,
               first_stable older (samples_at b attempt sels ++ more)
               = found)
          \/ (found = []
              /\ exists older',
                  follows older' st'
                  /\ forall more,
                      first_stable older (samples_at b attempt sels ++ more)
                      = first_stable older' more)).
Proof.
  induction sels as [ | sel sels IH]; intros older st f Hf.
  - exists st, []. split; [ reflexivity | ]. right. split; [ easy | ].
    exists older. split; [ exact Hf | reflexivity ].
  - cbn [GenerateImage.scan_selectors]. rewrite bind_run.
    rewrite image_try_selector_pure. proj_run.
    unfold samples_at. cbn [flat_map]. fold (samples_at b attempt sels).
    destruct (image_sample b attempt sel) as [l | ] eqn:E.
    + pose proof (image_sample_nonempty _ _ _ _ E) as Hl.
      destruct (observe_follows older st l Hf Hl) as (st1 & Hobs & Hf').
      rewrite Hobs. cbn [app first_stable snd fst].
      destruct (3 <=? count_run (List.length l) older)%nat.
      * destruct l as [ | x l]; [ congruence | ].
        proj_run. eexists _, _. split; [ reflexivity | ].
        left. split; [ discriminate | reflexivity ].
      * match goal with
        | |- context [GenerateImage.scan_selectors b attempt sels st1 ?g] =>
            destruct (IH (List.length l :: older) st1 g Hf')
              as (st' & found & Hrun & Hcase)
        end.
        exists st', found. split; [ exact Hrun | exact Hcase ].
    + cbn [snd fst app].
      match goal with
      | |- context [GenerateImage.scan_selectors b attempt sels st ?g] =>
          destruct (IH older st g Hf) as (st' & found & Hrun & Hcase)
      end.
      exists st', found. split; [ exact Hrun | exact Hcase ].
Qed.

Lemma poll_images_pure b n :
  forall attempt older st f,
    follows older st ->
    outcome (GenerateImage.poll_images b n attempt st f)
    = Val (first_stable older (samples_from b attempt n)).
Proof.
  induction n as [ | n IH]; intros attempt older st f Hf; [ reflexivity | ].
  cbn [GenerateImage.poll_images samples_from]. rewrite bind_run.
  destruct (image_scan_pure b attempt GenerateImage.IMAGE_RESULT_SELECTORS
              older st f Hf) as (st' & found & Hrun & Hcase).
  rewrite Hrun. cbn [snd fst].
  destruct Hcase as [[Hne Hst] | [-> (older' & Hf' & Hst)]].
  - destruct found as [ | x found]; [ congruence | ].
    proj_run. now rewrite Hst.
  - proj_run. rewrite bind_run. set (g := frame_of (sleep 1000 _)).
    unfold sleep. proj_run. rewrite Hst. now apply IH.
Qed.

(** X14: the image polling loop returns the first sample (a non-empty
    list of loaded images seen through one selector at one attempt,
    taken attempt by attempt and, within an attempt, in the order of the
    selector list) that has as many images as each of the three samples
    before it, and [[]] when the samples of the 30 attempts hold no such
    sample.  It never raises: a query or an attribute read that raises
    only leaves its sample out. *)
Theorem image_poll_returns_first_stable_sample :
  forall (b : Browser) (f : Frame),
    outcome (GenerateImage.poll_images b 30 0 GenerateImage.fresh f)
    = Val (first_stable [] (samples_from b 0 30)).
Proof.
  intros b f. apply poll_images_pure. reflexivity.
Qed.

Lemma prefix_occurs needle :
  forall hay, String.prefix needle hay = true ->
              exists after, hay = (needle ++ after)%string.
Proof.
  induction needle as [ | c needle IH]; intros hay H.
  - exists hay. reflexivity.
  - destruct hay as [ | d hay]; [ discriminate | ].
    cbn [String.prefix] in H.
    destruct (Ascii.ascii_dec c d) as [-> | ]; [ | discriminate ].
    destruct (IH hay H) as (after & ->). exists after. reflexivity.
Qed.

Lemma contains_occurs needle hay :
  PyStr.contains needle hay = true -> occurs_in needle hay.
Proof.
  induction hay as [ | c hay IH]; cbn [PyStr.contains]; intros H.
  - rewrite orb_false_r in H. apply prefix_occurs in H.
    destruct H as (after & ->). now exists EmptyString, after.
  - apply orb_prop in H. destruct H as [H | H].
    + apply prefix_occurs in H. destruct H as (after & ->).
      now exists EmptyString, after.
    + destruct (IH H) as (before & after & ->).
      now exists (String c before), after.
Qed.

Lemma loaded_now_sound b attempt imgs :
  forall l, loaded_now b attempt imgs = Some l ->
            forall img, In img l ->
                        In img imgs
                        /\ exists src,
                            get_attribute_src b attempt img = Val (Some src)
                            /\ occurs_in "googleusercontent.com" src.
Proof.
  induction imgs as [ | x rest IH]; cbn [loaded_now]; intros l H img Hin.
  - inversion H. subst l. destruct Hin.
  - destruct (get_attribute_src b attempt x) as [src | ] eqn:Hsrc;
      [ | discriminate ].
    destruct (loaded_now b attempt rest) as [l' | ]; [ | discriminate ].
    inversion H. subst l. clear H.
    destruct (GenerateImage.is_loaded src) eqn:Hl.
    + destruct Hin as [<- | Hin].
      * split; [ now left | ].
        destruct src as [s | ]; [ | discriminate ].
        exists s. split; [ exact Hsrc | ].
        cbn in Hl. apply andb_prop in Hl.
        apply contains_occurs. tauto.
      * destruct (IH l' eq_refl img Hin) as [H1 H2].
        split; [ now right | exact H2 ].
    + destruct (IH l' eq_refl img Hin) as [H1 H2].
      split; [ now right | exact H2 ].
Qed.

Lemma samples_from_sound b n :
  forall attempt s,
    In s (samples_from b attempt n) ->
    exists k selector,
      (attempt <= k < attempt + n)%nat
      /\ In selector GenerateImage.IMAGE_RESULT_SELECTORS
      /\ image_sample b k selector = Some s.
Proof.
  induction n as [ | n IH]; intros attempt s Hin; [ destruct Hin | ].
  cbn [samples_from] in Hin. apply in_app_or in Hin.
  destruct Hin as [Hin | Hin].
  - unfold samples_at in Hin. apply in_flat_map in Hin.
    destruct Hin as (sel & Hsel & Hin).
    destruct (image_sample b attempt sel) as [l | ] eqn:E; [ | destruct Hin ].
    destruct Hin as [<- | []].
    exists attempt, sel. repeat split; auto; lia.
  - destruct (IH _ _ Hin) as (k & sel & Hk & Hsel & E).
    exists k, sel. repeat split; auto; lia.
Qed.

Lemma ns_loaded_of b i imgs :
  avoids is_sleep (GenerateImage.loaded_of b i imgs).
Proof. induction imgs; cbn [GenerateImage.loaded_of]; avoids_tac. Qed.

Lemma ns_image_try_selector b i s st :
  avoids is_sleep (GenerateImage.try_selector b i s st).
Proof.
  unfold GenerateImage.try_selector. avoids_tac; apply ns_loaded_of.
Qed.

Lemma ns_image_scan b i sels :
  forall st, avoids is_sleep (GenerateImage.scan_selectors b i sels st).
Proof.
  induction sels; intros st; cbn [GenerateImage.scan_selectors]; avoids_tac.
  apply ns_image_try_selector.
Qed.

Lemma sleeps_of_avoids {A} (m : M A) f :
  avoids is_sleep m -> sleeps (events (m f)) = [].
Proof.
  intros H. specialize (H f).
  induction H as [ | e l He _ IH]; [ reflexivity | ].
  unfold sleeps in *. cbn [flat_map]. rewrite IH.
  destruct e; try reflexivity. discriminate.
Qed.

Lemma poll_images_sleeps b n :
  forall attempt st f,
    exists k,
      sleeps (events (GenerateImage.poll_images b n attempt st f))
      = repeat 1000 k
      /\ (k <= n)%nat
      /\ (outcome (GenerateImage.poll_images b n attempt st f) = Val []
          -> k = n).
Proof.
  induction n as [ | n IH]; intros attempt st f.
  - exists 0%nat. repeat split; auto.
  - cbn [GenerateImage.poll_images]. rewrite bind_run.
    assert (Hq : sleeps (events (GenerateImage.scan_selectors b attempt
                   GenerateImage.IMAGE_RESULT_SELECTORS st f)) = []).
    { apply sleeps_of_avoids, ns_image_scan. }
    destruct (outcome (GenerateImage.scan_selectors b attempt
                GenerateImage.IMAGE_RESULT_SELECTORS st f))
      as [[st' found] | e] eqn:Hrun.
    + cbn [snd fst]. destruct found as [ | x found].
      * rewrite bind_run. set (g := frame_of (sleep 1000 _)).
        destruct (IH (S attempt) st' g) as (k & Hk & Hle & Hnone).
        unfold sleep. proj_run.
        exists (S k). rewrite !sleeps_app, Hq, Hk. cbn.
        repeat split; auto; lia.
      * proj_run. exists 0%nat. unfold ret. proj_run.
        rewrite sleeps_app, Hq. cbn.
        repeat split; auto; try lia. discriminate.
    + proj_run. exists 0%nat. rewrite Hq.
      repeat split; auto; try lia. discriminate.
Qed.

(** X15: every image the polling loop hands to the download step was
    loaded when it was sampled: at one of the 30 attempts its [src]
    attribute was read as a string in which [googleusercontent.com]
    occurs, and it was among the elements one of the three result
    selectors returned at that attempt.  The loop pauses one second
    after each attempt that found nothing stable, so at most 30 times,
    and exactly 30 times when it comes back with nothing. *)
Theorem found_images_were_loaded :
  forall (b : Browser) (f : Frame) (imgs : list Element),
    outcome (GenerateImage.poll_images b 30 0 GenerateImage.fresh f)
    = Val imgs ->
    (forall img, In img imgs ->
       exists attempt selector shown src,
         (attempt < 30)%nat
         /\ In selector GenerateImage.IMAGE_RESULT_SELECTORS
         /\ query_selector_all b attempt selector = Val shown
         /\ In img shown
         /\ get_attribute_src b attempt img = Val (Some src)
         /\ occurs_in "googleusercontent.com" src)
    /\ exists k,
         sleeps (events (GenerateImage.poll_images b 30 0
                           GenerateImage.fresh f))
         = repeat 1000 k
         /\ (k <= 30)%nat
         /\ (imgs = [] -> k = 30%nat).
Proof.
  intros b f imgs H. split.
  - intros img Hin.
    rewrite (poll_images_pure b 30 0 [] GenerateImage.fresh f eq_refl) in H.
    assert (Himgs : first_stable [] (samples_from b 0 30) = imgs)
      by congruence.
    clear H.
    destruct (first_stable_nonempty _ (samples_from_nonempty b 30 0) [])
      as [Hnone | Hs].
    + rewrite Hnone in Himgs. subst imgs. destruct Hin.
    + rewrite Himgs in Hs. clear Himgs.
      destruct (samples_from_sound b 30 0 imgs Hs)
        as (k & selector & Hk & Hsel & Hsample).
      unfold image_sample in Hsample.
      destruct (query_selector_all b k selector) as [shown | ] eqn:Hq;
        [ | discriminate ].
      destruct (loaded_now b k shown) as [[ | x l] | ] eqn:Hl;
        try discriminate.
      assert (Heq : x :: l = imgs) by congruence.
      rewrite <- Heq in Hin.
      destruct (loaded_now_sound b k shown _ Hl img Hin)
        as (Hshown & src & Hsrc & Hocc).
      exists k, selector, shown, src. repeat split; auto. lia.
  - destruct (poll_images_sleeps b 30 0 GenerateImage.fresh f)
      as (k & Hk & Hle & Hnone).
    exists k. repeat split; auto.
    intros ->. now apply Hnone.
Qed.

Lemma found_images_were_loaded_witness :
  (forall img, In img [21%nat; 22%nat] ->
     exists attempt selector shown src,
       (attempt < 30)%nat
       /\ In selector GenerateImage.IMAGE_RESULT_SELECTORS
       /\ query_selector_all settled_gallery attempt selector = Val shown
       /\ In img shown
       /\ get_attribute_src settled_gallery attempt img = Val (Some src)
       /\ occurs_in "googleusercontent.com" src)
  /\ exists k,
       sleeps (events (GenerateImage.poll_images settled_gallery 30 0
                         GenerateImage.fresh (start_frame 0)))
       = repeat 1000 k
       /\ (k <= 30)%nat
       /\ ([21%nat; 22%nat] = [] -> k = 30%nat).
Proof.
  apply (found_images_were_loaded settled_gallery (start_frame 0)
           [21%nat; 22%nat]).
  reflexivity.
Defined.

(** ** The saved files *)

Lemma digits_have_no_underscore d :
  has_char "_" (NilEmpty.string_of_uint d) = false.
Proof. induction d; cbn; auto. Qed.

Lemma split_at_underscore a :
  forall b x y,
    has_char "_" a = false -> has_char "_" b = false ->
    (a ++ String "_" x)%string = (b ++ String "_" y)%string -> a = b.
Proof.
  induction a as [ | c a IH]; intros [ | d b] x y Ha Hb H; cbn in *.
  - reflexivity.
  - inversion H. subst d. cbn in Hb. discriminate.
  - inversion H. subst c. cbn in Ha. discriminate.
  - inversion H. subst d. f_equal.
    apply orb_false_elim in Ha. apply orb_false_elim in Hb.
    eapply IH; [ tauto | tauto | eassumption ].
Qed.

Lemma of_nat_inj n m : PyStr.of_nat n = PyStr.of_nat m -> n = m.
Proof.
  unfold PyStr.of_nat. intros H.
  apply Unsigned.to_uint_inj.
  pose proof (NilEmpty.usu (Nat.to_uint n)) as Hn.
  pose proof (NilEmpty.usu (Nat.to_uint m)) as Hm.
  rewrite H in Hn. congruence.
Qed.

Lemma image_path_ordinal dir dir' i j t t' ext ext' :
  GenerateImage.image_path dir i t ext
  = GenerateImage.image_path dir' j t' ext' -> i = j.
Proof.
  unfold GenerateImage.image_path. intros H.
  injection H as _ H. cbn [append] in H.
  repeat match type of H with
         | String _ _ = String _ _ => injection H as H
         end.
  apply split_at_underscore in H;
    [ | apply digits_have_no_underscore | apply digits_have_no_underscore ].
  apply of_nat_inj in H. lia.
Qed.

Lemma fallback_of_cases dir i t c :
  fallback_of dir i t c = []
  \/ fallback_of dir i t c = [GenerateImage.image_path dir i t ".png"].
Proof.
  unfold fallback_of.
  destruct (fallback_img_elem c) as [[e | ] | ]; auto.
  destruct (is_val (fallback_screenshot c)); auto.
Qed.

Lemma artifact_of_cases dir i t c :
  artifact_of dir i t c = []
  \/ exists t' ext,
      artifact_of dir i t c = [GenerateImage.image_path dir i t' ext].
Proof.
  assert (Hf : forall t0,
             fallback_of dir i t0 c = []
             \/ exists t' ext, fallback_of dir i t0 c
                               = [GenerateImage.image_path dir i t' ext]).
  { intros t0. destruct (fallback_of_cases dir i t0 c) as [H | H]; eauto. }
  unfold artifact_of.
  destruct (download_button c) as [[btn | ] | ]; auto.
  - destruct (download c) as [suffix | ]; auto.
    destruct (is_val (save_as c)); eauto.
  - destruct (img_elem c) as [[e | ] | ]; auto.
    destruct (is_val (screenshot c)); eauto.
Qed.

Lemma artifacts_of_ordinals dir cs :
  forall i t p,
    In p (artifacts_of dir i t cs) ->
    exists j t' ext,
      (i <= j < i + List.length cs)%nat
      /\ p = GenerateImage.image_path dir j t' ext.
Proof.
  induction cs as [ | c cs IH]; intros i t p Hin; [ destruct Hin | ].
  cbn [artifacts_of] in Hin. apply in_app_or in Hin.
  destruct Hin as [Hin | Hin].
  - destruct (artifact_of_cases dir i t c) as [H | (t' & ext & H)];
      rewrite H in Hin; [ destruct Hin | ].
    destruct Hin as [<- | []]. exists i, t', ext. cbn. split; [ lia | easy ].
  - destruct (IH _ _ _ Hin) as (j & t' & ext & Hj & ->).
    exists j, t', ext. cbn. split; [ lia | easy ].
Qed.

Lemma artifacts_of_distinct dir cs :
  forall i t, NoDup (artifacts_of dir i t cs)
              /\ (List.length (artifacts_of dir i t cs)
                  <= List.length cs)%nat.
Proof.
  induction cs as [ | c cs IH]; intros i t; cbn [artifacts_of].
  - split; [ constructor | auto ].
  - destruct (IH (S i) (t + time_on c)) as [Hnd Hlen].
    destruct (artifact_of_cases dir i t c) as [H | (t' & ext & H)]; rewrite H.
    + cbn. split; [ exact Hnd | lia ].
    + cbn. split; [ | lia ].
      constructor; [ | exact Hnd ].
      intros Hin. apply artifacts_of_ordinals in Hin.
      destruct Hin as (j & t'' & ext' & Hj & Heq).
      apply image_path_ordinal in Heq. lia.
Qed.

(** X16: the download step never reports the same file twice and never
    more than one file per [generated-image] element: the paths it
    returns are pairwise distinct, there are at most as many as
    elements, and each lies in the output directory under the name
    [gemini_image_<j+1>_<seconds><ext>] for the position [j] of an
    element of the page. *)
Theorem saved_paths_are_distinct :
  forall (b : Browser) (output_dir : string) (f : Frame)
         (paths : list SavedPath),
    outcome (GenerateImage.download_images b output_dir f)
    = Val (Some paths) ->
    NoDup paths
    /\ exists containers,
         generated_images b = Val containers
         /\ (List.length paths <= List.length containers)%nat
         /\ forall p, In p paths ->
              sp_dir p = output_dir
              /\ exists j ext,
                   (j < List.length containers)%nat /\ named_after j ext p.
Proof.
  intros b output_dir f paths H.
  unfold GenerateImage.download_images in H.
  apply bind_val_inv in H. destruct H as (? & _ & H).
  apply bind_val_inv in H. destruct H as (cs & Hcs & H).
  apply bind_val_inv in H. destruct H as (saved & Hsaved & H).
  match type of Hsaved with
  | outcome (GenerateImage.retrieve _ _ _ _ _ ?g) = _ =>
      destruct (retrieve_run b output_dir cs 0 [] g) as (l & g' & Hrun & _);
      rewrite Hrun in Hsaved; set (t := clock g) in *
  end.
  rewrite outcome_mk in Hsaved. cbn [app] in Hsaved.
  assert (Hs : saved = artifacts_of output_dir 0 t cs) by congruence.
  assert (Hp : paths = saved).
  { destruct saved; [ discriminate | ]. cbn in H. congruence. }
  subst paths saved. clear H Hsaved.
  destruct (artifacts_of_distinct output_dir cs 0 t) as [Hnd Hlen].
  split; [ exact Hnd | ].
  exists cs. split; [ exact Hcs | ]. split; [ exact Hlen | ].
  intros p Hin. apply artifacts_of_ordinals in Hin.
  destruct Hin as (j & t' & ext & Hj & ->). split; [ reflexivity | ].
  exists j, ext. split; [ lia | ]. exists (t' / 1000). reflexivity.
Qed.

Lemma saved_paths_are_distinct_witness :
  let paths :=
    [ {| sp_dir := "out"; sp_name := "gemini_image_1_1700000001.jpg" |};
      {| sp_dir := "out"; sp_name := "gemini_image_2_1700000031.png" |};
      {| sp_dir := "out"; sp_name := "gemini_image_3_1700000033.png" |} ] in
  let page :=
    gallery_page [downloadable 1%nat ".jpg"; stuck_download 2%nat;
                  downloadable 3%nat ""] in
  NoDup paths
  /\ exists containers,
       generated_images page = Val containers
       /\ (List.length paths <= List.length containers)%nat
       /\ forall p, In p paths ->
            sp_dir p = "out"
            /\ exists j ext,
                 (j < List.length containers)%nat /\ named_after j ext p.
Proof.
  apply (saved_paths_are_distinct
           (gallery_page [downloadable 1%nat ".jpg"; stuck_download 2%nat;
                          downloadable 3%nat ""])
           "out" (start_frame 1700000000000)).
  reflexivity.
Defined.

(** ** Typing like a person *)

Lemma keystrokes_app {Float} (l1 l2 : list (StealthUtils.Gesture Float)) :
  StealthUtils.keystrokes (l1 ++ l2)
  = StealthUtils.keystrokes l1 ++ StealthUtils.keystrokes l2.
Proof. unfold StealthUtils.keystrokes. apply flat_map_app. Qed.

Lemma clicked_app {Float} (l1 l2 : list (StealthUtils.Gesture Float)) :
  StealthUtils.clicked (l1 ++ l2)
  = StealthUtils.clicked l1 ++ StealthUtils.clicked l2.
Proof. unfold StealthUtils.clicked. apply flat_map_app. Qed.

Lemma type_chars_prefix {Float} (p : StealthUtils.Page)
  (r : StealthUtils.Random Float) (e : Element) (text : string) :
  forall k,
    let run := StealthUtils.type_chars p r e k text in
    StealthUtils.clicked (snd run) = []
    /\ (is_val (fst run) = StealthUtils.all_typed p e k text)
    /\ exists n,
         (n <= String.length text)%nat
         /\ StealthUtils.keystrokes (snd run)
            = firstn n (list_ascii_of_string text)
         /\ (is_val (fst run) = true -> n = String.length text).
Proof.
  induction text as [ | c text IH]; intros k; cbn zeta.
  - cbn. repeat split; auto. exists 0%nat. auto.
  - cbn [StealthUtils.type_chars StealthUtils.all_typed].
    destruct (StealthUtils.type_char p k e c) as [[] | msg]; cbn [is_val andb].
    + destruct (IH (S k)) as (Hc & Hv & n & Hn & Hkeys & Hall).
      cbn [fst snd].
      split; [ | split ].
      * change (?x :: ?l ++ ?l') with ((x :: l) ++ l').
        rewrite clicked_app, Hc.
        destruct (StealthUtils.random_below_005 r k); reflexivity.
      * exact Hv.
      * exists (S n). split; [ cbn; lia | ]. split.
        -- change (?x :: ?l ++ ?l') with ((x :: l) ++ l').
           rewrite keystrokes_app, Hkeys.
           destruct (StealthUtils.random_below_005 r k); reflexivity.
        -- intros H. cbn. f_equal. now apply Hall.
    + cbn. repeat split; auto. exists 1%nat.
      split; [ lia | ]. split; [ reflexivity | discriminate ].
Qed.

(** X17: what [human_type] sends to the page.  When the first look
    raises, the exception leaves the function.  When neither the first
    look nor the two-second wait (whose exception is swallowed) gives an
    element, the function returns as if it had typed: no click, no
    keystroke, no exception.  Otherwise it clicks the element once and
    the keystrokes it sends are an initial part of the text, character
    by character; they are the whole text when the call returns, and the
    call returns exactly when the click and every keystroke were
    accepted.  The speed parameters [wpm_min] and [wpm_max] change
    nothing. *)
Theorem human_type_sends_a_prefix_of_the_text :
  forall (Float : Type) (p : StealthUtils.Page)
         (r : StealthUtils.Random Float) (selector text : string)
         (wpm_min wpm_max : Z),
    let run := StealthUtils.human_type p r selector text wpm_min wpm_max in
    (forall wpm_min' wpm_max',
        StealthUtils.human_type p r selector text wpm_min' wpm_max' = run)
    /\ match StealthUtils.query_selector p selector with
       | Exc msg => run = (Exc msg, [StealthUtils.QuerySelector selector])
       | Val _ =>
           match StealthUtils.located p selector with
           | None =>
               fst run = Val tt
               /\ StealthUtils.clicked (snd run) = []
               /\ StealthUtils.keystrokes (snd run) = []
           | Some element =>
               StealthUtils.clicked (snd run) = [element]
               /\ (exists n,
                      (n <= String.length text)%nat
                      /\ StealthUtils.keystrokes (snd run)
                         = firstn n (list_ascii_of_string text)
                      /\ (fst run = Val tt -> n = String.length text))
               /\ is_val (fst run)
                  = is_val (StealthUtils.click p element)
                    && StealthUtils.all_typed p element 0 text
           end
       end.
Proof.
  intros Float p r selector text wpm_min wpm_max. cbn zeta.
  split; [ reflexivity | ].
  unfold StealthUtils.human_type, StealthUtils.located.
  destruct (StealthUtils.query_selector p selector) as [first_look | msg];
    [ | reflexivity ].
  assert (Hfound : forall element l0,
             StealthUtils.clicked l0 = [] ->
             StealthUtils.keystrokes l0 = [] ->
             let run :=
               match StealthUtils.click p element with
               | Exc msg =>
                   (Exc msg,
                    StealthUtils.QuerySelector selector
                      :: l0 ++ [StealthUtils.Click element])
               | Val _ =>
                   (fst (StealthUtils.type_chars p r element 0 text),
                    StealthUtils.QuerySelector selector
                      :: l0 ++ StealthUtils.Click element
                      :: snd (StealthUtils.type_chars p r element 0 text))
               end in
             StealthUtils.clicked (snd run) = [element]
             /\ (exists n,
                    (n <= String.length text)%nat
                    /\ StealthUtils.keystrokes (snd run)
                       = firstn n (list_ascii_of_string text)
                    /\ (fst run = Val tt -> n = String.length text))
             /\ is_val (fst run)
                = is_val (StealthUtils.click p element)
                  && StealthUtils.all_typed p element 0 text).
  { intros element l0 Hc0 Hk0. cbn zeta.
    destruct (type_chars_prefix p r element text 0)
      as (Hc & Hv & n & Hn & Hkeys & Hall).
    destruct (StealthUtils.click p element) as [[] | msg]; cbn [fst snd is_val andb].
    - change (?x :: ?l ++ ?y :: ?l') with ((x :: l) ++ [y] ++ l').
      rewrite !clicked_app, !keystrokes_app, Hc, Hkeys.
      cbn [StealthUtils.clicked StealthUtils.keystrokes flat_map app].
      fold (StealthUtils.clicked l0). fold (StealthUtils.keystrokes l0).
      rewrite Hc0, Hk0. cbn [app].
      split; [ reflexivity | ]. split; [ | exact Hv ].
      exists n. split; [ exact Hn | ]. split; [ reflexivity | ].
      intros H. apply Hall. now rewrite H.
    - change (?x :: ?l ++ [?y]) with ((x :: l) ++ [y]).
      rewrite !clicked_app, !keystrokes_app.
      cbn [StealthUtils.clicked StealthUtils.keystrokes flat_map app].
      fold (StealthUtils.clicked l0). fold (StealthUtils.keystrokes l0).
      rewrite Hc0, Hk0. cbn [app].
      split; [ reflexivity | ]. split; [ | reflexivity ].
      exists 0%nat. split; [ lia | ]. split; [ reflexivity | discriminate ]. }
  destruct first_look as [e | ]; cbn [fst snd].
  - apply (Hfound e []); reflexivity.
  - destruct (StealthUtils.wait_for_selector p selector) as [[e | ] | msg].
    + apply (Hfound e [StealthUtils.WaitForSelector selector 2000]);
        reflexivity.
    + repeat split; reflexivity.
    + repeat split; reflexivity.
Qed.

(** ** No working selector *)

Lemma find_working_selector_none b sels :
  (forall c, In c sels -> visible_now b c = false) ->
  forall f, outcome (AskGemini.find_working_selector b sels f) = Val None.
Proof.
  induction sels as [ | c sels IH]; intros Hall f; [ reflexivity | ].
  rewrite find_working_selector_step, (Hall c (or_introl eq_refl)).
  cbn zeta. proj_run. apply IH. intros c' H. apply Hall. now right.
Qed.

(** X18: [ask_gemini] gives up before it types when the second lookup
    of the input field finds no visible element under any input
    selector, even when the wait before it has found the field: it
    returns [None] and there is no click, no keystroke, no [fill], no
    scripted assignment and no key press. *)
Theorem ask_gemini_needs_a_visible_input :
  forall (b : Browser) (question : string) (headless : bool) (f : Frame),
    (forall c, In c AskGemini.GEMINI_INPUT_SELECTORS ->
               visible_now b c = false) ->
    let r := AskGemini.ask_gemini b question headless f in
    outcome r = Val None
    /\ Forall (fun e => interaction e = false) (events r).
Proof.
  intros b question headless f Hhidden. cbn zeta.
  pose proof (find_working_selector_none b _ Hhidden) as Hnone.
  split.
  - apply (guarded_none b headless (AskGemini.ask_on_page b question headless)).
    + apply quiet_ask_on_page.
    + intros g a H. unfold AskGemini.ask_on_page in H.
      do 4 (apply bind_val_inv in H; destruct H as (? & _ & H)).
      match type of H with
      | context [match ?x with Some _ => _ | None => _ end] => destruct x
      end.
      2:{ apply bind_val_inv in H. destruct H as (? & _ & H). discriminate. }
      apply bind_val_inv in H; destruct H as (ws & Hws & H).
      rewrite Hnone in Hws. inversion Hws; subst. discriminate.
  - apply (avoids_guarded interaction b headless
             (AskGemini.ask_on_page b question headless)).
    + intros e He. destruct e; try reflexivity; discriminate.
    + unfold AskGemini.ask_on_page.
      do 3 (apply avoids_bind; [ solve [ avoids_tac ] | intros ? ]).
      apply avoids_bind.
      { unfold AskGemini.find_input. apply avoids_wait_first. reflexivity. }
      intros [input_element | ]; [ | solve [ avoids_tac ] ].
      apply avoids_bind_known.
      * apply avoids_find_working_selector; reflexivity.
      * intros x (g & Hx). rewrite Hnone in Hx. inversion Hx; subst.
        avoids_tac.
Qed.

Lemma ask_gemini_needs_a_visible_input_witness :
  let r := AskGemini.ask_gemini hidden_input_page "What is 2+2?" true
             (start_frame 0) in
  outcome r = Val None
  /\ Forall (fun e => interaction e = false) (events r).
Proof.
  apply (ask_gemini_needs_a_visible_input hidden_input_page "What is 2+2?"
           true (start_frame 0)).
  intros c Hc. cbn in Hc.
  repeat (destruct Hc as [<- | Hc]; [ reflexivity | ]). destruct Hc.
Defined.
